(** * KE1-CC-CHECKER: the validation engine of [script.js]

    A shallow embedding of class [CCValidator] (card-number clean-up,
    network detection, Luhn checksum, BIN ranges, expiration, CVV, the
    per-record orchestrator [validateCard] and the batch loop
    [processBatch]) together with the properties its specification states.

    Conventions of the embedding.
    - A JavaScript string is the list of its UTF-16 code units ([N]).
    - A JavaScript Number that holds an integer is a [Z]; [NaN] is [None].
      Every integer the engine computes with is far below 2^53 whenever the
      outcome of a comparison depends on it, so no rounding is involved.
    - [new Date()] reads the wall clock: the clock is an explicit argument.
    - [Math.random()] reads a generator: the number drawn is supplied from
      outside, with the clock, to each turn of the batch loop.
    - An [async] call runs until its first [await]; what is left of it is a
      suspended activation waiting on its timer. *)

From Stdlib Require Import List Bool Arith ZArith NArith QArith Lia.
From Stdlib Require Import String Ascii.
Import ListNotations.
Close Scope Q_scope.

(* ================================================================== *)
(** ** JavaScript strings and the built-ins the engine calls           *)
(* ================================================================== *)

Module JS.

Local Open Scope N_scope.

(** A string value: its UTF-16 code units, in order. *)
Definition str := list N.

(** A string literal of the source (ASCII only). *)
Definition lit (s : string) : str :=
  List.map N_of_ascii (list_ascii_of_string s).

Definition code_eqb (a b : N) : bool := N.eqb a b.

Fixpoint str_eqb (s t : str) : bool :=
  match s, t with
  | [], [] => true
  | a :: s', b :: t' => code_eqb a b && str_eqb s' t'
  | _, _ => false
  end.

(** Truthiness of a string: only the empty string is falsy. *)
Definition truthy (s : str) : bool :=
  match s with [] => false | _ :: _ => true end.

(** [x || ""] on a possibly-undefined array element. *)
Definition or_empty (x : option str) : str :=
  match x with
  | Some s => s
  | None => []
  end.

(** ECMAScript WhiteSpace and LineTerminator code units: what [trim],
    [parseInt] and [Number] skip. *)
Definition is_white_space (c : N) : bool :=
  (c =? 9) || (c =? 10) || (c =? 11) || (c =? 12) || (c =? 13) ||
  (c =? 32) || (c =? 160) || (c =? 5760) ||
  ((8192 <=? c) && (c <=? 8202)) ||
  (c =? 8232) || (c =? 8233) || (c =? 8239) || (c =? 8287) ||
  (c =? 12288) || (c =? 65279).

(** LineTerminator code units: what [.] does not match. *)
Definition is_line_terminator (c : N) : bool :=
  (c =? 10) || (c =? 13) || (c =? 8232) || (c =? 8233).

(** [\d] is [0-9]; [\D] is its complement. *)
Definition is_digit (c : N) : bool := (48 <=? c) && (c <=? 57).

Definition digit_value (c : N) : Z := (Z.of_N c - 48)%Z.

Fixpoint drop_while (p : N -> bool) (s : str) : str :=
  match s with
  | [] => []
  | c :: s' => if p c then drop_while p s' else s
  end.

Fixpoint take_while (p : N -> bool) (s : str) : str :=
  match s with
  | [] => []
  | c :: s' => if p c then c :: take_while p s' else []
  end.

(** [String.prototype.trim]. *)
Definition trim (s : str) : str :=
  rev (drop_while is_white_space (rev (drop_while is_white_space s))).

(** [s.split(sep)] for a one-code-unit separator: never the empty array. *)
Fixpoint split (sep : N) (s : str) : list str :=
  match s with
  | [] => [[]]
  | c :: s' =>
      if code_eqb c sep then [] :: split sep s'
      else match split sep s' with
           | p :: ps => (c :: p) :: ps
           | [] => [[c]]
           end
  end.

(** [s.substring(0, n)]. *)
Definition substring0 (n : nat) (s : str) : str := firstn n s.

(** The mathematical value of a run of decimal digits. *)
Definition decimal_value (ds : str) : Z :=
  fold_left (fun acc c => (10 * acc + digit_value c)%Z) ds 0%Z.

(** [parseInt(s, 10)]: skip leading white space, read an optional sign,
    then the longest run of decimal digits; [NaN] when that run is empty. *)
Definition parseInt (s : str) : option Z :=
  let s1 := drop_while is_white_space s in
  let '(sign, s2) :=
    match s1 with
    | c :: r => if c =? 45 then ((-1)%Z, r)
                else if c =? 43 then (1%Z, r)
                else (1%Z, s1)
    | [] => (1%Z, s1)
    end in
  match take_while is_digit s2 with
  | [] => None
  | ds => Some (sign * decimal_value ds)%Z
  end.

(** [Number(ch)] for a string [ch] of exactly one code unit, the elements
    of [s.split("")]: a digit is its value, a white-space unit is [0],
    anything else is [NaN]. *)
Definition Number_of_unit (c : N) : option Z :=
  if is_digit c then Some (digit_value c)
  else if is_white_space c then Some 0%Z
  else None.

(** [String(n)] for a non-negative integer below 10^21: its decimal
    digits.  From 10^21 on [String] writes an exponent ("1e+21"), which
    this function does not; whoever uses it keeps below. *)
Fixpoint decimal_digits (fuel : nat) (n : N) : str :=
  match fuel with
  | O => []
  | S f =>
      if n <? 10 then [48 + n]
      else decimal_digits f (n / 10) ++ [48 + n mod 10]
  end.

Definition String_of_N (n : N) : str :=
  decimal_digits (S (N.to_nat (N.log2 n))) n.

End JS.

(* ================================================================== *)
(** ** Regular expressions of the card registry                        *)
(* ================================================================== *)

Module Regex.

Import JS.
Local Open Scope N_scope.

(** The fragment the registry's patterns are written in: literals,
    classes, concatenation, alternation, counted repetition and [+] (one
    or more: no more iterations than the input has code units can consume
    input).  None of them captures or refers back, so [test] is plain
    language membership. *)
Inductive regex : Type :=
| Eps : regex
| Chr (c : N) : regex
| Range (lo hi : N) : regex
| OneOf (cs : list N) : regex
| Seq (a b : regex) : regex
| Alt (a b : regex) : regex
| Rep (min max : nat) (a : regex) : regex
| Plus (a : regex) : regex.

(** [count] mandatory then up to [extra] optional iterations of a matcher
    [m]; a matcher maps an input to the suffixes left after each way of
    matching a prefix of it. *)
Fixpoint iterate (m : str -> list str) (count extra : nat) (s : str)
  : list str :=
  match count with
  | S k => flat_map (iterate m k extra) (m s)
  | O =>
      (fix optional (e : nat) (s : str) : list str :=
         match e with
         | O => [s]
         | S e' => s :: flat_map (optional e') (m s)
         end) extra s
  end.

Fixpoint suffixes (r : regex) (s : str) : list str :=
  match r with
  | Eps => [s]
  | Chr c => match s with
             | x :: s' => if code_eqb x c then [s'] else []
             | [] => []
             end
  | Range lo hi => match s with
                   | x :: s' => if (lo <=? x) && (x <=? hi) then [s'] else []
                   | [] => []
                   end
  | OneOf cs => match s with
                | x :: s' => if existsb (code_eqb x) cs then [s'] else []
                | [] => []
                end
  | Seq a b => flat_map (suffixes b) (suffixes a s)
  | Alt a b => suffixes a s ++ suffixes b s
  | Rep lo hi a => iterate (suffixes a) lo (hi - lo) s
  | Plus a => iterate (suffixes a) 1 (List.length s) s
  end.

(** [/^r$/.test(s)]. *)
Definition test (r : regex) (s : str) : bool :=
  existsb (fun rest => negb (truthy rest)) (suffixes r s).

(** Pattern-building shorthands. *)
Definition ch (a : ascii) : regex := Chr (N_of_ascii a).
Definition digit : regex := Range 48 57.
Definition digits (lo hi : nat) : regex := Rep lo hi digit.
Definition between (a b : ascii) : regex := Range (N_of_ascii a) (N_of_ascii b).
Definition one_of (s : string) : regex := OneOf (lit s).
Definition opt (r : regex) : regex := Rep 0 1 r.

Fixpoint word (s : string) : regex :=
  match s with
  | EmptyString => Eps
  | String a EmptyString => ch a
  | String a s' => Seq (ch a) (word s')
  end.

Fixpoint alts (rs : list regex) : regex :=
  match rs with
  | [] => OneOf []
  | [r] => r
  | r :: rs' => Alt r (alts rs')
  end.

Fixpoint seqs (rs : list regex) : regex :=
  match rs with
  | [] => Eps
  | [r] => r
  | r :: rs' => Seq r (seqs rs')
  end.

End Regex.

(* ================================================================== *)
(** ** class CCValidator: the per-record checks                        *)
(* ================================================================== *)

Module CCValidator.

Import JS Regex.
Local Open Scope string_scope.

(** An entry of [cardPatterns], also what [detectCardType] returns: an
    object whose properties may be absent ([None] is [undefined]). *)
Record CardInfo : Type := {
  type : option string;
  pattern : option regex;
  binRanges : option (list (N * N));
  lengths : option (list nat);
  cvvLength : option (list nat);
  name : option string
}.

Definition entry (p : regex) (bins : list (N * N)) (lens cvvs : list nat)
  (nm : string) : CardInfo :=
  {| type := None; pattern := Some p; binRanges := Some bins;
     lengths := Some lens; cvvLength := Some cvvs; name := Some nm |}.

(** [this.cardPatterns], in the order the constructor declares its keys
    (the order [Object.entries] enumerates them in). *)
Definition cardPatterns : list (string * CardInfo) :=
  [ (* /^4[0-9]{12}(?:[0-9]{3})?$/ *)
    ("visa",
     entry (seqs [ch "4"; digits 12 12; opt (digits 3 3)])
           [(4, 4)]%N [13; 16; 19] [3] "Visa");
    (* /^(5[1-5][0-9]{14}|2(2[2-9][0-9]|[3-6][0-9]{2}|7[01][0-9]|720)[0-9]{12})$/ *)
    ("mastercard",
     entry (alts [ seqs [ch "5"; between "1" "5"; digits 14 14];
                   seqs [ch "2";
                         alts [ seqs [ch "2"; between "2" "9"; digit];
                                seqs [between "3" "6"; digits 2 2];
                                seqs [ch "7"; one_of "01"; digit];
                                word "720" ];
                         digits 12 12] ])
           [(51, 55); (2221, 2720)]%N [16] [3] "Mastercard");
    (* /^3[47][0-9]{13}$/ *)
    ("amex",
     entry (seqs [ch "3"; one_of "47"; digits 13 13])
           [(34, 34); (37, 37)]%N [15] [4] "American Express");
    (* /^6(?:011|4[4-9][0-9]|5[0-9]{2})[0-9]{12}$/ *)
    ("discover",
     entry (seqs [ch "6";
                  alts [ word "011";
                         seqs [ch "4"; between "4" "9"; digit];
                         seqs [ch "5"; digits 2 2] ];
                  digits 12 12])
           [(6011, 6011); (644, 649); (65, 65)]%N [16; 17; 18; 19] [3]
           "Discover");
    (* /^3(?:0[0-5]|[68][0-9])[0-9]{11,13}$/ *)
    ("diners",
     entry (seqs [ch "3";
                  alts [ seqs [ch "0"; between "0" "5"];
                         seqs [one_of "68"; digit] ];
                  digits 11 13])
           [(300, 305); (36, 36); (38, 39)]%N [14; 15; 16] [3] "Diners Club");
    (* /^(?:2131|1800|35[0-9]{3})[0-9]{11,13}$/ *)
    ("jcb",
     entry (seqs [alts [ word "2131"; word "1800";
                         seqs [word "35"; digits 3 3] ];
                  digits 11 13])
           [(3528, 3589); (2131, 2131); (1800, 1800)]%N [15; 16; 17; 18; 19]
           [3] "JCB");
    (* /^62[0-9]{14,17}$/ *)
    ("unionpay",
     entry (seqs [word "62"; digits 14 17])
           [(62, 62)]%N [16; 17; 18; 19] [3] "UnionPay");
    (* /^(5018|5020|5038|5893|6304|6759|676[1-3])[0-9]{8,15}$/ *)
    ("maestro",
     entry (seqs [alts [ word "5018"; word "5020"; word "5038"; word "5893";
                         word "6304"; word "6759";
                         seqs [word "676"; between "1" "3"] ];
                  digits 8 15])
           [(5018, 5018); (5020, 5020); (5038, 5038); (6304, 6304);
            (6759, 6759)]%N
           [12; 13; 14; 15; 16; 17; 18; 19] [3] "Maestro") ].

(** The four fields of a record line. *)
Record CardData : Type := {
  number : str;
  month : str;
  year : str;
  cvv : str
}.

Definition extractCardData (cardData : str) : CardData :=
  let parts := List.map trim (split 124 cardData) in
  {| number := or_empty (nth_error parts 0);
     month := or_empty (nth_error parts 1);
     year := or_empty (nth_error parts 2);
     cvv := or_empty (nth_error parts 3) |}.

(** [cardNumber.replace(/\D/g, "")]. *)
Definition cleanCardNumber (cardNumber : str) : str :=
  filter is_digit cardNumber.

Definition validateLength (cardNumber : str) : bool :=
  let length := List.length cardNumber in
  (12 <=? length)%nat && (length <=? 19)%nat.

(** The [for (let i = length - 1; i >= 0; i--)] loop of [luhnCheck];
    [n] is [i + 1], so [n = 0] is the exit. *)
Fixpoint luhn_loop (digits : list (option Z)) (n : nat)
  (sum : option Z) (isSecond : bool) : option Z :=
  match n with
  | O => sum
  | S i =>
      let digit := nth i digits None in
      let digit :=
        if isSecond then
          match digit with
          | Some d => let d2 := (d * 2)%Z in
                      if (9 <? d2)%Z then Some (d2 - 9)%Z else Some d2
          | None => None
          end
        else digit in
      let sum := match sum, digit with
                 | Some a, Some d => Some (a + d)%Z
                 | _, _ => None
                 end in
      luhn_loop digits i sum (negb isSecond)
  end.

Definition luhnCheck (cardNumber : str) : bool :=
  let digits := List.map Number_of_unit cardNumber in
  let length := List.length digits in
  if (length <? 12)%nat || (19 <? length)%nat then false
  else match luhn_loop digits length (Some 0%Z) false with
       | Some sum => (Z.rem sum 10 =? 0)%Z
       | None => false
       end.

Definition unknown : CardInfo :=
  {| type := Some "unknown"; pattern := None; binRanges := None;
     lengths := None; cvvLength := Some [3]; name := Some "Unknown" |}.

(** [{ type, ...info }]. *)
Definition with_type (key : string) (info : CardInfo) : CardInfo :=
  {| type := Some key; pattern := pattern info; binRanges := binRanges info;
     lengths := lengths info; cvvLength := cvvLength info;
     name := name info |}.

Definition pattern_test (info : CardInfo) (cardNumber : str) : bool :=
  match pattern info with
  | Some p => test p cardNumber
  | None => false
  end.

Fixpoint detect_in (entries : list (string * CardInfo)) (cardNumber : str)
  : CardInfo :=
  match entries with
  | [] => unknown
  | (key, info) :: rest =>
      if pattern_test info cardNumber then with_type key info
      else detect_in rest cardNumber
  end.

Definition detectCardType (cardNumber : str) : CardInfo :=
  detect_in cardPatterns cardNumber.

(** The loop of [validateBIN] over the declared pairs.  The bounds are
    taken to be integers of at most 15 digits, as all those of the
    registry are: [String] writes them in plain decimal, and they and
    every prefix as long are integers below 2^53, which a Number holds and
    [parseInt] reads exactly.  Beyond that the source computes on rounded
    values and this loop does not follow it. *)
Fixpoint bin_loop (ranges : list (N * N)) (cardNumber : str) : bool :=
  match ranges with
  | [] => false
  | (start, end_) :: rest =>
      let prefixLength := List.length (String_of_N start) in
      let prefix := parseInt (substring0 prefixLength cardNumber) in
      match prefix with
      | Some p =>
          if (Z.of_N start <=? p)%Z && (p <=? Z.of_N end_)%Z then true
          else bin_loop rest cardNumber
      | None => bin_loop rest cardNumber
      end
  end.

Definition validateBIN (cardNumber : str) (cardInfo : CardInfo) : bool :=
  match binRanges cardInfo with
  | None => true
  | Some ranges => bin_loop ranges cardNumber
  end.

(** What [new Date()] is asked for. *)
Record Clock : Type := {
  getFullYear : Z;
  getMonth : Z
}.

Inductive ExpResult : Type :=
| ExpInvalid (reason : string)
| ExpValid (month year : Z).

Definition validateExpiration (now : Clock) (month year : str) : ExpResult :=
  if negb (truthy month) || negb (truthy year) then
    ExpInvalid "Missing date components"
  else
    match parseInt month with
    | None => ExpInvalid "Invalid month"
    | Some monthNum =>
        if (monthNum <? 1)%Z || (12 <? monthNum)%Z then
          ExpInvalid "Invalid month"
        else
          match parseInt year with
          | None => ExpInvalid "Invalid year format"
          | Some parsedYear =>
              let after_year (fullYear : Z) : ExpResult :=
                let currentYear := getFullYear now in
                let currentMonth := (getMonth now + 1)%Z in
                if (fullYear <? currentYear)%Z then
                  ExpInvalid "Card expired"
                else if (fullYear =? currentYear)%Z
                        && (monthNum <? currentMonth)%Z then
                  ExpInvalid "Card expired"
                else if (currentYear + 10 <? fullYear)%Z then
                  ExpInvalid "Expiration too far in future"
                else ExpValid monthNum fullYear in
              if (List.length year =? 2)%nat then
                after_year (2000 + parsedYear)%Z
              else if negb (List.length year =? 4)%nat then
                ExpInvalid "Year must be 2 or 4 digits"
              else after_year parsedYear
          end
    end.

Definition validateCVV (cvv : str) (cardInfo : CardInfo) : bool :=
  if negb (truthy cvv) then false
  else
    let validLengths := match cvvLength cardInfo with
                        | Some ls => ls
                        | None => [3]
                        end in
    existsb (Nat.eqb (List.length cvv)) validLengths
    && test (Plus digit) cvv.

(** [.]: any code unit but a line terminator. *)
Definition dot (c : N) : bool := negb (is_line_terminator c).

(** [\1{k,}$] after a group that captured the two units [a b]: the
    number of copies of [a b] the rest of the input consists of, if it
    consists of nothing else. *)
Fixpoint backref_copies (a b : N) (s : str) : option nat :=
  match s with
  | [] => Some 0
  | x :: y :: s' =>
      if code_eqb x a && code_eqb y b
      then option_map S (backref_copies a b s')
      else None
  | _ :: [] => None
  end.

(** [/^(.)\1+$/.test(s)]: a first unit, then one or more copies of it
    and nothing else. *)
Definition repeated_unit (s : str) : bool :=
  match s with
  | [] => false
  | c :: rest => dot c && truthy rest && forallb (code_eqb c) rest
  end.

(** [/^(.{2})\1{6,}$/.test(s)]: a first block of two units, then six
    or more copies of it and nothing else. *)
Definition repeated_pair (s : str) : bool :=
  match s with
  | a :: b :: rest =>
      dot a && dot b &&
      match backref_copies a b rest with
      | Some k => (6 <=? k)%nat
      | None => false
      end
  | _ => false
  end.

Definition validateStructure (cardNumber : str) : bool :=
  if repeated_unit cardNumber then false
  else if repeated_pair cardNumber then false
  else true.

(** The object [validateCard] returns; an absent property is [None]. *)
Record Verdict : Type := {
  valid : bool;
  v_type : option string;
  cardName : option string;
  reason : option string;
  expMonth : option Z;
  expYear : option Z
}.

Definition reject (ty nm : option string) (why : string) : Verdict :=
  {| valid := false; v_type := ty; cardName := nm; reason := Some why;
     expMonth := None; expYear := None |}.

Definition string_neqb (a : option string) (b : string) : bool :=
  match a with
  | Some x => negb (String.eqb x b)
  | None => true
  end.

Definition validateCard (now : Clock) (cardData : str) : Verdict :=
  let d := extractCardData cardData in
  if negb (truthy (number d)) then
    reject None None "Missing card number"
  else
    let cleanedNumber := cleanCardNumber (number d) in
    if negb (validateLength cleanedNumber) then
      reject (Some "unknown") None "Invalid card length"
    else
      let cardInfo := detectCardType cleanedNumber in
      let ty := type cardInfo in
      let nm := name cardInfo in
      if negb (validateStructure cleanedNumber) then
        reject ty nm "Invalid card structure"
      else if negb (luhnCheck cleanedNumber) then
        reject ty nm "Failed Luhn check"
      else if string_neqb ty "unknown"
              && negb (validateBIN cleanedNumber cardInfo) then
        reject ty nm "Invalid BIN/IIN"
      else
        match validateExpiration now (month d) (year d) with
        | ExpInvalid why => reject ty nm why
        | ExpValid m y =>
            if negb (validateCVV (cvv d) cardInfo) then
              reject ty nm "Invalid CVV"
            else
              {| valid := true; v_type := ty; cardName := nm;
                 reason := None; expMonth := Some m; expYear := Some y |}
        end.

End CCValidator.

(* ================================================================== *)
(** ** class CCValidator: the batch loop                               *)
(* ================================================================== *)

Module Batch.

Import JS CCValidator.

(** [this.currentBatch]. *)
Record BatchState : Type := {
  total : nat;
  processed : nat;
  valid : nat;
  live : nat;
  dead : nat
}.

Inductive Status : Type := LIVE | DEAD | INVALID.

(** [Math.random() < 0.2 ? "LIVE" : "DEAD"], given the number drawn. *)
Definition simulateStatus (random : Q) : Status :=
  if Qle_bool (2 # 10) random then DEAD else LIVE.

(** What the host supplies to one synchronous turn of the loop: the wall
    clock [new Date()] reads and the number [Math.random()] returns (a
    turn validates at most one record). *)
Record Turn : Type := {
  now : Clock;
  random : Q
}.

(** A call of [processBatch] that is waiting on its timer: the records it
    has not reached yet ([cardsData] from index [i + 1] on) and the
    caller, which stands for the two callbacks and the promise of that
    call. *)
Record Activation : Type := {
  pending : list str;
  caller : nat
}.

(** The instance fields, the timers that have not fired yet (oldest
    first: they all wait [PROCESSING_DELAY_MS]). *)
Record World : Type := {
  isProcessing : bool;
  currentBatch : option BatchState;
  timers : list Activation
}.

(** What the outside observes.  [ResultCall] leaves out the [progress]
    percentage, a floating-point quotient no property here is about.
    The callbacks are observers: they do not call back into the
    validator. *)
Inductive Event : Type :=
| ResultCall (who : nat) (cardData : str) (validation : Verdict)
    (status : Status)
| ProgressCall (who : nat) (stats : BatchState)
| Resolved (who : nat) (value : option BatchState)
| Thrown (who : nat).

Definition constructed : World :=
  {| isProcessing := false; currentBatch := None; timers := [] |}.

Definition incr_processed (b : BatchState) : BatchState :=
  {| total := total b; processed := S (processed b); valid := valid b;
     live := live b; dead := dead b |}.

Definition incr_valid (b : BatchState) : BatchState :=
  {| total := total b; processed := processed b; valid := S (valid b);
     live := live b; dead := dead b |}.

Definition incr_live (b : BatchState) : BatchState :=
  {| total := total b; processed := processed b; valid := valid b;
     live := S (live b); dead := dead b |}.

Definition incr_dead (b : BatchState) : BatchState :=
  {| total := total b; processed := processed b; valid := valid b;
     live := live b; dead := S (dead b) |}.

(** The two statements after the loop. *)
Definition finish (who : nat) (w : World) : World * list Event :=
  ({| isProcessing := false; currentBatch := currentBatch w;
      timers := timers w |},
   [Resolved who (currentBatch w)]).

(** The [for] loop from the test [i < cardsData.length] on, over the
    records not reached yet, until the next [await] or the [return]. *)
Fixpoint loop (t : Turn) (records : list str) (who : nat) (w : World)
  : World * list Event :=
  match records with
  | [] => finish who w
  | line :: rest =>
      if negb (isProcessing w) then finish who w
      else
        match currentBatch w with
        | None => (w, [Thrown who])
        | Some b =>
            let cardData := trim line in
            if negb (truthy cardData) then
              loop t rest who
                   {| isProcessing := isProcessing w;
                      currentBatch := Some (incr_processed b);
                      timers := timers w |}
            else
              let validation := validateCard (now t) cardData in
              let status :=
                if CCValidator.valid validation
                then simulateStatus (random t) else INVALID in
              let b1 :=
                if CCValidator.valid validation then
                  match status with
                  | LIVE => incr_live (incr_valid b)
                  | _ => incr_dead (incr_valid b)
                  end
                else b in
              let b2 := incr_processed b1 in
              let results :=
                match status with
                | INVALID => []
                | _ => [ResultCall who cardData validation status]
                end in
              ({| isProcessing := isProcessing w;
                  currentBatch := Some b2;
                  timers := timers w
                            ++ [{| pending := rest; caller := who |}] |},
               results ++ [ProgressCall who b2])
        end
  end.

Definition processBatch (t : Turn) (cardsData : list str) (who : nat)
  (w : World) : World * list Event :=
  if isProcessing w then (w, [Resolved who None])
  else
    loop t cardsData who
         {| isProcessing := true;
            currentBatch :=
              Some {| total := List.length cardsData; processed := 0;
                      valid := 0; live := 0; dead := 0 |};
            timers := timers w |}.

Definition stopProcessing (w : World) : World :=
  {| isProcessing := false; currentBatch := currentBatch w;
     timers := timers w |}.

(** The oldest timer fires and its activation goes on. *)
Definition resume (t : Turn) (w : World) : World * list Event :=
  match timers w with
  | [] => (w, [])
  | a :: later =>
      loop t (pending a) (caller a)
           {| isProcessing := isProcessing w;
              currentBatch := currentBatch w;
              timers := later |}
  end.

(** What can happen to a validator, one thing at a time. *)
Inductive Action : Type :=
| CallProcessBatch (t : Turn) (cardsData : list str) (who : nat)
| CallStopProcessing
| TimerFires (t : Turn).

Definition step (w : World) (a : Action) : World * list Event :=
  match a with
  | CallProcessBatch t cardsData who => processBatch t cardsData who w
  | CallStopProcessing => (stopProcessing w, [])
  | TimerFires t => resume t w
  end.

Fixpoint run (w : World) (schedule : list Action) : World * list Event :=
  match schedule with
  | [] => (w, [])
  | a :: rest =>
      let '(w1, evs1) := step w a in
      let '(w2, evs2) := run w1 rest in
      (w2, evs1 ++ evs2)
  end.

End Batch.

(* ================================================================== *)
(** ** What the specification says, in its own words                   *)
(* ================================================================== *)

Module Spec.

Import JS CCValidator.
Local Open Scope string_scope.

(** A normalized number: digits only. *)
Definition normalized (s : str) : Prop := forallb is_digit s = true.

(** A doubled digit, 9 subtracted when it exceeds 9. *)
Definition doubled (d : Z) : Z :=
  if (9 <? 2 * d)%Z then (2 * d - 9)%Z else (2 * d)%Z.

(** The digits are listed from the rightmost one; [k] digits lie to the
    right of the head.  Every second digit, starting from the
    second-from-rightmost, is doubled. *)
Fixpoint weighted_sum (from_right : list Z) (k : nat) : Z :=
  match from_right with
  | [] => 0%Z
  | d :: more =>
      ((if Nat.odd k then doubled d else d) + weighted_sum more (S k))%Z
  end.

Definition luhn_sum (cardNumber : str) : Z :=
  weighted_sum (rev (List.map digit_value cardNumber)) 0.

(** A two-character block [a b] laid [n] times end to end. *)
Definition tiling (a b : N) (n : nat) : str := List.concat (repeat [a; b] n).

(** [w] is the decimal digit-width of [n]: the number of digits [n] is
    written with (one digit for zero). *)
Definition decimal_width (n : N) (w : nat) : Prop :=
  (1 <= w)%nat /\ (n < 10 ^ N.of_nat w)%N
  /\ (w = 1%nat \/ (10 ^ N.of_nat (w - 1) <= n)%N).

(** The prefix of [cardNumber] that is [w] digits long, when there is
    one, read as an integer. *)
Definition prefix_value (w : nat) (cardNumber : str) : option Z :=
  if (w <=? List.length cardNumber)%nat
  then Some (decimal_value (firstn w cardNumber))
  else None.

(** The current calendar year and month, as the clock gives them
    ([getMonth] counts from zero). *)
Definition current_year (now : Clock) : Z := getFullYear now.
Definition current_month (now : Clock) : Z := (getMonth now + 1)%Z.

(** November 2026. *)
Definition november_2026 : Clock := {| getFullYear := 2026; getMonth := 10 |}.

(** The year a year string stands for, given the integer it parses to:
    a 2-long string is read as 2000 + value. *)
Definition full_year (year : str) (value : Z) : Z :=
  if (List.length year =? 2)%nat then (2000 + value)%Z else value.


(** The detected network is the "unknown" one. *)
Definition is_unknown (info : CardInfo) : bool :=
  match type info with
  | Some key => String.eqb key "unknown"
  | None => false
  end.

(** The number normalized, in the words of the spec: every character
    that is not a decimal digit removed, the digits kept in their order. *)
Fixpoint digits_of (s : str) : str :=
  match s with
  | [] => []
  | c :: more => if is_digit c then c :: digits_of more else digits_of more
  end.

(** A length from 12 to 19. *)
Definition length_12_to_19 (s : str) : bool :=
  (12 <=? List.length s)%nat && (List.length s <=? 19)%nat.

(** The checks of the orchestrator in the order the spec lists them, each
    with whether it passes and the reason it reports when it does not.
    Check (2) is on the length of the number normalized, both as the
    spec words them.  Detection, step (3), cannot fail and has no
    entry. *)
Definition ordered_checks (now : Clock) (line : str) : list (bool * string) :=
  let d := extractCardData line in
  let n := digits_of (number d) in
  let info := detectCardType n in
  [ (truthy (number d), "Missing card number");
    (length_12_to_19 n, "Invalid card length");
    (validateStructure n, "Invalid card structure");
    (luhnCheck n, "Failed Luhn check");
    (is_unknown info || validateBIN n info, "Invalid BIN/IIN");
    match validateExpiration now (month d) (year d) with
    | ExpInvalid why => (false, why)
    | ExpValid _ _ => (true, "")
    end;
    (validateCVV (cvv d) info, "Invalid CVV") ].

(** The reason of the first check that does not pass, if any. *)
Definition first_failure (checks : list (bool * string)) : option string :=
  option_map snd (find (fun c => negb (fst c)) checks).

(** Every rejection reason the engine words. *)
Definition rejection_reasons : list string :=
  [ "Missing card number"; "Invalid card length"; "Invalid card structure";
    "Failed Luhn check"; "Invalid BIN/IIN"; "Missing date components";
    "Invalid month"; "Invalid year format"; "Year must be 2 or 4 digits";
    "Card expired"; "Expiration too far in future"; "Invalid CVV" ].

(** A verdict that got as far as comparing the card's date with today's:
    one of the two date rejections, or what can only follow the date
    comparison, the CVV rejection and the pass. *)
Definition clock_decided (v : Verdict) : Prop :=
  CCValidator.valid v = true
  \/ reason v = Some "Card expired"
  \/ reason v = Some "Expiration too far in future"
  \/ reason v = Some "Invalid CVV".

(** Declared pairs whose bounds have at most 15 digits: with every
    prefix as long they are integers a Number holds exactly. *)
Definition exact_bounds (ranges : list (N * N)) : Prop :=
  Forall (fun r => (fst r < 10 ^ 15)%N /\ (snd r < 10 ^ 15)%N) ranges.

(** What one turn of the BIN loop compares, in the words of the spec. *)
Definition pair_matches (cardNumber : str) (low high : N) : Prop :=
  exists w p, decimal_width low w
              /\ prefix_value w cardNumber = Some p
              /\ (Z.of_N low <= p <= Z.of_N high)%Z.

(** A line that is neither blank nor white space only. *)
Definition non_blank (line : str) : Prop := trim line <> [].

(** The snapshots one caller's progress callback received, in order. *)
Fixpoint progress_of (who : nat) (events : list Batch.Event)
  : list Batch.BatchState :=
  match events with
  | [] => []
  | Batch.ProgressCall w b :: more =>
      if Nat.eqb w who then b :: progress_of who more
      else progress_of who more
  | _ :: more => progress_of who more
  end.

(** The values one caller's promise resolved with. *)
Fixpoint resolved_of (who : nat) (events : list Batch.Event)
  : list (option Batch.BatchState) :=
  match events with
  | [] => []
  | Batch.Resolved w v :: more =>
      if Nat.eqb w who then v :: resolved_of who more
      else resolved_of who more
  | _ :: more => resolved_of who more
  end.

(** The relations between the counters of a batch. *)
Definition counters_ok (b : Batch.BatchState) : Prop :=
  (Batch.live b + Batch.dead b = Batch.valid b)%nat
  /\ (Batch.valid b <= Batch.processed b)%nat
  /\ (Batch.processed b <= Batch.total b)%nat.

(** A validator in the middle of a batch of its own: one activation
    waits, nothing else does. *)
Definition running (who : nat) (b : Batch.BatchState) (rest : list str)
  : Batch.World :=
  {| Batch.isProcessing := true; Batch.currentBatch := Some b;
     Batch.timers := [{| Batch.pending := rest; Batch.caller := who |}] |}.

(** A validator at rest. *)
Definition idle (b : option Batch.BatchState) : Batch.World :=
  {| Batch.isProcessing := false; Batch.currentBatch := b;
     Batch.timers := [] |}.

(** The two relations no interleaving disturbs. *)
Definition counters_tally (b : Batch.BatchState) : Prop :=
  (Batch.live b + Batch.dead b = Batch.valid b)%nat
  /\ (Batch.valid b <= Batch.processed b)%nat.

(** The batch state of a validator, if it has one, tallies. *)
Definition tally_kept (w : Batch.World) : Prop :=
  forall b, Batch.currentBatch w = Some b -> counters_tally b.

(** A validator with at most one call waiting, its batch within bounds
    even counting what that call has still to go through. *)
Definition one_batch (w : Batch.World) : Prop :=
  exists b, Batch.currentBatch w = Some b
            /\ counters_tally b
            /\ ((Batch.timers w = []
                 /\ (Batch.processed b <= Batch.total b)%nat)
                \/ (exists who rest,
                      Batch.timers w
                      = [{| Batch.pending := rest; Batch.caller := who |}]
                      /\ (Batch.processed b + List.length rest
                          <= Batch.total b)%nat)).

(** The batch state an event hands to the outside, if it hands one. *)
Definition snapshot (e : Batch.Event) : option Batch.BatchState :=
  match e with
  | Batch.ProgressCall _ b => Some b
  | Batch.Resolved _ v => v
  | _ => None
  end.

(** An action that starts no batch. *)
Definition starts_nothing (a : Batch.Action) : Prop :=
  match a with
  | Batch.CallProcessBatch _ _ _ => False
  | _ => True
  end.

(** A moment of November 2026 with a draw of one half. *)
Definition a_turn : Batch.Turn :=
  {| Batch.now := november_2026; Batch.random := (1 # 2)%Q |}.

Definition a_good_line : str := lit "4111111111111111|12|2030|123".

(** A batch of three is stopped after its first record and a batch of
    one is started before the timer of the first fires. *)
Definition stop_then_restart : list Batch.Action :=
  [ Batch.CallProcessBatch a_turn [a_good_line; a_good_line; a_good_line] 1;
    Batch.CallStopProcessing;
    Batch.CallProcessBatch a_turn [a_good_line] 2;
    Batch.TimerFires a_turn;
    Batch.TimerFires a_turn;
    Batch.TimerFires a_turn ].

(** A batch of two is stopped after its first record and a batch of
    four is started before the timer of the first fires; the four timers
    that follow let both calls return.  Nobody stops the second batch. *)
Definition stop_then_batch_of_four : list Batch.Action :=
  [ Batch.CallProcessBatch a_turn [a_good_line; a_good_line] 1;
    Batch.CallStopProcessing;
    Batch.CallProcessBatch a_turn
      [a_good_line; a_good_line; a_good_line; a_good_line] 2;
    Batch.TimerFires a_turn;
    Batch.TimerFires a_turn;
    Batch.TimerFires a_turn;
    Batch.TimerFires a_turn ].

End Spec.

Import JS Regex CCValidator Spec.

(* ================================================================== *)
(** ** Notions the further properties are stated with                  *)
(* ================================================================== *)

Module Facts.

Import JS Regex CCValidator.

(** [parts.join(sep)] for a one-code-unit separator. *)
Fixpoint join (sep : N) (parts : list str) : str :=
  match parts with
  | [] => []
  | [p] => p
  | p :: more => (p ++ sep :: join sep more)%list
  end.

(** A string with no white space at either end. *)
Definition trimmed (s : str) : Prop := trim s = s.

(** A string without the field separator [|]. *)
Definition pipe_free (s : str) : Prop := ~ In 124%N s.

(** A field as a record line can carry it. *)
Definition field (s : str) : Prop := trimmed s /\ pipe_free s.

(** The weight a digit enters the Luhn sum with when [k] digits lie to
    its right. *)
Definition luhn_weight (k : nat) (d : Z) : Z :=
  if Nat.odd k then Spec.doubled d else d.

(** The digit that completes a payload to a number with a Luhn sum
    divisible by 10. *)
Definition check_digit (payload : str) : N :=
  (48 + Z.to_N ((10 - Spec.luhn_sum (payload ++ [48]) mod 10) mod 10))%N.

(** The places (counted from [k + 1]) of the lines that are not blank. *)
Fixpoint positions_from (k : nat) (lines : list str) : list nat :=
  match lines with
  | [] => []
  | line :: more =>
      if truthy (trim line) then S k :: positions_from (S k) more
      else positions_from (S k) more
  end.

(** The statuses one caller's result callback received, in order. *)
Fixpoint statuses_of (who : nat) (events : list Batch.Event)
  : list Batch.Status :=
  match events with
  | [] => []
  | Batch.ResultCall w _ _ st :: more =>
      if Nat.eqb w who then st :: statuses_of who more
      else statuses_of who more
  | _ :: more => statuses_of who more
  end.

Definition is_live (st : Batch.Status) : bool :=
  match st with Batch.LIVE => true | _ => false end.

Definition is_dead (st : Batch.Status) : bool :=
  match st with Batch.DEAD => true | _ => false end.

(** An event that is no result call, or a result call to [who] about a
    line of [lines]: the line trimmed, its verdict, valid, under the clock
    of some turn, and the status drawn in that turn. *)
Definition result_about (lines : list str) (who : nat) (e : Batch.Event)
  : Prop :=
  match e with
  | Batch.ResultCall w cardData validation status =>
      w = who
      /\ CCValidator.valid validation = true
      /\ status <> Batch.INVALID
      /\ exists t line,
           In line lines /\ cardData = trim line
           /\ validation = validateCard (Batch.now t) cardData
           /\ status = Batch.simulateStatus (Batch.random t)
  | _ => True
  end.

(** A validator with at most one call waiting, that call being [who]'s
    and having only lines of [lines] left to go through. *)
Definition one_call_of (lines : list str) (who : nat) (w : Batch.World)
  : Prop :=
  Batch.timers w = []
  \/ exists rest,
       Batch.timers w = [{| Batch.pending := rest; Batch.caller := who |}]
       /\ incl rest lines.

(** The month [m] of the year [y] is not over on the clock [now]. *)
Definition not_over (now : Clock) (m y : Z) : Prop :=
  (Spec.current_year now < y
   \/ (Spec.current_year now = y /\ Spec.current_month now <= m))%Z.

End Facts.

(* ================================================================== *)
(** ** The page: what it hands to the validator                        *)
(* ================================================================== *)

Module UI.

Import JS.

(** The array [handleValidation] passes to [processBatch]:
    [value.split("\n").filter(line => line.trim())]. *)
Definition cardsData_of (value : str) : list str :=
  filter (fun line => truthy (trim line)) (split 10 value).

(** The year [createResultCard] shows:
    [year.length === 2 ? `20${year}` : year]. *)
Definition displayYear (year : str) : str :=
  if (List.length year =? 2)%nat then lit "20" ++ year else year.

End UI.

Import Facts.

(* ================================================================== *)
(** ** Two analyses of a pattern                                       *)
(* ================================================================== *)

Module Analysis.

Import JS Regex CCValidator.

Definition sums (l1 l2 : list nat) : list nat :=
  flat_map (fun x => List.map (Nat.add x) l2) l1.

(** The lengths [count] mandatory then up to [extra] optional iterations
    can consume, given those one iteration can. *)
Fixpoint iter_lengths (la : list nat) (count extra : nat) : list nat :=
  match count with
  | S k => sums la (iter_lengths la k extra)
  | O =>
      (fix optional (e : nat) : list nat :=
         match e with
         | O => [0]
         | S e' => 0 :: sums la (optional e')
         end) extra
  end.

(** The numbers of code units a match of the pattern can consume ([+],
    which has no bound, is left out: see [bounded_digits]). *)
Fixpoint consumes (r : regex) : list nat :=
  match r with
  | Eps => [0]
  | Chr _ | Range _ _ | OneOf _ => [1]
  | Seq a b => sums (consumes a) (consumes b)
  | Alt a b => consumes a ++ consumes b
  | Rep lo hi a => iter_lengths (consumes a) lo (hi - lo)
  | Plus _ => []
  end.

(** The pattern is written with digits and digit classes only, and
    without [+]. *)
Fixpoint bounded_digits (r : regex) : bool :=
  match r with
  | Eps => true
  | Chr c => is_digit c
  | Range lo hi => is_digit lo && is_digit hi
  | OneOf cs => forallb is_digit cs
  | Seq a b | Alt a b => bounded_digits a && bounded_digits b
  | Rep _ _ a => bounded_digits a
  | Plus _ => false
  end.

(** The code units from [lo] to [hi]. *)
Definition units (lo hi : N) : list N :=
  List.map N.of_nat (seq (N.to_nat lo) (S (N.to_nat hi) - N.to_nat lo)).

(** A way a match can begin, cut at [k] code units: the units, and
    whether the match goes on past them. *)
Definition start : Type := (str * bool)%type.

Definition one (k : nat) (c : N) : start :=
  match k with
  | O => ([], true)
  | S _ => ([c], false)
  end.

(** Starts of a first part, each continued by the starts of what
    follows unless it is cut already. *)
Definition extend (k : nat) (ps : list start) (next : nat -> list start)
  : list start :=
  flat_map (fun p : start =>
              if snd p then [(fst p, true)]
              else List.map (fun q : start => (fst p ++ fst q, snd q))
                            (next (k - List.length (fst p))))
           ps.

Fixpoint iter_starts (pa : nat -> list start) (count extra k : nat)
  : list start :=
  match count with
  | S c => extend k (pa k) (iter_starts pa c extra)
  | O =>
      (fix optional (e k : nat) : list start :=
         match e with
         | O => [([], false)]
         | S e' => ([], false) :: extend k (pa k) (optional e')
         end) extra k
  end.

(** The ways a match of the pattern can begin, cut at [k] code units
    (again [+] is left out). *)
Fixpoint starts (r : regex) (k : nat) : list start :=
  match r with
  | Eps => [([], false)]
  | Chr c => [one k c]
  | Range lo hi => List.map (one k) (units lo hi)
  | OneOf cs => List.map (one k) cs
  | Seq a b => extend k (starts a k) (starts b)
  | Alt a b => starts a k ++ starts b k
  | Rep lo hi a => iter_starts (starts a) lo (hi - lo) k
  | Plus _ => []
  end.

Fixpoint plus_free (r : regex) : bool :=
  match r with
  | Seq a b | Alt a b => plus_free a && plus_free b
  | Rep _ _ a => plus_free a
  | Plus _ => false
  | _ => true
  end.

(** What a matcher consumes, as the analysis predicts it. *)
Definition consumes_within (m : str -> list str) (lens : list nat) : Prop :=
  forall s s', In s' (m s) ->
  exists pre, s = pre ++ s' /\ forallb is_digit pre = true
              /\ In (List.length pre) lens.

Definition begins_within (m : str -> list str) (pa : nat -> list start)
  : Prop :=
  forall k s s', In s' (m s) ->
  exists pre, s = pre ++ s'
              /\ In (firstn k pre, (k <? List.length pre)%nat) (pa k).

(** An entry whose pattern is made of digits and can only consume one
    of the lengths the entry declares. *)
Definition lengths_agree (info : CardInfo) : bool :=
  match pattern info, lengths info with
  | Some p, Some lens =>
      bounded_digits p
      && forallb (fun k => existsb (Nat.eqb k) lens) (consumes p)
  | _, _ => false
  end.

(** The starts of the entry's pattern, cut at [k]. *)
Definition entry_starts (info : CardInfo) (k : nat) : list start :=
  match pattern info with
  | Some p => if plus_free p then starts p k else []
  | None => []
  end.

Definition has_pattern (info : CardInfo) : bool :=
  match pattern info with
  | Some p => plus_free p
  | None => false
  end.

(** No start of the one entry, cut at two units, is a start of the
    other. *)
Definition apart (i1 i2 : CardInfo) : bool :=
  forallb (fun p1 : start =>
             forallb (fun p2 : start => negb (str_eqb (fst p1) (fst p2)))
                     (entry_starts i2 2))
          (entry_starts i1 2).

(** Any two entries with different keys are apart. *)
Definition all_apart (entries : list (string * CardInfo)) : bool :=
  forallb (fun e1 =>
             forallb (fun e2 =>
                        String.eqb (fst e1) (fst e2)
                        || apart (snd e1) (snd e2))
                     entries)
          entries.

(** Every start of the entry's pattern, cut at four units, goes on past
    them and passes the entry's BIN ranges, none of which is wider than
    four digits. *)
Definition bins_cover (info : CardInfo) : bool :=
  match binRanges info with
  | Some ranges =>
      has_pattern info
      && forallb (fun r => (List.length (String_of_N (fst r)) <=? 4)%nat)
                 ranges
      && forallb (fun p : start => snd p && bin_loop ranges (fst p))
                 (entry_starts info 4)
  | None => true
  end.

(** The four-digit beginnings the registry detects but has no BIN range
    for: 2220 (Mastercard), 3500 to 3527 and 3590 to 3599 (JCB), 5893 and
    6761 to 6763 (Maestro). *)
Definition without_range (first_four : str) : bool :=
  let v := decimal_value first_four in
  ((v =? 2220) || ((3500 <=? v) && (v <=? 3527))
   || ((3590 <=? v) && (v <=? 3599)) || (v =? 5893)
   || ((6761 <=? v) && (v <=? 6763)))%Z.

(** Every start of the entry's pattern, cut at four units, goes on past
    them and fails the entry's BIN ranges exactly when it is one of the
    beginnings [without_range]. *)
Definition bins_miss_exactly (info : CardInfo) : bool :=
  match binRanges info with
  | Some ranges =>
      has_pattern info
      && forallb (fun r => (List.length (String_of_N (fst r)) <=? 4)%nat)
                 ranges
      && forallb (fun p : start =>
                    snd p
                    && Bool.eqb (negb (bin_loop ranges (fst p)))
                                (without_range (fst p)))
                 (entry_starts info 4)
  | None => false
  end.

End Analysis.

Import Analysis.

(* ================================================================== *)
(** ** The engine on the records of the specification                  *)
(* ================================================================== *)

Section Examples.

Local Open Scope string_scope.

Example validate_visa :
  validateCard november_2026 (lit "4111111111111111|12|2030|123")
  = {| CCValidator.valid := true; v_type := Some "visa";
       cardName := Some "Visa"; reason := None;
       expMonth := Some 12%Z; expYear := Some 2030%Z |}.
Proof. reflexivity. Qed.

Example validate_past_year :
  validateCard november_2026 (lit "4111111111111111|01|2020|123")
  = reject (Some "visa") (Some "Visa") "Card expired".
Proof. reflexivity. Qed.

Example validate_spaced_fields :
  validateCard november_2026 (lit " 4111 1111 1111 1111 | 1 | 30 |123")
  = {| CCValidator.valid := true; v_type := Some "visa";
       cardName := Some "Visa"; reason := None;
       expMonth := Some 1%Z; expYear := Some 2030%Z |}.
Proof. reflexivity. Qed.

Example validate_empty_line :
  validateCard november_2026 (lit "")
  = reject None None "Missing card number".
Proof. reflexivity. Qed.

Example detect_each_network :
  List.map (fun s => type (detectCardType (lit s)))
    [ "4111111111111111"; "5105105105105100"; "378282246310005";
      "6011111111111117"; "30569309025904"; "3530111333300000";
      "6200000000000005"; "5018000000000009"; "9999999999999995" ]
  = List.map Some
      [ "visa"; "mastercard"; "amex"; "discover"; "diners"; "jcb";
        "unionpay"; "maestro"; "unknown" ].
Proof. reflexivity. Qed.

Example cleanCardNumber_idempotent (s : str) :
  cleanCardNumber (cleanCardNumber s) = cleanCardNumber s.
Proof.
  unfold cleanCardNumber. induction s as [|c s IH]; [reflexivity|].
  simpl. destruct (is_digit c) eqn:E; [|exact IH].
  simpl. rewrite E, IH. reflexivity.
Qed.

End Examples.

(* ================================================================== *)
(** ** Luhn checksum                                                   *)
(* ================================================================== *)

Section Luhn.

Lemma weighted_sum_parity (l : list Z) (k : nat) :
  weighted_sum l (S (S k)) = weighted_sum l k.
Proof.
  revert k; induction l as [|d l IH]; intros k; simpl; [reflexivity|].
  rewrite IH. rewrite Nat.odd_succ, Nat.even_succ. reflexivity.
Qed.

Lemma Number_of_digit (c : N) :
  is_digit c = true -> Number_of_unit c = Some (digit_value c).
Proof. intros H; unfold Number_of_unit; rewrite H; reflexivity. Qed.

Lemma nth_Number_of_unit (s : str) (i : nat) :
  normalized s -> (i < List.length s)%nat ->
  nth i (List.map Number_of_unit s) None
  = Some (nth i (List.map digit_value s) 0%Z).
Proof.
  unfold normalized; revert i; induction s as [|c s IH]; intros i Hd Hi;
    simpl in *; [lia|].
  apply andb_true_iff in Hd as [Hc Hs].
  destruct i as [|i]; [now apply Number_of_digit|].
  apply IH; [assumption|lia].
Qed.

Lemma rev_firstn_succ (l : list Z) (i : nat) :
  (i < List.length l)%nat ->
  rev (firstn (S i) l) = nth i l 0%Z :: rev (firstn i l).
Proof.
  revert i; induction l as [|x l IH]; intros i Hi; simpl in Hi; [lia|].
  destruct i as [|i]; [reflexivity|].
  change (firstn (S (S i)) (x :: l)) with (x :: firstn (S i) l).
  change (firstn (S i) (x :: l)) with (x :: firstn i l).
  cbn [rev nth]. rewrite IH by lia. reflexivity.
Qed.

(** The loop with its [isSecond] flag computes the positional sum. *)
Lemma luhn_loop_weighted (s : str) (n : nat) (acc : Z) (isSecond : bool) :
  normalized s -> (n <= List.length s)%nat ->
  luhn_loop (List.map Number_of_unit s) n (Some acc) isSecond
  = Some (acc + weighted_sum (rev (firstn n (List.map digit_value s)))
                             (if isSecond then 1 else 0))%Z.
Proof.
  intros Hs. revert acc isSecond.
  induction n as [|i IH]; intros acc isSecond Hn.
  - simpl. f_equal. lia.
  - cbn [luhn_loop]. rewrite (nth_Number_of_unit s i Hs) by lia.
    rewrite rev_firstn_succ by (rewrite length_map; lia).
    set (d := nth i (List.map digit_value s) 0%Z).
    destruct isSecond; cbn [negb weighted_sum Nat.odd Nat.even].
    + replace (if (9 <? d * 2)%Z then Some (d * 2 - 9)%Z else Some (d * 2)%Z)
        with (Some (doubled d))
        by (unfold doubled; rewrite (Z.mul_comm 2 d);
            destruct (9 <? d * 2)%Z; reflexivity).
      rewrite IH by lia. cbn [negb]. rewrite weighted_sum_parity.
      f_equal. cbn. lia.
    + rewrite IH by lia. f_equal. cbn. lia.
Qed.

(** C2. On a digit-only string of 12 to 19 digits [luhnCheck] answers
    [true] exactly when the right-to-left weighted digit sum (every second
    digit from the second-from-rightmost doubled, 9 subtracted from a
    doubled digit above 9) is divisible by 10; on any string shorter than
    12 or longer than 19 it answers [false]; and it accepts
    4539148803436467. *)
Theorem luhnCheck_weighted_sum (cardNumber : str) :
  (normalized cardNumber ->
   (12 <= List.length cardNumber <= 19)%nat ->
   (luhnCheck cardNumber = true <-> (10 | luhn_sum cardNumber)%Z))
  /\ ((List.length cardNumber < 12 \/ 19 < List.length cardNumber)%nat ->
      luhnCheck cardNumber = false)
  /\ luhnCheck (lit "4539148803436467") = true.
Proof.
  split; [|split]; [| |vm_compute; reflexivity].
  - intros Hs Hlen. unfold luhnCheck, luhn_sum.
    rewrite length_map.
    replace ((List.length cardNumber <? 12)%nat
             || (19 <? List.length cardNumber)%nat) with false.
    2:{ symmetry. apply orb_false_iff; split; apply Nat.ltb_ge; lia. }
    rewrite luhn_loop_weighted by (auto; lia).
    rewrite <- (length_map digit_value), firstn_all. cbn [Z.add].
    rewrite Z.eqb_eq. apply Z.rem_divide. discriminate.
  - intros Hlen. unfold luhnCheck. rewrite length_map.
    replace ((List.length cardNumber <? 12)%nat
             || (19 <? List.length cardNumber)%nat) with true; [reflexivity|].
    symmetry. apply orb_true_iff.
    destruct Hlen; [left|right]; apply Nat.ltb_lt; lia.
Qed.

Lemma luhnCheck_weighted_sum_witness :
  normalized (lit "4539148803436467")
  /\ (12 <= List.length (lit "4539148803436467") <= 19)%nat
  /\ (luhnCheck (lit "4539148803436467") = true
      <-> (10 | luhn_sum (lit "4539148803436467"))%Z).
Proof.
  assert (Hn : normalized (lit "4539148803436467")) by reflexivity.
  assert (Hl : (12 <= List.length (lit "4539148803436467") <= 19)%nat)
    by (vm_compute; split; repeat constructor).
  split; [exact Hn|]. split; [exact Hl|].
  exact (proj1 (luhnCheck_weighted_sum (lit "4539148803436467")) Hn Hl).
Defined.

End Luhn.

(* ================================================================== *)
(** ** Structural plausibility                                         *)
(* ================================================================== *)

Section Structure.

Lemma digit_is_dot (c : N) : is_digit c = true -> dot c = true.
Proof.
  unfold is_digit, dot, is_line_terminator. intros H.
  apply andb_true_iff in H as [Hlo Hhi].
  apply N.leb_le in Hlo, Hhi.
  apply negb_true_iff. repeat (apply orb_false_iff; split);
    apply N.eqb_neq; lia.
Qed.

Lemma forallb_code_eqb_repeat (c : N) (l : str) :
  forallb (code_eqb c) l = true <-> l = repeat c (List.length l).
Proof.
  induction l as [|x l IH]; simpl; [tauto|].
  rewrite andb_true_iff, IH. unfold code_eqb. rewrite N.eqb_eq. split.
  - intros [-> <-]. reflexivity.
  - intros H. injection H as Hx Hl. split; [symmetry|]; assumption.
Qed.

Lemma repeated_unit_spec (s : str) :
  normalized s ->
  repeated_unit s = true <-> exists d n, (2 <= n)%nat /\ s = repeat d n.
Proof.
  intros Hs. destruct s as [|c rest]; simpl.
  - split; [discriminate|]. intros (d & n & Hn & H).
    destruct n; [lia|discriminate].
  - unfold normalized in Hs; simpl in Hs.
    apply andb_true_iff in Hs as [Hc _].
    rewrite (digit_is_dot c Hc). cbn [andb].
    rewrite andb_true_iff, forallb_code_eqb_repeat. split.
    + intros [Ht Hr]. exists c, (S (List.length rest)). split.
      * destruct rest; [discriminate|simpl; lia].
      * simpl. f_equal. assumption.
    + intros (d & n & Hn & H). destruct n as [|n]; [lia|].
      simpl in H. injection H as -> ->. rewrite repeat_length.
      split; [|reflexivity]. destruct n; [lia|reflexivity].
Qed.

Lemma backref_copies_tiling (a b : N) (k : nat) (s : str) :
  backref_copies a b s = Some k <-> s = tiling a b k.
Proof.
  unfold tiling. revert s; induction k as [|k IH]; intros s.
  - destruct s as [|x [|y s]]; simpl; try (split; [reflexivity|reflexivity]);
      try (split; discriminate).
    destruct (code_eqb x a && code_eqb y b); [|split; discriminate].
    destruct (backref_copies a b s); split; discriminate.
  - destruct s as [|x [|y s]]; simpl; try (split; discriminate).
    unfold code_eqb.
    destruct (N.eqb_spec x a) as [->|Hx]; cbn [andb].
    2:{ split; [discriminate|]. intros H; injection H as H _. contradiction. }
    destruct (N.eqb_spec y b) as [->|Hy].
    2:{ split; [discriminate|]. intros H; injection H as H _. contradiction. }
    specialize (IH s). destruct (backref_copies a b s) as [j|]; simpl.
    + split.
      * intros H; injection H as <-. f_equal. f_equal. now apply IH.
      * intros H; injection H as H. f_equal. f_equal.
        apply IH in H. now injection H.
    + split; [discriminate|]. intros H; injection H as H.
      apply IH in H. discriminate.
Qed.

Lemma repeated_pair_spec (s : str) :
  normalized s ->
  repeated_pair s = true <-> exists a b n, (7 <= n)%nat /\ s = tiling a b n.
Proof.
  intros Hs. destruct s as [|a [|b rest]].
  - simpl. split; [discriminate|]. intros (a & b & n & Hn & H).
    destruct n; [lia|discriminate].
  - simpl. split; [discriminate|]. intros (a' & b & n & Hn & H).
    destruct n; [lia|discriminate].
  - unfold normalized in Hs; simpl in Hs.
    apply andb_true_iff in Hs as [Ha Hs].
    apply andb_true_iff in Hs as [Hb _].
    cbn [repeated_pair]. rewrite (digit_is_dot a Ha), (digit_is_dot b Hb).
    cbn [andb]. split.
    + destruct (backref_copies a b rest) as [k|] eqn:E; [|discriminate].
      intros Hk. apply Nat.leb_le in Hk. exists a, b, (S k). split; [lia|].
      apply backref_copies_tiling in E. rewrite E. reflexivity.
    + intros (a' & b' & n & Hn & H). destruct n as [|n]; [lia|].
      unfold tiling in H. simpl in H. injection H as -> -> H.
      apply (backref_copies_tiling a' b' n) in H. rewrite H.
      apply Nat.leb_le. lia.
Qed.

(** C3, the claim as stated fails: a one-digit string is one digit
    repeated (once), and [validateStructure] accepts it. *)
Lemma validateStructure_accepts_single_digit :
  normalized (lit "5")
  /\ validateStructure (lit "5") = true
  /\ ~ (validateStructure (lit "5") = false <->
        (exists d n, (1 <= n)%nat /\ lit "5" = repeat d n)
        \/ (exists a b n, (7 <= n)%nat /\ lit "5" = tiling a b n)).
Proof.
  split; [reflexivity|]. split; [reflexivity|].
  intros [_ H]. assert (F : validateStructure (lit "5") = false).
  { apply H. left. exists 53%N, 1%nat. split; [lia|reflexivity]. }
  discriminate F.
Qed.

(** C3, amended. On a digit-only string [validateStructure] answers
    [false] exactly when the whole string is one digit repeated two or
    more times, or one two-character block repeated seven or more times
    with no remainder; 1111111111111111 is rejected, and validating it
    reports "Invalid card structure" although its Luhn check fails too. *)
Theorem validateStructure_rejects_repetition (cardNumber : str) :
  (normalized cardNumber ->
   (validateStructure cardNumber = false <->
    (exists d n, (2 <= n)%nat /\ cardNumber = repeat d n)
    \/ (exists a b n, (7 <= n)%nat /\ cardNumber = tiling a b n)))
  /\ validateStructure (lit "1111111111111111") = false
  /\ luhnCheck (lit "1111111111111111") = false
  /\ (forall now,
        reason (validateCard now (lit "1111111111111111|12|2030|123"))
        = Some "Invalid card structure"%string).
Proof.
  split; [|repeat split; vm_compute; reflexivity].
  intros Hs. unfold validateStructure.
  rewrite <- (repeated_unit_spec cardNumber Hs).
  rewrite <- (repeated_pair_spec cardNumber Hs).
  destruct (repeated_unit cardNumber); [intuition|].
  destruct (repeated_pair cardNumber); intuition discriminate.
Qed.

Lemma validateStructure_rejects_repetition_witness :
  normalized (lit "12121212121212")
  /\ (validateStructure (lit "12121212121212") = false <->
      (exists d n, (2 <= n)%nat /\ lit "12121212121212" = repeat d n)
      \/ (exists a b n, (7 <= n)%nat /\ lit "12121212121212" = tiling a b n)).
Proof.
  assert (Hn : normalized (lit "12121212121212")) by reflexivity.
  split; [exact Hn|].
  exact (proj1 (validateStructure_rejects_repetition
                  (lit "12121212121212")) Hn).
Defined.

End Structure.

(* ================================================================== *)
(** ** BIN ranges                                                      *)
(* ================================================================== *)

Section BIN.

Lemma decimal_digits_width (fuel : nat) (n : N) :
  (1 <= fuel)%nat -> (n < 2 ^ N.of_nat fuel)%N ->
  decimal_width n (List.length (decimal_digits fuel n)).
Proof.
  revert n; induction fuel as [|f IH]; intros n Hf Hn; [lia|].
  cbn [decimal_digits]. destruct (N.ltb_spec n 10) as [Hlt|Hge].
  - cbn [List.length]. unfold decimal_width. split; [lia|].
    split; [|now left]. change (10 ^ N.of_nat 1)%N with 10%N. assumption.
  - assert (Hq : (n / 10 < 2 ^ N.of_nat f)%N).
    { rewrite Nat2N.inj_succ, N.pow_succ_r' in Hn.
      apply N.Div0.div_lt_upper_bound. lia. }
    assert (Hf1 : (1 <= f)%nat).
    { destruct f; [|lia]. simpl in Hn. lia. }
    specialize (IH _ Hf1 Hq). destruct IH as (H1 & Hup & Hlo).
    {
      rewrite length_app. cbn [List.length].
      set (L := List.length (decimal_digits f (n / 10))) in *.
      assert (Hn10 : (n = 10 * (n / 10) + n mod 10)%N)
        by (apply N.div_mod; discriminate).
      assert (Hm : (n mod 10 < 10)%N) by (apply N.mod_lt; discriminate).
      unfold decimal_width. split; [lia|]. split.
      * replace (N.of_nat (L + 1)) with (N.succ (N.of_nat L)) by lia.
        rewrite N.pow_succ_r'. lia.
      * right. replace (L + 1 - 1)%nat with L by lia.
        destruct Hlo as [HL|Hlo].
        -- rewrite HL. change (10 ^ N.of_nat 1)%N with 10%N. lia.
        -- replace (N.of_nat L) with (N.succ (N.of_nat (L - 1))) by lia.
           rewrite N.pow_succ_r'.
           pose proof (N.Div0.mul_div_le n 10). lia.
    }
Qed.

Lemma String_of_N_width (n : N) :
  decimal_width n (List.length (String_of_N n)).
Proof.
  apply decimal_digits_width; [lia|].
  rewrite Nat2N.inj_succ, N2Nat.id.
  destruct n as [|p]; [reflexivity|].
  apply N.log2_spec. lia.
Qed.

Lemma decimal_width_unique (n : N) (w1 w2 : nat) :
  decimal_width n w1 -> decimal_width n w2 -> w1 = w2.
Proof.
  assert (Hmono : forall a b, (n < 10 ^ N.of_nat a)%N ->
                              (10 ^ N.of_nat (b - 1) <= n)%N ->
                              (b <= a)%nat).
  { intros a b Ha Hb. destruct (Nat.le_gt_cases b a) as [|Hab]; [assumption|].
    exfalso. assert ((10 ^ N.of_nat a <= 10 ^ N.of_nat (b - 1))%N)
      by (apply N.pow_le_mono_r; lia). lia. }
  intros (H1 & Hu1 & Hl1) (H2 & Hu2 & Hl2).
  apply Nat.le_antisymm.
  - destruct Hl1 as [->|Hl1]; [lia|]. eapply Hmono; eassumption.
  - destruct Hl2 as [->|Hl2]; [lia|]. eapply Hmono; eassumption.
Qed.

Lemma take_while_digits (s : str) :
  normalized s -> take_while is_digit s = s.
Proof.
  unfold normalized. induction s as [|c s IH]; simpl; [reflexivity|].
  intros H. apply andb_true_iff in H as [Hc Hs]. rewrite Hc, IH by assumption.
  reflexivity.
Qed.

(** [parseInt] of a digit-only string: its value, or [NaN] when empty. *)
Lemma parseInt_normalized (s : str) :
  normalized s ->
  parseInt s = match s with [] => None | _ => Some (decimal_value s) end.
Proof.
  intros Hs. unfold parseInt. destruct s as [|c s]; [reflexivity|].
  assert (Hc : is_digit c = true).
  { unfold normalized in Hs; simpl in Hs.
    now apply andb_true_iff in Hs as [Hc _]. }
  assert (Hw : is_white_space c = false).
  { unfold is_digit in Hc. apply andb_true_iff in Hc as [Hlo Hhi].
    apply N.leb_le in Hlo, Hhi. unfold is_white_space.
    repeat (apply orb_false_iff; split); try (apply N.eqb_neq; lia).
    apply andb_false_iff. left. apply N.leb_gt. lia. }
  cbn [drop_while]. rewrite Hw.
  assert (H45 : (c =? 45)%N = false).
  { unfold is_digit in Hc. apply andb_true_iff in Hc as [Hlo _].
    apply N.leb_le in Hlo. apply N.eqb_neq. lia. }
  assert (H43 : (c =? 43)%N = false).
  { unfold is_digit in Hc. apply andb_true_iff in Hc as [Hlo _].
    apply N.leb_le in Hlo. apply N.eqb_neq. lia. }
  rewrite H45, H43. rewrite (take_while_digits (c :: s) Hs).
  f_equal. lia.
Qed.

Lemma normalized_firstn (k : nat) (s : str) :
  normalized s -> normalized (firstn k s).
Proof.
  unfold normalized. revert k; induction s as [|c s IH]; intros k H.
  - now rewrite firstn_nil.
  - destruct k; [reflexivity|]. simpl in *.
    apply andb_true_iff in H as [Hc Hs]. rewrite Hc. now apply IH.
Qed.

Lemma decimal_value_snoc (s : str) (c : N) :
  decimal_value (s ++ [c]) = (10 * decimal_value s + digit_value c)%Z.
Proof. unfold decimal_value. rewrite fold_left_app. reflexivity. Qed.

Lemma decimal_value_bounds (s : str) :
  normalized s ->
  (0 <= decimal_value s < 10 ^ Z.of_nat (List.length s))%Z.
Proof.
  unfold normalized. induction s as [|c s IH] using rev_ind; intros H.
  - cbn. lia.
  - rewrite forallb_app in H. apply andb_true_iff in H as [Hs Hc].
    simpl in Hc. rewrite andb_true_r in Hc.
    specialize (IH Hs). rewrite decimal_value_snoc, length_app.
    cbn [List.length].
    replace (Z.of_nat (List.length s + 1))
      with (Z.succ (Z.of_nat (List.length s))) by lia.
    rewrite Z.pow_succ_r by lia.
    unfold is_digit in Hc. apply andb_true_iff in Hc as [Hlo Hhi].
    apply N.leb_le in Hlo, Hhi. unfold digit_value. lia.
Qed.

Lemma bin_test_spec (cardNumber : str) (low high : N) :
  normalized cardNumber ->
  (exists p, parseInt (substring0 (List.length (String_of_N low)) cardNumber)
             = Some p
             /\ (Z.of_N low <= p <= Z.of_N high)%Z)
  <-> pair_matches cardNumber low high.
Proof.
  intros Hs. unfold pair_matches, prefix_value, substring0.
  pose proof (String_of_N_width low) as Hw.
  set (w := List.length (String_of_N low)) in *.
  pose proof (normalized_firstn w cardNumber Hs) as Hf.
  rewrite (parseInt_normalized _ Hf).
  pose proof (decimal_value_bounds _ Hf) as Hb.
  pose proof (firstn_le_length w cardNumber) as Hle.
  split.
  - intros (p & Hp & Hr). exists w, p. split; [assumption|].
    split; [|assumption].
    destruct (firstn w cardNumber) as [|c f] eqn:E; [discriminate|].
    destruct (Nat.leb_spec w (List.length cardNumber)) as [|Hshort];
      [assumption|exfalso].
    (* a shorter prefix is worth less than [low] *)
    rewrite firstn_all2 in E by lia.
    injection Hp as <-. destruct Hw as (H1 & _ & [Hw1|Hlo]).
    + rewrite E in Hshort. simpl in Hshort. lia.
    + assert ((10 ^ Z.of_nat (List.length (c :: f))
               <= 10 ^ Z.of_nat (w - 1))%Z)
        by (apply Z.pow_le_mono_r; rewrite <- ?E; lia).
      assert (Z.of_N (10 ^ N.of_nat (w - 1)) = (10 ^ Z.of_nat (w - 1))%Z)
        by (rewrite N2Z.inj_pow; f_equal; lia).
      lia.
  - intros (w' & p & Hw' & Hp & Hr).
    rewrite (decimal_width_unique _ _ _ Hw' Hw) in Hp.
    destruct (Nat.leb_spec w (List.length cardNumber)) as [Hlong|];
      [|discriminate].
    exists p. split; [|assumption].
    destruct (firstn w cardNumber) as [|c f] eqn:E; [|assumption].
    apply (f_equal (@List.length N)) in E. rewrite length_firstn in E.
    simpl in E. destruct Hw as (H1 & _). lia.
Qed.

Lemma bin_loop_spec (ranges : list (N * N)) (cardNumber : str) :
  normalized cardNumber ->
  bin_loop ranges cardNumber = true
  <-> exists low high, In (low, high) ranges
                       /\ pair_matches cardNumber low high.
Proof.
  intros Hs. induction ranges as [|[low high] rest IH]; cbn [bin_loop].
  - split; [discriminate|]. intros (? & ? & [] & _).
  - pose proof (bin_test_spec cardNumber low high Hs) as Ht.
    destruct (parseInt _) as [p|] eqn:Ep.
    + destruct ((Z.of_N low <=? p)%Z && (p <=? Z.of_N high)%Z) eqn:Ec.
      * split; [intros _|reflexivity]. exists low, high.
        split; [now left|]. apply Ht. exists p. split; [reflexivity|].
        apply andb_true_iff in Ec as [H1 H2].
        apply Z.leb_le in H1, H2. lia.
      * rewrite IH. split.
        -- intros (l & h & Hin & Hm). exists l, h.
           split; [now right|assumption].
        -- intros (l & h & [Heq|Hin] & Hm); [|now exists l, h].
           injection Heq as <- <-. apply Ht in Hm as (p' & Hp' & Hr).
           injection Hp' as <-. apply andb_false_iff in Ec as [H|H];
             [apply Z.leb_gt in H|apply Z.leb_gt in H]; lia.
    + rewrite IH. split.
      * intros (l & h & Hin & Hm). exists l, h. split; [now right|assumption].
      * intros (l & h & [Heq|Hin] & Hm); [|now exists l, h].
        injection Heq as <- <-. apply Ht in Hm as (p' & Hp' & _). discriminate.
Qed.

(** The pairs the registry declares have bounds of at most 15 digits. *)
Lemma cardPatterns_exact_bounds (key : string) (info : CardInfo)
  (ranges : list (N * N)) :
  In (key, info) cardPatterns -> binRanges info = Some ranges ->
  exact_bounds ranges.
Proof.
  assert (H : Forall (fun e => forall r, binRanges (snd e) = Some r ->
                                         exact_bounds r) cardPatterns).
  { unfold cardPatterns.
    repeat (constructor;
            [cbn [snd entry binRanges]; intros r Hr; injection Hr as <-;
             unfold exact_bounds; repeat (constructor; [now split|])
            |]);
    constructor. }
  rewrite Forall_forall in H. intros Hin. exact (H _ Hin ranges).
Qed.

(** C7. A profile without [binRanges] passes, whatever the number.  On
    a digit-only number [validateBIN] otherwise passes exactly when some
    declared pair [(low, high)] has [low <= prefix <= high], where the
    prefix is as many leading digits as [low] is wide, read as an
    integer.  For the pair (51,55) that is a 2-digit prefix, for
    (2221,2720) a 4-digit one.  The profiles are those whose bounds have
    at most 15 digits, which a Number holds exactly; every profile of the
    registry is one. *)
Theorem validateBIN_prefix_in_range (cardNumber : str) (cardInfo : CardInfo) :
  (binRanges cardInfo = None -> validateBIN cardNumber cardInfo = true)
  /\ (normalized cardNumber ->
      forall ranges, binRanges cardInfo = Some ranges ->
      exact_bounds ranges ->
      (validateBIN cardNumber cardInfo = true <->
       exists low high w p,
         In (low, high) ranges
         /\ decimal_width low w
         /\ prefix_value w cardNumber = Some p
         /\ (Z.of_N low <= p <= Z.of_N high)%Z))
  /\ decimal_width 51 2 /\ decimal_width 2221 4
  /\ (forall key info ranges,
        In (key, info) cardPatterns -> binRanges info = Some ranges ->
        exact_bounds ranges).
Proof.
  unfold validateBIN. split; [|split; [|split; [|split]]].
  - intros ->. reflexivity.
  - intros Hs ranges -> _. rewrite (bin_loop_spec ranges cardNumber Hs).
    unfold pair_matches. split.
    + intros (l & h & Hin & w & p & H). exists l, h, w, p. tauto.
    + intros (l & h & w & p & Hin & H). exists l, h. split; [assumption|].
      exists w, p. assumption.
  - unfold decimal_width. cbn. split; [lia|split; [lia|right; lia]].
  - unfold decimal_width. cbn. split; [lia|split; [lia|right; lia]].
  - exact cardPatterns_exact_bounds.
Qed.

Lemma validateBIN_prefix_in_range_witness :
  normalized (lit "5105105105105100")
  /\ exact_bounds [(51, 55); (2221, 2720)]%N
  /\ validateBIN (lit "5105105105105100")
                 (detectCardType (lit "5105105105105100")) = true.
Proof.
  assert (Hn : normalized (lit "5105105105105100")) by reflexivity.
  assert (Hb : exact_bounds [(51, 55); (2221, 2720)]%N)
    by (repeat (constructor; [now split|]); constructor).
  split; [exact Hn|]. split; [exact Hb|].
  apply (proj1 (proj2 (validateBIN_prefix_in_range
                         (lit "5105105105105100")
                         (detectCardType (lit "5105105105105100"))))
           Hn [(51, 55); (2221, 2720)]%N eq_refl Hb).
  exists 51%N, 55%N, 2%nat, 51%Z.
  split; [now left|]. split; [|split; [reflexivity|lia]].
  unfold decimal_width. cbn. split; [lia|split; [lia|right; lia]].
Defined.

End BIN.

(* ================================================================== *)
(** ** Expiration                                                      *)
(* ================================================================== *)

Section Expiration.

Local Open Scope string_scope.
Local Open Scope Z_scope.

Variable now : Clock.

Lemma truthy_false (s : str) : truthy s = false <-> s = [].
Proof. destruct s; simpl; split; congruence. Qed.

Lemma truthy_true (s : str) : truthy s = true <-> s <> [].
Proof. destruct s; simpl; split; congruence. Qed.


(** The four parsing rejections, each with its reason, in the order the
    checks are made. *)
Lemma validateExpiration_rejections (month year : str) :
  let r := validateExpiration now month year in
  ((month = [] \/ year = []) -> r = ExpInvalid "Missing date components")
  /\ (month <> [] -> year <> [] ->
      (forall m, parseInt month = Some m -> m < 1 \/ 12 < m) ->
      r = ExpInvalid "Invalid month")
  /\ (month <> [] -> year <> [] ->
      (exists m, parseInt month = Some m /\ 1 <= m <= 12) ->
      parseInt year = None -> r = ExpInvalid "Invalid year format")
  /\ (month <> [] -> year <> [] ->
      (exists m, parseInt month = Some m /\ 1 <= m <= 12) ->
      parseInt year <> None ->
      (List.length year <> 2 /\ List.length year <> 4)%nat ->
      r = ExpInvalid "Year must be 2 or 4 digits").
Proof.
  cbv zeta. split; [|split; [|split]].
  - intros [->| ->]; unfold validateExpiration.
    + reflexivity.
    + destruct (truthy month); reflexivity.
  - intros Hm Hy Bad. unfold validateExpiration.
    apply truthy_true in Hm, Hy. rewrite Hm, Hy. cbn [negb orb].
    destruct (parseInt month) as [m|]; [|reflexivity].
    destruct (Bad m eq_refl) as [H|H].
    + apply Z.ltb_lt in H. rewrite H. reflexivity.
    + apply Z.ltb_lt in H. rewrite H, orb_true_r. reflexivity.
  - intros Hm Hy (m & Pm & Rm) Py. unfold validateExpiration.
    apply truthy_true in Hm, Hy. rewrite Hm, Hy, Pm, Py. cbn [negb orb].
    replace ((m <? 1) || (12 <? m)) with false
      by (symmetry; apply orb_false_iff; split; apply Z.ltb_ge; lia).
    reflexivity.
  - intros Hm Hy (m & Pm & Rm) Py [L2 L4]. unfold validateExpiration.
    apply truthy_true in Hm, Hy. rewrite Hm, Hy, Pm. cbn [negb orb].
    replace ((m <? 1) || (12 <? m)) with false
      by (symmetry; apply orb_false_iff; split; apply Z.ltb_ge; lia).
    destruct (parseInt year) as [v|]; [|congruence].
    apply Nat.eqb_neq in L2, L4. rewrite L2, L4. reflexivity.
Qed.


End Expiration.


(* ================================================================== *)
(** ** The orchestrator                                                *)
(* ================================================================== *)

Section Orchestrator.

Local Open Scope string_scope.

Lemma detect_in_typed (entries : list (string * CardInfo)) (cardNumber : str) :
  exists key, type (detect_in entries cardNumber) = Some key.
Proof.
  induction entries as [|[key info] rest IH]; simpl.
  - now exists "unknown".
  - destruct (pattern_test info cardNumber); [now exists key|assumption].
Qed.

Lemma string_neqb_unknown (info : CardInfo) :
  string_neqb (type info) "unknown" = negb (is_unknown info).
Proof. unfold string_neqb, is_unknown. destruct (type info); reflexivity. Qed.

Lemma cleanCardNumber_digits_of (s : str) :
  cleanCardNumber s = digits_of s.
Proof.
  unfold cleanCardNumber. induction s as [|c s IH]; [reflexivity|].
  cbn [filter digits_of]. now rewrite IH.
Qed.

Lemma validateLength_12_to_19 (s : str) :
  validateLength s = true <-> (12 <= List.length s <= 19)%nat.
Proof.
  unfold validateLength. cbv zeta. rewrite andb_true_iff, !Nat.leb_le.
  tauto.
Qed.

Lemma validateExpiration_not_length (now : Clock) (month year : str) :
  validateExpiration now month year <> ExpInvalid "Invalid card length".
Proof.
  unfold validateExpiration.
  repeat match goal with
         | |- context [if ?b then _ else _] => destruct b
         | |- context [match parseInt ?s with _ => _ end] =>
             destruct (parseInt s)
         end;
    discriminate.
Qed.

(** C1. The reason [validateCard] reports is that of the first failing
    check in the order: number present, length of the normalized number
    in 12..19, structure, Luhn, BIN range (passed outright by an unknown
    network), expiration (with the validator's own reason), CVV; the
    verdict is valid exactly when none fails.  The second check is on
    the digits of the number field and on nothing else: "Invalid card
    length" is reported exactly when the field is there and the digits
    in it are fewer than 12 or more than 19.  Detection between length
    and structure always yields a network key.  Month 13 on
    4111111111111111 is reported as "Invalid month" whatever the CVV
    field holds. *)
Theorem validateCard_first_failing_check (now : Clock) (line : str) :
  reason (validateCard now line) = first_failure (ordered_checks now line)
  /\ CCValidator.valid (validateCard now line)
     = forallb fst (ordered_checks now line)
  /\ (reason (validateCard now line) = Some "Invalid card length"
      <-> number (extractCardData line) <> []
          /\ ~ (12 <= List.length
                        (digits_of (number (extractCardData line)))
                <= 19)%nat)
  /\ (exists key,
        type (detectCardType (digits_of (number (extractCardData line))))
        = Some key)
  /\ (forall field : str,
        validateCard now (lit "4111111111111111|13|2030|" ++ field)%list
        = reject (Some "visa") (Some "Visa") "Invalid month")
  /\ validateCard now (lit "4111111111111111|13|2030|123")
     = reject (Some "visa") (Some "Visa") "Invalid month".
Proof.
  split; [|split; [|split; [|split; [|split]]]].
  - unfold validateCard, ordered_checks, first_failure. cbv zeta.
    rewrite cleanCardNumber_digits_of, string_neqb_unknown.
    change (length_12_to_19 (digits_of (number (extractCardData line))))
      with (validateLength (digits_of (number (extractCardData line)))).
    destruct (truthy _); cbn; [|reflexivity].
    destruct (validateLength _); cbn; [|reflexivity].
    destruct (validateStructure _); cbn; [|reflexivity].
    destruct (luhnCheck _); cbn; [|reflexivity].
    destruct (is_unknown _); cbn.
    + destruct (validateExpiration _ _ _); cbn; [reflexivity|].
      destruct (validateCVV _ _); reflexivity.
    + destruct (validateBIN _ _); cbn; [|reflexivity].
      destruct (validateExpiration _ _ _); cbn; [reflexivity|].
      destruct (validateCVV _ _); reflexivity.
  - unfold validateCard, ordered_checks. cbv zeta.
    rewrite cleanCardNumber_digits_of, string_neqb_unknown.
    change (length_12_to_19 (digits_of (number (extractCardData line))))
      with (validateLength (digits_of (number (extractCardData line)))).
    destruct (truthy _); cbn; [|reflexivity].
    destruct (validateLength _); cbn; [|reflexivity].
    destruct (validateStructure _); cbn; [|reflexivity].
    destruct (luhnCheck _); cbn; [|reflexivity].
    destruct (is_unknown _); cbn.
    + destruct (validateExpiration _ _ _); cbn; [reflexivity|].
      destruct (validateCVV _ _); reflexivity.
    + destruct (validateBIN _ _); cbn; [|reflexivity].
      destruct (validateExpiration _ _ _); cbn; [reflexivity|].
      destruct (validateCVV _ _); reflexivity.
  - unfold validateCard. cbv zeta. rewrite cleanCardNumber_digits_of.
    set (d := extractCardData line). set (n := digits_of (number d)).
    pose proof (validateLength_12_to_19 n) as Hlen.
    destruct (truthy (number d)) eqn:Et; cbn [negb].
    + apply truthy_true in Et.
      destruct (validateLength n) eqn:El; cbn [negb].
      * assert (Hin : (12 <= List.length n <= 19)%nat) by now apply Hlen.
        assert (Hno : forall v : Verdict,
                  reason v <> Some "Invalid card length" ->
                  reason v = Some "Invalid card length"
                  <-> number d <> [] /\ ~ (12 <= List.length n <= 19)%nat).
        { intros v Hv. split; [intros H; now destruct Hv|].
          intros [_ Hout]. now destruct Hout. }
        destruct (negb (validateStructure n));
          [apply Hno; discriminate|].
        destruct (negb (luhnCheck n)); [apply Hno; discriminate|].
        destruct (string_neqb (type (detectCardType n)) "unknown"
                  && negb (validateBIN n (detectCardType n)));
          [apply Hno; discriminate|].
        destruct (validateExpiration now (month d) (year d))
          as [why|m y] eqn:E.
        -- apply Hno. cbn [reason reject]. intros H. injection H as ->.
           exact (validateExpiration_not_length _ _ _ E).
        -- destruct (negb (validateCVV (cvv d) (detectCardType n)));
             apply Hno; discriminate.
      * split; [intros _|reflexivity]. split; [exact Et|].
        intros Hin. apply Hlen in Hin. discriminate Hin.
    + apply truthy_false in Et. split; [discriminate|].
      intros [Hn _]. now destruct Hn.
  - apply detect_in_typed.
  - intros field. vm_compute. reflexivity.
  - vm_compute. reflexivity.
Qed.

End Orchestrator.

(* ================================================================== *)
(** ** Verdicts: always a reason, and what the clock decides           *)
(* ================================================================== *)

Section Verdicts.

Local Open Scope string_scope.

Lemma validateExpiration_reasons (now : Clock) (month year : str)
  (why : string) :
  validateExpiration now month year = ExpInvalid why ->
  In why [ "Missing date components"; "Invalid month"; "Invalid year format";
           "Year must be 2 or 4 digits"; "Card expired";
           "Expiration too far in future" ].
Proof.
  unfold validateExpiration.
  repeat match goal with
         | |- context [if ?b then _ else _] => destruct b
         | |- context [match parseInt ?s with _ => _ end] =>
             destruct (parseInt s)
         end;
    intros H; try discriminate; injection H as <-; simpl; tauto.
Qed.

Lemma In_rejection_reasons_nonempty (why : string) :
  In why rejection_reasons -> why <> "".
Proof.
  unfold rejection_reasons. simpl.
  intros H; repeat (destruct H as [<-|H]; [discriminate|]). contradiction.
Qed.

(** C8. Whatever the line, [validateCard] yields a verdict, and a verdict
    that is not valid carries one of the engine's worded reasons (none of
    them empty); a valid one carries none, and the month and year. *)
Theorem validateCard_always_verdict (now : Clock) (line : str) :
  exists v : Verdict,
    validateCard now line = v
    /\ (CCValidator.valid v = false ->
        exists why, reason v = Some why
                    /\ In why rejection_reasons /\ why <> "")
    /\ (CCValidator.valid v = true ->
        reason v = None
        /\ (exists m y, expMonth v = Some m /\ expYear v = Some y)).
Proof.
  eexists; split; [reflexivity|].
  assert (Hr : forall ty nm why, In why rejection_reasons ->
            (CCValidator.valid (reject ty nm why) = false ->
             exists why0, reason (reject ty nm why) = Some why0
                          /\ In why0 rejection_reasons /\ why0 <> "")
            /\ (CCValidator.valid (reject ty nm why) = true ->
                reason (reject ty nm why) = None
                /\ (exists m y, expMonth (reject ty nm why) = Some m
                                /\ expYear (reject ty nm why) = Some y))).
  { intros ty nm why Hin. split; [intros _|discriminate].
    exists why. split; [reflexivity|]. split; [assumption|].
    now apply In_rejection_reasons_nonempty. }
  unfold validateCard.
  repeat match goal with
         | |- context [if negb ?b then _ else _] =>
             destruct b; cbn [negb andb];
             [|apply Hr; unfold rejection_reasons; simpl; tauto]
         | |- context [if string_neqb ?a ?b && _ then _ else _] =>
             destruct (string_neqb a b); cbn [negb andb]
         end;
    (destruct (validateExpiration _ _ _) as [why|m y] eqn:E;
     [ apply Hr; apply validateExpiration_reasons in E;
       unfold rejection_reasons; simpl in *; tauto
     | destruct (validateCVV _ _); cbn [negb];
       [ split; [discriminate|intros _; split; [reflexivity|now exists m, y]]
       | apply Hr; unfold rejection_reasons; simpl; tauto ] ]).
Qed.

Lemma validateCard_always_verdict_witness :
  exists why,
    reason (validateCard november_2026 (lit ""))
    = Some why /\ In why rejection_reasons /\ why <> "".
Proof.
  destruct (validateCard_always_verdict
              november_2026 (lit ""))
    as (v & Hv & Hbad & _).
  rewrite Hv. apply Hbad. rewrite <- Hv. reflexivity.
Defined.

(** Two clocks agree on the expiration check, or both its answers are
    among those that compare with today's date. *)
Lemma validateExpiration_clock (c1 c2 : Clock) (month year : str) :
  validateExpiration c1 month year = validateExpiration c2 month year
  \/ ((forall why, validateExpiration c1 month year = ExpInvalid why ->
         why = "Card expired" \/ why = "Expiration too far in future")
      /\ (forall why, validateExpiration c2 month year = ExpInvalid why ->
            why = "Card expired" \/ why = "Expiration too far in future")).
Proof.
  unfold validateExpiration.
  destruct (negb (truthy month) || negb (truthy year)); [now left|].
  destruct (parseInt month) as [m|]; [|now left].
  destruct ((m <? 1)%Z || (12 <? m)%Z); [now left|].
  destruct (parseInt year) as [v|]; [|now left].
  assert (H : forall y, 
    (forall c why,
       (if (y <? getFullYear c)%Z then ExpInvalid "Card expired"
        else if (y =? getFullYear c)%Z && (m <? getMonth c + 1)%Z
             then ExpInvalid "Card expired"
             else if (getFullYear c + 10 <? y)%Z
                  then ExpInvalid "Expiration too far in future"
                  else ExpValid m y) = ExpInvalid why ->
       why = "Card expired" \/ why = "Expiration too far in future")).
  { intros y c why.
    destruct (y <? getFullYear c)%Z;
      [intros E; injection E as <-; now left|].
    destruct ((y =? getFullYear c)%Z && (m <? getMonth c + 1)%Z);
      [intros E; injection E as <-; now left|].
    destruct (getFullYear c + 10 <? y)%Z;
      [intros E; injection E as <-; now right|discriminate]. }
  destruct (List.length year =? 2)%nat.
  - right. split; intros why; apply H.
  - destruct (negb (List.length year =? 4)%nat); [now left|].
    right. split; intros why; apply H.
Qed.

(** C9, the claim as stated fails: the same line is accepted in November
    2026 and rejected in January 2031. *)
Lemma validateCard_depends_on_clock :
  CCValidator.valid
    (validateCard november_2026
                  (lit "4111111111111111|12|2030|123")) = true
  /\ validateCard {| getFullYear := 2031; getMonth := 0 |}
                  (lit "4111111111111111|12|2030|123")
     = reject (Some "visa") (Some "Visa") "Card expired".
Proof. split; vm_compute; reflexivity. Qed.

(** C9, amended. The verdict is a function of the line and of the year
    and month current at the call: the same line under clocks that read
    the same year and month gets the same verdict.  The clock matters to
    the date comparison of the expiration check alone: under two
    different clocks the verdicts are equal unless each of them got as far
    as that comparison, that is, each is "Card expired", "Expiration too
    far in future", "Invalid CVV" or a pass. *)
Theorem validateCard_function_of_line_and_clock (c1 c2 : Clock) (line : str) :
  (getFullYear c1 = getFullYear c2 -> getMonth c1 = getMonth c2 ->
   validateCard c1 line = validateCard c2 line)
  /\ (validateCard c1 line = validateCard c2 line
      \/ (clock_decided (validateCard c1 line)
          /\ clock_decided (validateCard c2 line))).
Proof.
  split.
  - destruct c1, c2; simpl. intros -> ->. reflexivity.
  - unfold validateCard.
    repeat match goal with
           | |- context [if negb ?b then _ else _] =>
               destruct b; cbn [negb andb]; [|now left]
           | |- context [if string_neqb ?a ?b && _ then _ else _] =>
               destruct (string_neqb a b); cbn [negb andb]
           end;
      match goal with
      | |- context [validateExpiration c1 ?m ?y] =>
          destruct (validateExpiration_clock c1 c2 m y) as [E|[E1 E2]];
          [ rewrite E; now left | ];
          destruct (validateExpiration c1 m y) as [w1|m1 y1];
          destruct (validateExpiration c2 m y) as [w2|m2 y2]
      end;
      try (destruct (E1 _ eq_refl) as [->| ->]);
      try (destruct (E2 _ eq_refl) as [->| ->]);
      try (destruct (validateCVV _ _); cbn [negb]);
      try (now left);
      try (right; unfold clock_decided; split; simpl; tauto).
Qed.

Lemma validateCard_function_of_line_and_clock_witness :
  validateCard november_2026
               (lit "4111111111111111|12|2030|123")
  = validateCard november_2026
                 (lit "4111111111111111|12|2030|123").
Proof.
  apply (proj1 (validateCard_function_of_line_and_clock
                  november_2026
                  november_2026
                  (lit "4111111111111111|12|2030|123")));
    reflexivity.
Defined.

End Verdicts.

(* ================================================================== *)
(** ** The batch loop                                                  *)
(* ================================================================== *)

Section BatchLoop.

Import Batch.

Lemma progress_of_app (who : nat) (e1 e2 : list Event) :
  progress_of who (e1 ++ e2) = progress_of who e1 ++ progress_of who e2.
Proof.
  induction e1 as [|e e1 IH]; [reflexivity|].
  destruct e; simpl; rewrite ?IH; try reflexivity.
  destruct (Nat.eqb who0 who); simpl; now rewrite ?IH.
Qed.

Lemma resolved_of_app (who : nat) (e1 e2 : list Event) :
  resolved_of who (e1 ++ e2) = resolved_of who e1 ++ resolved_of who e2.
Proof.
  induction e1 as [|e e1 IH]; [reflexivity|].
  destruct e; simpl; rewrite ?IH; try reflexivity.
  destruct (Nat.eqb who0 who); simpl; now rewrite ?IH.
Qed.

(** One non-blank record of a running batch: the counters move, the
    progress callback is called once, last, and the call suspends. *)
Lemma loop_record (t : Turn) (line : str) (rest : list str) (who : nat)
  (b : BatchState) (queue : list Activation) :
  non_blank line ->
  exists b' evs,
    loop t (line :: rest) who
         {| isProcessing := true; currentBatch := Some b; timers := queue |}
    = ({| isProcessing := true; currentBatch := Some b';
          timers := queue ++ [{| pending := rest; caller := who |}] |}, evs)
    /\ progress_of who evs = [b']
    /\ resolved_of who evs = []
    /\ processed b' = S (processed b)
    /\ total b' = total b.
Proof.
  intros Hnb. unfold non_blank in Hnb.
  cbn [loop isProcessing negb currentBatch].
  destruct (trim line) as [|c l] eqn:E; [contradiction|].
  cbn [truthy negb timers].
  eexists. eexists. split; [reflexivity|].
  destruct (CCValidator.valid _); [destruct (simulateStatus _)|];
    cbn; rewrite Nat.eqb_refl; repeat split; reflexivity.
Qed.

(** From a suspended call to its [return], timer after timer. *)
Lemma run_to_completion (who : nat) (rest : list str) :
  Forall non_blank rest ->
  forall (b : BatchState) (ticks : list Turn),
  List.length ticks = S (List.length rest) ->
  exists final evs,
    run (running who b rest) (List.map TimerFires ticks)
    = (idle (Some final), evs)
    /\ List.map processed (progress_of who evs)
       = seq (S (processed b)) (List.length rest)
    /\ List.map total (progress_of who evs)
       = repeat (total b) (List.length rest)
    /\ resolved_of who evs = [Some final]
    /\ processed final = (processed b + List.length rest)%nat
    /\ total final = total b.
Proof.
  induction 1 as [|line rest Hline Hrest IH]; intros b ticks Hlen.
  - destruct ticks as [|t [|]]; try discriminate.
    exists b, [Resolved who (Some b)]. cbn. rewrite Nat.eqb_refl.
    repeat split; lia.
  - destruct ticks as [|t ticks]; [discriminate|].
    destruct (loop_record t line rest who b [] Hline)
      as (b1 & evs1 & Hloop & Hp1 & Hr1 & Hproc & Htot).
    destruct (IH b1 ticks) as (final & evs & Hrun & Hp & Ht & Hr & Hf & Hft);
      [simpl in Hlen; lia|].
    exists final, (evs1 ++ evs).
    cbn [List.map run step]. unfold resume.
    cbn [running timers pending caller isProcessing currentBatch].
    rewrite Hloop. cbn [app]. fold (running who b1 rest). rewrite Hrun.
    rewrite progress_of_app, resolved_of_app, Hp1, Hr1.
    cbn [List.map app List.length seq repeat].
    rewrite Hp, Ht, Hr, Hproc, Htot.
    repeat split; try reflexivity; try lia; congruence.
Qed.

(** Where the progress calls of a batch come one per record.  A batch
    of N lines, none blank, started on a validator that is not processing
    and has no call of an earlier batch still waiting, and left to run
    (the timers fire, nobody stops it): the progress callback is called
    exactly N times, the k-th time with [processed = k] and every time
    with [total = N], and the promise resolves with a state whose
    [processed] is N. *)
Theorem processBatch_progress_once_per_record
  (w : World) (t : Turn) (cardsData : list str) (who : nat)
  (ticks : list Turn) :
  isProcessing w = false -> timers w = [] ->
  Forall non_blank cardsData ->
  List.length ticks = List.length cardsData ->
  let N := List.length cardsData in
  let outcome :=
    run w (CallProcessBatch t cardsData who :: List.map TimerFires ticks) in
  let calls := progress_of who (snd outcome) in
  List.length calls = N
  /\ List.map processed calls = seq 1 N
  /\ List.map total calls = repeat N N
  /\ (exists final,
        resolved_of who (snd outcome) = [Some final]
        /\ currentBatch (fst outcome) = Some final
        /\ processed final = N /\ total final = N)
  /\ isProcessing (fst outcome) = false.
Proof.
  intros Hidle Hq Hnb Hlen. cbv zeta.
  assert (Hshape : exists final evs,
    run w (CallProcessBatch t cardsData who :: List.map TimerFires ticks)
    = (idle (Some final), evs)
    /\ List.map processed (progress_of who evs) = seq 1 (List.length cardsData)
    /\ List.map total (progress_of who evs)
       = repeat (List.length cardsData) (List.length cardsData)
    /\ resolved_of who evs = [Some final]
    /\ processed final = List.length cardsData
    /\ total final = List.length cardsData).
  { cbn [run step]. unfold processBatch. rewrite Hidle, Hq.
    destruct Hnb as [|line rest Hline Hrest].
    - destruct ticks; [|discriminate].
      set (b0 := {| total := 0; processed := 0; valid := 0; live := 0;
                    dead := 0 |}).
      exists b0, [Resolved who (Some b0)]. cbn. rewrite Nat.eqb_refl.
      repeat split; reflexivity.
    - set (b0 := {| total := List.length (line :: rest); processed := 0;
                    valid := 0; live := 0; dead := 0 |}).
      destruct (loop_record t line rest who b0 [] Hline)
        as (b1 & evs1 & Hloop & Hp1 & Hr1 & Hproc & Htot).
      destruct ticks as [|t1 ticks]; [discriminate|].
      destruct (run_to_completion who rest Hrest b1 (t1 :: ticks))
        as (final & evs & Hrun & Hp & Ht & Hr & Hf & Hft);
        [simpl in *; lia|].
      exists final, (evs1 ++ evs).
      rewrite Hloop. cbn [app]. fold (running who b1 rest). rewrite Hrun.
      rewrite progress_of_app, resolved_of_app, Hp1, Hr1.
      cbn [List.map app List.length seq repeat].
      rewrite Hp, Ht, Hr, Hproc, Htot. subst b0.
      cbn [processed total List.length] in *.
      repeat split; try reflexivity; lia. }
  destruct Hshape as (final & evs & -> & Hp & Ht & Hr & Hf & Hft).
  cbn [fst snd idle isProcessing currentBatch].
  split; [|split; [assumption|split; [assumption|split; [|reflexivity]]]].
  - rewrite <- (length_map processed), Hp. apply length_seq.
  - exists final. repeat split; assumption.
Qed.

Lemma processBatch_progress_once_per_record_witness :
  let outcome :=
    run constructed
        (CallProcessBatch a_turn [a_good_line; lit "x"] 7
         :: List.map TimerFires [a_turn; a_turn]) in
  List.map processed (progress_of 7 (snd outcome)) = [1; 2]
  /\ List.map total (progress_of 7 (snd outcome)) = [2; 2].
Proof.
  assert (Hnb : Forall non_blank [a_good_line; lit "x"])
    by (repeat constructor; vm_compute; discriminate).
  destruct (processBatch_progress_once_per_record
              constructed a_turn [a_good_line; lit "x"] 7 [a_turn; a_turn]
              eq_refl eq_refl Hnb eq_refl)
    as (_ & Hp & Ht & _).
  split; [exact Hp|exact Ht].
Defined.

(** C6. A call of [processBatch] on a validator that is processing
    returns null and leaves the validator as it was: the flag, the batch
    state with its five counters and the waiting calls are untouched, and
    whatever happens next happens as if the call had not been made. *)
Theorem processBatch_rejected_while_running
  (w : World) (t : Turn) (cardsData : list str) (who : nat) :
  isProcessing w = true ->
  processBatch t cardsData who w = (w, [Resolved who None])
  /\ (forall schedule,
        run w (CallProcessBatch t cardsData who :: schedule)
        = (fst (run w schedule),
           Resolved who None :: snd (run w schedule))).
Proof.
  intros Hbusy.
  assert (H : processBatch t cardsData who w = (w, [Resolved who None]))
    by (unfold processBatch; rewrite Hbusy; reflexivity).
  split; [exact H|]. intros schedule. cbn [run step]. rewrite H.
  destruct (run w schedule). reflexivity.
Qed.

Lemma processBatch_rejected_while_running_witness :
  let w := running 1 {| total := 2; processed := 1; valid := 1; live := 0;
                        dead := 1 |} [a_good_line] in
  isProcessing w = true
  /\ processBatch a_turn [a_good_line] 2 w = (w, [Resolved 2 None]).
Proof.
  intros w. split; [reflexivity|].
  exact (proj1 (processBatch_rejected_while_running
                  w a_turn [a_good_line] 2 eq_refl)).
Defined.

(** Whatever a turn of the loop hands out is the batch state it leaves
    behind; the tally relations survive it, and [processed] moves by no
    more than the records the turn went through. *)
Lemma loop_counters (t : Turn) (who : nat) (records : list str) :
  forall (w : World) (b : BatchState),
  currentBatch w = Some b ->
  exists b',
    currentBatch (fst (loop t records who w)) = Some b'
    /\ (forall e, In e (snd (loop t records who w)) ->
                  snapshot e = None \/ snapshot e = Some b')
    /\ total b' = total b
    /\ (counters_tally b -> counters_tally b')
    /\ ((timers (fst (loop t records who w)) = timers w
         /\ processed b' <= processed b + List.length records)
        \/ (exists rest,
              timers (fst (loop t records who w))
              = timers w ++ [{| pending := rest; caller := who |}]
              /\ processed b' + List.length rest
                 <= processed b + List.length records)).
Proof.
  induction records as [|line rest IH]; intros w b Hb.
  - exists b. cbn [loop finish fst snd currentBatch timers].
    split; [exact Hb|].
    split; [intros e [<-|[]]; right; exact Hb|].
    split; [reflexivity|]. split; [tauto|].
    left. split; [reflexivity|lia].
  - cbn [loop]. destruct (isProcessing w) eqn:Hp; cbn [negb].
    + rewrite Hb. destruct (truthy (trim line)); cbn [negb].
      * destruct (CCValidator.valid _); [destruct (simulateStatus _)|];
          (eexists; cbn [fst snd currentBatch timers]; split; [reflexivity|];
           split; [intros e He; cbn in He;
                   repeat (destruct He as [<-|He]; [cbn; tauto|]);
                   contradiction|];
           split; [reflexivity|];
           split; [unfold counters_tally; cbn; lia|];
           right; exists rest; split; [reflexivity|cbn; lia]).
      * destruct (IH {| isProcessing := true;
                        currentBatch := Some (incr_processed b);
                        timers := timers w |} (incr_processed b) eq_refl)
          as (b' & Hc & Hev & Htot & Htally & Hq).
        exists b'. split; [exact Hc|]. split; [exact Hev|].
        split; [exact Htot|].
        split; [intros Hold; apply Htally; unfold counters_tally in *;
                cbn; lia|].
        cbn [timers processed incr_processed] in Hq.
        destruct Hq as [[Hq Hle]|(rest' & Hq & Hle)].
        -- left. split; [exact Hq|cbn; lia].
        -- right. exists rest'. split; [exact Hq|cbn; lia].
    + exists b. cbn [finish fst snd currentBatch timers].
      split; [exact Hb|].
      split; [intros e [<-|[]]; right; exact Hb|].
      split; [reflexivity|]. split; [tauto|].
      left. split; [reflexivity|cbn [List.length]; lia].
Qed.

End BatchLoop.

(* ================================================================== *)
(** ** The counters of a batch                                         *)
(* ================================================================== *)

Section Counters.

Import Batch.

(** Before any batch was started there is nothing to hand out. *)
Lemma loop_without_batch (t : Turn) (who : nat) (records : list str)
  (w : World) :
  currentBatch w = None ->
  currentBatch (fst (loop t records who w)) = None
  /\ (forall e, In e (snd (loop t records who w)) -> snapshot e = None).
Proof.
  intros Hb. destruct records as [|line rest]; cbn [loop].
  - cbn. rewrite Hb. split; [reflexivity|]. intros e [<-|[]]. reflexivity.
  - destruct (isProcessing w); cbn [negb].
    + rewrite Hb. cbn. split; [assumption|]. intros e [<-|[]]. reflexivity.
    + cbn. rewrite Hb. split; [reflexivity|]. intros e [<-|[]]. reflexivity.
Qed.

Lemma step_keeps_tally (w : World) (a : Action) :
  tally_kept w ->
  tally_kept (fst (step w a))
  /\ (forall e b, In e (snd (step w a)) -> snapshot e = Some b ->
                  counters_tally b).
Proof.
  intros Hw.
  assert (Hloop : forall t who records w0,
            tally_kept w0 ->
            tally_kept (fst (loop t records who w0))
            /\ (forall e b, In e (snd (loop t records who w0)) ->
                            snapshot e = Some b -> counters_tally b)).
  { intros t who records w0 H0. destruct (currentBatch w0) as [b0|] eqn:E.
    - destruct (loop_counters t who records w0 b0 E)
        as (b' & Hc & Hev & _ & Htally & _).
      specialize (Htally (H0 b0 E)). split.
      + intros b Hb. congruence.
      + intros e b He Hs. destruct (Hev e He); congruence.
    - destruct (loop_without_batch t who records w0 E) as [Hc Hev]. split.
      + intros b Hb. congruence.
      + intros e b He Hs. rewrite (Hev e He) in Hs. discriminate. }
  destruct a as [t cardsData who| |t]; cbn [step].
  - unfold processBatch. destruct (isProcessing w).
    + cbn. split; [assumption|]. intros e b [<-|[]]; discriminate.
    + apply Hloop. intros b Hb. cbn in Hb. injection Hb as <-.
      unfold counters_tally; cbn; lia.
  - cbn. split; [assumption|]. intros e b [].
  - unfold resume. destruct (timers w) as [|a later].
    + cbn. split; [assumption|]. intros e b [].
    + apply Hloop. exact Hw.
Qed.

(** Under every schedule, from a new validator on: whatever batch state
    is handed out or left behind has [live + dead = valid] and
    [valid <= processed]. *)
Lemma run_keeps_tally (schedule : list Action) :
  forall w, tally_kept w ->
  tally_kept (fst (run w schedule))
  /\ (forall e b, In e (snd (run w schedule)) -> snapshot e = Some b ->
                  counters_tally b).
Proof.
  induction schedule as [|a rest IH]; intros w Hw; cbn [run].
  - cbn. split; [assumption|]. intros e b [].
  - destruct (step_keeps_tally w a Hw) as [H1 He1].
    destruct (step w a) as [w1 evs1] eqn:E1. cbn [fst snd] in *.
    destruct (IH w1 H1) as [H2 He2].
    destruct (run w1 rest) as [w2 evs2]. cbn [fst snd] in *.
    split; [assumption|]. intros e b He Hs.
    apply in_app_or in He as [He|He]; eauto.
Qed.

Lemma loop_one_batch (t : Turn) (who : nat) (records : list str)
  (w : World) (b : BatchState) :
  currentBatch w = Some b -> timers w = [] -> counters_tally b ->
  processed b + List.length records <= total b ->
  one_batch (fst (loop t records who w))
  /\ (forall e b', In e (snd (loop t records who w)) ->
                   snapshot e = Some b' -> counters_ok b').
Proof.
  intros Hb Hq Htally Hle.
  destruct (loop_counters t who records w b Hb)
    as (b' & Hc & Hev & Htot & Hkeep & Hpend).
  specialize (Hkeep Htally). rewrite Hq in Hpend. cbn [app] in Hpend.
  assert (Hok : counters_ok b').
  { destruct Hkeep as [H1 H2]. unfold counters_ok.
    destruct Hpend as [[_ H]|(rest & _ & H)]; repeat split; lia. }
  split.
  - exists b'. split; [assumption|]. split; [assumption|].
    destruct Hpend as [[Ht H]|(rest & Ht & H)].
    + left. split; [assumption|lia].
    + right. exists who, rest. split; [assumption|lia].
  - intros e b0 He Hs. destruct (Hev e He); congruence.
Qed.

Lemma step_one_batch (w : World) (a : Action) :
  starts_nothing a -> one_batch w ->
  one_batch (fst (step w a))
  /\ (forall e b, In e (snd (step w a)) -> snapshot e = Some b ->
                  counters_ok b).
Proof.
  intros Ha (b & Hb & Htally & Hq).
  destruct a as [t cardsData who| |t]; cbn [step starts_nothing] in *.
  - contradiction.
  - cbn. split; [|intros e b0 []]. exists b. cbn. auto.
  - unfold resume. destruct Hq as [[Hq Hle]|(who & rest & Hq & Hle)];
      rewrite Hq.
    + cbn. split; [|intros e b0 []]. exists b. auto.
    + cbn [pending caller]. apply (loop_one_batch t who rest _ b);
        cbn; auto.
Qed.

(** One batch at a time: started on a validator that is not processing
    and has no call waiting, then only timers and stop requests.  Every
    batch state handed to a callback or returned, completed or cancelled,
    and the one left behind, has [live + dead = valid] and
    [valid <= processed <= total]. *)
Lemma single_batch_counters_ok (w : World) (t : Turn) (cardsData : list str)
  (who : nat) (schedule : list Action) :
  isProcessing w = false -> timers w = [] ->
  Forall starts_nothing schedule ->
  let outcome := run w (CallProcessBatch t cardsData who :: schedule) in
  (forall e b, In e (snd outcome) -> snapshot e = Some b -> counters_ok b)
  /\ (forall b, currentBatch (fst outcome) = Some b -> counters_ok b).
Proof.
  intros Hidle Hq Hs. cbv zeta.
  assert (Hrun : forall sched, Forall starts_nothing sched ->
            forall w0, one_batch w0 ->
            one_batch (fst (run w0 sched))
            /\ (forall e b, In e (snd (run w0 sched)) ->
                            snapshot e = Some b -> counters_ok b)).
  { induction 1 as [|a rest Ha Hrest IH]; intros w0 H0; cbn [run].
    - cbn. split; [assumption|]. intros e b [].
    - destruct (step_one_batch w0 a Ha H0) as [H1 He1].
      destruct (step w0 a) as [w1 evs1]. cbn [fst snd] in *.
      destruct (IH w1 H1) as [H2 He2].
      destruct (run w1 rest) as [w2 evs2]. cbn [fst snd] in *.
      split; [assumption|]. intros e b He Hsn.
      apply in_app_or in He as [He|He]; eauto. }
  cbn [run step]. unfold processBatch. rewrite Hidle.
  match goal with
  | |- context [loop t cardsData who ?w0] =>
      destruct (loop_one_batch t who cardsData w0
                  {| total := List.length cardsData; processed := 0;
                     valid := 0; live := 0; dead := 0 |}) as [H1 He1];
      [ reflexivity | exact Hq | unfold counters_tally; cbn; lia
      | cbn; lia | ];
      destruct (loop t cardsData who w0) as [w1 evs1]
  end.
  cbn [fst snd] in *.
  destruct (Hrun schedule Hs w1 H1) as [H2 He2].
  destruct (run w1 schedule) as [w2 evs2]. cbn [fst snd] in *.
  split.
  - intros e b He Hsn. apply in_app_or in He as [He|He]; eauto.
  - intros b Hb. destruct H2 as (b2 & Hb2 & [T1 T2] & Hq2).
    assert (b = b2) by congruence. subst b2. unfold counters_ok.
    destruct Hq2 as [[_ H]|(? & ? & _ & H)]; repeat split; lia.
Qed.

(** For one: a batch of two, stopped after its second record. *)
Lemma cancelled_batch_counters_ok (b : BatchState) :
  currentBatch
    (fst (run constructed
              [ CallProcessBatch a_turn [a_good_line; a_good_line] 1;
                TimerFires a_turn; CallStopProcessing; TimerFires a_turn ]))
  = Some b ->
  counters_ok b.
Proof.
  assert (Hs : Forall starts_nothing
                 [TimerFires a_turn; CallStopProcessing; TimerFires a_turn])
    by (repeat constructor).
  apply (proj2 (single_batch_counters_ok
                  constructed a_turn [a_good_line; a_good_line] 1
                  [TimerFires a_turn; CallStopProcessing; TimerFires a_turn]
                  eq_refl eq_refl Hs)).
Qed.

(** C10, where the code departs from it.  A batch of three records is
    stopped while its first call waits on the timer and a batch of one is
    started at once: the flag is raised again before the waiting call
    looks at it, so that call goes on and counts its second record into
    the new batch.  Its progress callback receives [processed = 2] with
    [total = 1], and that is the state both promises resolve with. *)
Theorem processBatch_restart_overruns_total :
  let outcome := run constructed stop_then_restart in
  let overrun := {| total := 1; processed := 2; valid := 2; live := 0;
                    dead := 2 |} in
  progress_of 1 (snd outcome)
  = [ {| total := 3; processed := 1; valid := 1; live := 0; dead := 1 |};
      overrun ]
  /\ progress_of 2 (snd outcome)
     = [ {| total := 1; processed := 1; valid := 1; live := 0; dead := 1 |} ]
  /\ resolved_of 1 (snd outcome) = [Some overrun]
  /\ resolved_of 2 (snd outcome) = [Some overrun]
  /\ currentBatch (fst outcome) = Some overrun
  /\ ~ counters_ok overrun.
Proof.
  cbv zeta. repeat split; try (vm_compute; reflexivity).
  unfold counters_ok. cbn. lia.
Qed.

(** C5, where the code departs from it.  A batch of two records is
    stopped while its first call waits on the timer and a batch of four,
    none of its lines blank, is started at once; nobody stops that one.
    The flag is raised again before the waiting call of the first batch
    looks at it, so that call goes on, counts its second record into the
    new batch and, having no record left, lowers the flag on its return.
    The second batch finds it lowered after its second record: its
    progress callback is called twice for four records, with [processed]
    1 and then 3, and its promise resolves with [processed = 3]. *)
Theorem processBatch_restart_skips_progress :
  let outcome := run constructed stop_then_batch_of_four in
  let calls := progress_of 2 (snd outcome) in
  List.map processed calls = [1; 3]
  /\ List.map total calls = [4; 4]
  /\ List.length calls <> 4
  /\ progress_of 1 (snd outcome)
     = [ {| total := 2; processed := 1; valid := 1; live := 0; dead := 1 |};
         {| total := 4; processed := 2; valid := 2; live := 0; dead := 2 |} ]
  /\ resolved_of 2 (snd outcome)
     = [ Some {| total := 4; processed := 3; valid := 3; live := 0;
                 dead := 3 |} ]
  /\ fst outcome
     = idle (Some {| total := 4; processed := 3; valid := 3; live := 0;
                     dead := 3 |})
  /\ Forall non_blank
            [a_good_line; a_good_line; a_good_line; a_good_line].
Proof.
  cbv zeta. repeat split; try (vm_compute; reflexivity).
  - vm_compute. discriminate.
  - repeat constructor; vm_compute; discriminate.
Qed.

End Counters.

(* ================================================================== *)
(** ** Record lines: splitting, trimming, cleaning                     *)
(* ================================================================== *)

Section RecordLines.

Lemma split_nonempty (sep : N) (s : str) : split sep s <> [].
Proof.
  induction s as [|c s IH]; simpl; [discriminate|].
  destruct (code_eqb c sep); [discriminate|].
  destruct (split sep s); [contradiction|discriminate].
Qed.

Lemma split_parts_free (sep : N) (s : str) :
  Forall (fun p => ~ In sep p) (split sep s).
Proof.
  induction s as [|c s IH]; simpl.
  - constructor; [intros []|constructor].
  - unfold code_eqb. destruct (N.eqb_spec c sep) as [->|Hc].
    + constructor; [intros []|assumption].
    + destruct (split sep s) as [|p ps]; [constructor; [|constructor]|].
      * intros [H|[]]. congruence.
      * inversion IH as [|? ? Hp Hps]; subst. constructor; [|assumption].
        intros [H|H]; [congruence|contradiction].
Qed.

Lemma join_split (sep : N) (s : str) : join sep (split sep s) = s.
Proof.
  induction s as [|c s IH]; [reflexivity|]. simpl.
  pose proof (split_nonempty sep s) as Hne.
  unfold code_eqb. destruct (N.eqb_spec c sep) as [->|Hc];
    destruct (split sep s) as [|p ps] eqn:E; try contradiction.
  - rewrite <- IH. reflexivity.
  - rewrite <- IH. destruct ps; reflexivity.
Qed.

Lemma split_free (sep : N) (p : str) :
  ~ In sep p -> split sep p = [p].
Proof.
  induction p as [|c p IHp]; intros Hp; simpl; [reflexivity|].
  unfold code_eqb. destruct (N.eqb_spec c sep) as [->|Hc].
  - exfalso. apply Hp. now left.
  - rewrite IHp by (intros H; apply Hp; now right). reflexivity.
Qed.

Lemma split_app_sep (sep : N) (p tail : str) :
  ~ In sep p -> split sep (p ++ sep :: tail) = p :: split sep tail.
Proof.
  induction p as [|c p IHp]; intros Hp; simpl.
  - unfold code_eqb. now rewrite N.eqb_refl.
  - unfold code_eqb. destruct (N.eqb_spec c sep) as [->|Hc].
    + exfalso. apply Hp. now left.
    + rewrite IHp by (intros H; apply Hp; now right). reflexivity.
Qed.

Lemma split_join (sep : N) (parts : list str) :
  parts <> [] -> Forall (fun p => ~ In sep p) parts ->
  split sep (join sep parts) = parts.
Proof.
  induction parts as [|p parts IH]; intros Hne Hfree; [contradiction|].
  inversion Hfree as [|? ? Hp Hparts]; subst.
  destruct parts as [|q parts]; [now apply split_free|].
  change (join sep (p :: q :: parts))
    with (p ++ sep :: join sep (q :: parts)).
  rewrite split_app_sep by assumption. f_equal.
  apply IH; [discriminate|assumption].
Qed.

Lemma drop_while_snoc (p : N -> bool) (l : str) (c : N) :
  p c = false -> drop_while p (l ++ [c]) = drop_while p l ++ [c].
Proof.
  intros Hc. induction l as [|x l IH]; simpl; [now rewrite Hc|].
  destruct (p x); [assumption|reflexivity].
Qed.

Lemma drop_while_idem (p : N -> bool) (l : str) :
  drop_while p (drop_while p l) = drop_while p l.
Proof.
  induction l as [|x l IH]; simpl; [reflexivity|].
  destruct (p x) eqn:E; [assumption|]. simpl. now rewrite E.
Qed.

Lemma drop_while_head (p : N -> bool) (l : str) :
  drop_while p l = []
  \/ exists c r, drop_while p l = c :: r /\ p c = false.
Proof.
  induction l as [|x l IH]; simpl; [now left|].
  destruct (p x) eqn:E; [assumption|]. right. now exists x, l.
Qed.

(** The shape of a trimmed string: empty, or a non-white-space first
    unit before a tail that itself ends in a non-white-space unit. *)
Lemma trim_shape (s : str) :
  trim s = []
  \/ exists c r, drop_while is_white_space s = c :: r
                 /\ is_white_space c = false
                 /\ trim s = c :: rev (drop_while is_white_space (rev r)).
Proof.
  unfold trim. destruct (drop_while_head is_white_space s)
    as [E|(c & r & E & Hc)]; rewrite E; [now left|].
  right. exists c, r. split; [reflexivity|]. split; [assumption|].
  cbn [rev]. rewrite (drop_while_snoc _ _ _ Hc), rev_app_distr. reflexivity.
Qed.

Lemma trim_idempotent (s : str) : trim (trim s) = trim s.
Proof.
  destruct (trim_shape s) as [E|(c & r & _ & Hc & E)]; rewrite E;
    [reflexivity|].
  unfold trim. cbn [drop_while]. rewrite Hc. cbn [rev].
  rewrite rev_involutive, (drop_while_snoc _ _ _ Hc), drop_while_idem.
  rewrite rev_app_distr. reflexivity.
Qed.

Lemma drop_while_incl (p : N -> bool) (l : str) (x : N) :
  In x (drop_while p l) -> In x l.
Proof.
  induction l as [|y l IH]; simpl; [tauto|].
  destruct (p y); [intros H; right; now apply IH|tauto].
Qed.

Lemma trim_incl (s : str) (x : N) : In x (trim s) -> In x s.
Proof.
  unfold trim. intros H. apply in_rev in H.
  apply drop_while_incl in H. apply in_rev in H.
  now apply drop_while_incl in H.
Qed.

Lemma nth_error_field (parts : list str) (k : nat) :
  Forall field parts -> field (or_empty (nth_error parts k)).
Proof.
  intros H. destruct (nth_error parts k) as [p|] eqn:E; simpl.
  - apply nth_error_In in E. rewrite Forall_forall in H. now apply H.
  - split; [reflexivity|intros []].
Qed.

(** X1. Whatever the line, the four fields [extractCardData] returns
    carry no white space at either end and no [|]. *)
Theorem extractCardData_fields (cardData : str) :
  let d := extractCardData cardData in
  field (number d) /\ field (month d) /\ field (year d) /\ field (cvv d).
Proof.
  assert (H : Forall field (List.map trim (split 124 cardData))).
  { apply Forall_map. pose proof (split_parts_free 124 cardData) as Hf.
    rewrite Forall_forall in *. intros p Hp. split.
    - apply trim_idempotent.
    - intros Hin. apply (Hf p Hp). now apply trim_incl. }
  cbv zeta. unfold extractCardData. cbn [number month year cvv].
  repeat split; apply nth_error_field; exact H.
Qed.

(** X2. Four fields written on a line with [|] between them are read
    back as they are; a line with fewer fields reads the missing ones as
    empty, and what follows a fourth [|] is ignored. *)
Theorem extractCardData_round_trip (n m y c : str) :
  field n -> field m -> field y -> field c ->
  extractCardData (join 124 [n; m; y; c])
  = {| number := n; month := m; year := y; cvv := c |}
  /\ extractCardData (join 124 [n; m])
     = {| number := n; month := m; year := []; cvv := [] |}
  /\ (forall more, Forall pipe_free more ->
        extractCardData (join 124 (n :: m :: y :: c :: more))
        = {| number := n; month := m; year := y; cvv := c |}).
Proof.
  intros [Tn Pn] [Tm Pm] [Ty Py] [Tc Pc].
  assert (Hall : forall more, Forall pipe_free more ->
            extractCardData (join 124 (n :: m :: y :: c :: more))
            = {| number := n; month := m; year := y; cvv := c |}).
  { intros more Hmore. unfold extractCardData.
    rewrite split_join; [|discriminate|].
    - cbn [List.map nth_error or_empty]. now rewrite Tn, Tm, Ty, Tc.
    - repeat (constructor; [assumption|]). exact Hmore. }
  split; [apply (Hall []); constructor|]. split; [|exact Hall].
  unfold extractCardData.
  rewrite split_join; [|discriminate|].
  - cbn [List.map nth_error or_empty]. now rewrite Tn, Tm.
  - repeat (constructor; [assumption|]). constructor.
Qed.

Lemma extractCardData_round_trip_witness :
  field (lit "4111 1111 1111 1111") /\ field (lit "12")
  /\ field (lit "2030") /\ field (lit "123")
  /\ extractCardData (lit "4111 1111 1111 1111|12|2030|123")
     = {| number := lit "4111 1111 1111 1111"; month := lit "12";
          year := lit "2030"; cvv := lit "123" |}.
Proof.
  assert (Hf : forall s, trim (lit s) = lit s ->
                         existsb (N.eqb 124) (lit s) = false ->
                         field (lit s)).
  { intros s Ht Hp. split; [exact Ht|]. intros Hin.
    assert (E : existsb (N.eqb 124) (lit s) = true)
      by (apply existsb_exists; exists 124%N; split;
          [assumption|apply N.eqb_refl]).
    rewrite Hp in E. discriminate E. }
  assert (Hn : field (lit "4111 1111 1111 1111")) by (apply Hf; reflexivity).
  assert (Hm : field (lit "12")) by (apply Hf; reflexivity).
  assert (Hy : field (lit "2030")) by (apply Hf; reflexivity).
  assert (Hc : field (lit "123")) by (apply Hf; reflexivity).
  repeat (split; [assumption|]).
  exact (proj1 (extractCardData_round_trip _ _ _ _ Hn Hm Hy Hc)).
Defined.

(** X3. [cleanCardNumber] keeps the digits, in order, and nothing else:
    its result is digit-only, it leaves exactly the digit-only strings
    unchanged (so cleaning twice changes nothing more), and it never
    lengthens its argument. *)
Theorem cleanCardNumber_digits (cardNumber : str) :
  normalized (cleanCardNumber cardNumber)
  /\ (cleanCardNumber cardNumber = cardNumber <-> normalized cardNumber)
  /\ cleanCardNumber (cleanCardNumber cardNumber) = cleanCardNumber cardNumber
  /\ (List.length (cleanCardNumber cardNumber) <= List.length cardNumber)%nat
  /\ (forall a b, cleanCardNumber (a ++ b)
                  = cleanCardNumber a ++ cleanCardNumber b)%list.
Proof.
  unfold cleanCardNumber, normalized.
  assert (Hn : forall s, forallb is_digit (filter is_digit s) = true).
  { intros s. apply forallb_forall. intros x Hx.
    now apply filter_In in Hx. }
  assert (Hfix : forall s, forallb is_digit s = true -> filter is_digit s = s).
  { induction s as [|c s IH]; simpl; [reflexivity|].
    intros H. apply andb_true_iff in H as [Hc Hs]. rewrite Hc.
    now rewrite IH. }
  split; [apply Hn|]. split; [|split; [|split]].
  - split; [intros <-; apply Hn|apply Hfix].
  - apply Hfix, Hn.
  - apply filter_length_le.
  - intros a b. apply filter_app.
Qed.

End RecordLines.

(* ================================================================== *)
(** ** CVV                                                             *)
(* ================================================================== *)

Section CVV.

Local Open Scope string_scope.

Lemma iterate_optional_empty (e : nat) (s : str) :
  In [] (iterate (suffixes digit) 0 e s)
  <-> normalized s /\ (List.length s <= e)%nat.
Proof.
  unfold normalized. revert s; induction e as [|e IH]; intros s.
  - change (iterate (suffixes digit) 0 0 s) with [s]. simpl.
    split.
    + intros [->|[]]. split; [reflexivity|simpl; lia].
    + intros [_ H]. destruct s; [now left|simpl in H; lia].
  - change (iterate (suffixes digit) 0 (S e) s)
      with (s :: flat_map (iterate (suffixes digit) 0 e)
                          (suffixes digit s)).
    destruct s as [|x r].
    + split; [intros _; split; [reflexivity|simpl; lia]|intros _; now left].
    + cbn [suffixes digit forallb]. fold (is_digit x).
      destruct (is_digit x) eqn:Hx; cbn [flat_map andb].
      * rewrite app_nil_r. split.
        -- intros [H|H]; [discriminate|]. apply IH in H as [Hr Hl].
           split; [assumption|simpl; lia].
        -- intros [Hr Hl]. right. apply IH. split; [assumption|].
           simpl in Hl. lia.
      * split; [intros [H|[]]; discriminate|intros [H _]; discriminate].
Qed.

(** [/^\\d+$/.test(s)]: some digits and nothing else. *)
Lemma test_digits (s : str) :
  test (Plus digit) s = true <-> s <> [] /\ normalized s.
Proof.
  unfold test. rewrite existsb_exists.
  assert (Hempty : forall l : list str,
            (exists rest, In rest l /\ negb (truthy rest) = true)
            <-> In [] l).
  { intros l. split.
    - intros (rest & Hin & Hr). destruct rest; [assumption|discriminate].
    - intros H. now exists []. }
  rewrite Hempty. cbn [suffixes iterate].
  destruct s as [|x r].
  - simpl. split; [intros []|intros [H _]; contradiction].
  - cbn [suffixes digit]. fold (is_digit x). unfold normalized.
    cbn [forallb].
    destruct (is_digit x) eqn:Hx; cbn [flat_map andb].
    + rewrite app_nil_r.
      change ((fix optional (e : nat) (s : str) {struct e} : list str :=
                 match e with
                 | 0%nat => [s]
                 | S e' => s :: flat_map (optional e') (suffixes digit s)
                 end) (List.length (x :: r)) r)
        with (iterate (suffixes digit) 0 (List.length (x :: r)) r).
      rewrite iterate_optional_empty. unfold normalized. split.
      * intros [Hr _]. split; [discriminate|assumption].
      * intros [_ Hr]. split; [assumption|simpl; lia].
    + simpl. split; [intros []|intros [_ H]; discriminate].
Qed.

Lemma existsb_length (k : nat) (ls : list nat) :
  existsb (Nat.eqb k) ls = true <-> In k ls.
Proof.
  rewrite existsb_exists. split.
  - intros (x & Hin & Hx). apply Nat.eqb_eq in Hx. now subst.
  - intros H. exists k. split; [assumption|apply Nat.eqb_refl].
Qed.

(** Every network of the registry asks for three digits, American
    Express for four; an undetected number is asked for three. *)
Lemma detectCardType_cvvLength (cardNumber : str) :
  cvvLength (detectCardType cardNumber)
  = Some [if String.eqb (match type (detectCardType cardNumber) with
                         | Some key => key
                         | None => ""
                         end) "amex"
          then 4 else 3]%nat.
Proof.
  unfold detectCardType, cardPatterns. cbn [detect_in].
  repeat match goal with
         | |- context [if pattern_test ?i ?n then _ else _] =>
             destruct (pattern_test i n)
         end; reflexivity.
Qed.

Lemma validateCVV_iff (cvv : str) (info : CardInfo) :
  validateCVV cvv info = true <->
  normalized cvv
  /\ In (List.length cvv)
        (match cvvLength info with Some ls => ls | None => [3%nat] end)
  /\ cvv <> [].
Proof.
  unfold validateCVV. destruct cvv as [|x r] eqn:E.
  - simpl. split; [discriminate|intros (_ & _ & H); contradiction].
  - cbn [truthy negb]. rewrite andb_true_iff, existsb_length, test_digits.
    tauto.
Qed.

(** X4. [validateCVV] passes exactly the digit-only strings whose length
    is one of the profile's [cvvLength] (3 when the profile has none); for
    the profile [detectCardType] returns that is 4 digits for American
    Express and 3 digits for every other network and for an undetected
    number.  The empty string never passes. *)
Theorem validateCVV_digits_of_length (cvv : str) (cardInfo : CardInfo) :
  (validateCVV cvv cardInfo = true <->
   normalized cvv
   /\ In (List.length cvv)
         (match cvvLength cardInfo with Some ls => ls | None => [3%nat] end)
   /\ cvv <> [])
  /\ (forall cardNumber,
        validateCVV cvv (detectCardType cardNumber) = true <->
        normalized cvv
        /\ List.length cvv
           = if String.eqb (match type (detectCardType cardNumber) with
                            | Some key => key
                            | None => ""
                            end) "amex"
             then 4%nat else 3%nat)
  /\ validateCVV [] cardInfo = false.
Proof.
  split; [apply validateCVV_iff|]. split; [|reflexivity].
  intros cardNumber. rewrite validateCVV_iff, detectCardType_cvvLength.
  cbn [In]. split.
  - intros (Hn & [H|[]] & _). split; [assumption|now symmetry].
  - intros [Hn Hl]. split; [assumption|]. split; [left; now symmetry|].
    intros ->. simpl in Hl. destruct (String.eqb _ _); discriminate.
Qed.

End CVV.

(* ================================================================== *)
(** ** What the Luhn check catches                                     *)
(* ================================================================== *)

Section LuhnErrors.

Lemma weighted_sum_app (l1 l2 : list Z) (k : nat) :
  weighted_sum (l1 ++ l2) k
  = (weighted_sum l1 k + weighted_sum l2 (k + List.length l1))%Z.
Proof.
  revert k; induction l1 as [|d l1 IH]; intros k; simpl.
  - now rewrite Nat.add_0_r.
  - rewrite IH. replace (S k + List.length l1)%nat
      with (k + S (List.length l1))%nat by lia. lia.
Qed.

(** The sum of a number, split at one of its digits. *)
Lemma luhn_sum_at (a b : str) (x : N) :
  luhn_sum (a ++ x :: b)
  = (weighted_sum (rev (List.map digit_value b)) 0
     + luhn_weight (List.length b) (digit_value x)
     + weighted_sum (rev (List.map digit_value a)) (S (List.length b)))%Z.
Proof.
  unfold luhn_sum, luhn_weight. rewrite map_app, rev_app_distr.
  cbn [List.map rev]. rewrite <- app_assoc, !weighted_sum_app.
  cbn [weighted_sum app List.length]. rewrite length_rev, length_map.
  rewrite Nat.add_0_l, Nat.add_1_r. lia.
Qed.

Lemma luhnCheck_divides (s : str) :
  normalized s -> (12 <= List.length s <= 19)%nat ->
  luhnCheck s = true <-> (10 | luhn_sum s)%Z.
Proof.
  intros Hs Hlen. unfold luhnCheck, luhn_sum. rewrite length_map.
  replace ((List.length s <? 12)%nat || (19 <? List.length s)%nat) with false
    by (symmetry; apply orb_false_iff; split; apply Nat.ltb_ge; lia).
  rewrite luhn_loop_weighted by (auto; lia).
  rewrite <- (length_map digit_value), firstn_all. cbn [Z.add].
  rewrite Z.eqb_eq. apply Z.rem_divide. discriminate.
Qed.

Lemma digit_value_range (c : N) :
  is_digit c = true -> (0 <= digit_value c <= 9)%Z.
Proof.
  unfold is_digit, digit_value. intros H.
  apply andb_true_iff in H as [H1 H2]. apply N.leb_le in H1, H2. lia.
Qed.

Lemma digit_value_inj (x y : N) :
  is_digit x = true -> is_digit y = true ->
  digit_value x = digit_value y -> x = y.
Proof.
  intros Hx Hy. pose proof (digit_value_range x Hx).
  pose proof (digit_value_range y Hy). unfold digit_value in *. lia.
Qed.

Lemma normalized_app (a b : str) :
  normalized (a ++ b) <-> normalized a /\ normalized b.
Proof. unfold normalized. rewrite forallb_app. apply andb_true_iff. Qed.

Lemma normalized_cons (x : N) (b : str) :
  normalized (x :: b) <-> is_digit x = true /\ normalized b.
Proof. unfold normalized. simpl. apply andb_true_iff. Qed.

Lemma ten_divides_small (z : Z) :
  (10 | z)%Z -> (-9 <= z <= 9)%Z -> z = 0%Z.
Proof. intros [q Hq] Hz. lia. Qed.

(** On the digits 0..9 each weight is one-to-one, and stays within 0..9. *)
Lemma luhn_weight_inj (k : nat) (d e : Z) :
  (0 <= d <= 9)%Z -> (0 <= e <= 9)%Z ->
  (0 <= luhn_weight k d <= 9)%Z
  /\ (luhn_weight k d = luhn_weight k e -> d = e).
Proof.
  intros Hd He. unfold luhn_weight, doubled.
  destruct (Nat.odd k); [|lia].
  destruct (Z.ltb_spec 9 (2 * d)); destruct (Z.ltb_spec 9 (2 * e)); lia.
Qed.

(** X5. One wrong digit is always caught: if a number of 12 to 19
    digits passes [luhnCheck], the number obtained by replacing any one of
    its digits by a different digit does not. *)
Theorem luhnCheck_catches_one_wrong_digit (a b : str) (x y : N) :
  normalized (a ++ x :: b) -> is_digit y = true -> x <> y ->
  (12 <= List.length (a ++ x :: b) <= 19)%nat ->
  luhnCheck (a ++ x :: b) = true ->
  luhnCheck (a ++ y :: b) = false.
Proof.
  intros Hs Hy Hxy Hlen Hok.
  apply normalized_app in Hs as [Ha Hxb].
  apply normalized_cons in Hxb as [Hx Hb].
  assert (Hs' : normalized (a ++ y :: b))
    by (apply normalized_app; split; [|apply normalized_cons]; auto).
  assert (Hlen' : (12 <= List.length (a ++ y :: b) <= 19)%nat)
    by (rewrite length_app in *; exact Hlen).
  apply (luhnCheck_divides _ (proj2 (normalized_app _ _)
           (conj Ha (proj2 (normalized_cons _ _) (conj Hx Hb)))) Hlen) in Hok.
  destruct (luhnCheck (a ++ y :: b)) eqn:E; [exfalso|reflexivity].
  apply (luhnCheck_divides _ Hs' Hlen') in E.
  rewrite luhn_sum_at in Hok, E.
  pose proof (digit_value_range x Hx) as Rx.
  pose proof (digit_value_range y Hy) as Ry.
  destruct (luhn_weight_inj (List.length b) _ _ Rx Ry) as [Wx Inj].
  destruct (luhn_weight_inj (List.length b) _ _ Ry Rx) as [Wy _].
  assert (D : (10 | luhn_weight (List.length b) (digit_value x)
                    - luhn_weight (List.length b) (digit_value y))%Z).
  { destruct Hok as [q Hq], E as [q' Hq']. exists (q - q')%Z. lia. }
  apply ten_divides_small in D; [|lia].
  apply Hxy, digit_value_inj; auto. apply Inj. lia.
Qed.

Lemma luhnCheck_catches_one_wrong_digit_witness :
  luhnCheck (lit "453914" ++ N_of_ascii "7" :: lit "803436467") = false.
Proof.
  apply (luhnCheck_catches_one_wrong_digit
           (lit "453914") (lit "803436467")
           (N_of_ascii "8") (N_of_ascii "7"));
    [reflexivity|reflexivity|discriminate
    |vm_compute; split; repeat constructor|reflexivity].
Defined.

(** X6. Two neighbouring digits written in the wrong order are caught,
    unless they are 0 and 9: if a number of 12 to 19 digits passes
    [luhnCheck], the number with two different adjacent digits swapped
    does not, the pair 0,9 apart. *)
Theorem luhnCheck_catches_swapped_neighbours (a b : str) (x y : N) :
  normalized (a ++ x :: y :: b) -> x <> y ->
  ~ (x = 48 /\ y = 57)%N -> ~ (x = 57 /\ y = 48)%N ->
  (12 <= List.length (a ++ x :: y :: b) <= 19)%nat ->
  luhnCheck (a ++ x :: y :: b) = true ->
  luhnCheck (a ++ y :: x :: b) = false.
Proof.
  intros Hs Hxy H09 H90 Hlen Hok.
  assert (Hs0 := Hs).
  apply normalized_app in Hs as [Ha Hxb].
  apply normalized_cons in Hxb as [Hx Hyb].
  apply normalized_cons in Hyb as [Hy Hb].
  assert (Hs' : normalized (a ++ y :: x :: b)).
  { apply normalized_app; split; [assumption|].
    apply normalized_cons; split; [assumption|].
    apply normalized_cons; split; assumption. }
  assert (Hlen' : (12 <= List.length (a ++ y :: x :: b) <= 19)%nat)
    by (rewrite length_app in *; exact Hlen).
  apply (luhnCheck_divides _ Hs0 Hlen) in Hok.
  destruct (luhnCheck (a ++ y :: x :: b)) eqn:E; [exfalso|reflexivity].
  apply (luhnCheck_divides _ Hs' Hlen') in E.
  replace (a ++ x :: y :: b) with ((a ++ [x]) ++ y :: b) in Hok
    by (rewrite <- app_assoc; reflexivity).
  replace (a ++ y :: x :: b) with ((a ++ [y]) ++ x :: b) in E
    by (rewrite <- app_assoc; reflexivity).
  rewrite luhn_sum_at in Hok, E.
  rewrite !map_app, !rev_app_distr in Hok, E.
  cbn [List.map rev app weighted_sum] in Hok, E.
  fold (luhn_weight (S (List.length b)) (digit_value x)) in Hok.
  fold (luhn_weight (S (List.length b)) (digit_value y)) in E.
  pose proof (digit_value_range x Hx) as Rx.
  pose proof (digit_value_range y Hy) as Ry.
  assert (D : (10 | (luhn_weight (List.length b) (digit_value y)
                     + luhn_weight (S (List.length b)) (digit_value x))
                    - (luhn_weight (List.length b) (digit_value x)
                       + luhn_weight (S (List.length b)) (digit_value y)))%Z).
  { destruct Hok as [q Hq], E as [q' Hq']. exists (q - q')%Z. lia. }
  assert (Hvx : digit_value x <> digit_value y)
    by (intros H; apply Hxy, digit_value_inj; auto).
  unfold digit_value in *.
  unfold luhn_weight, doubled in D. rewrite Nat.odd_succ in D.
  rewrite <- Nat.negb_odd in D.
  revert D.
  destruct (Nat.odd (List.length b)); cbn [negb]; intros [q D];
    destruct (Z.ltb_spec 9 (2 * (Z.of_N x - 48)));
    destruct (Z.ltb_spec 9 (2 * (Z.of_N y - 48))); lia.
Qed.

Lemma luhnCheck_catches_swapped_neighbours_witness :
  luhnCheck (lit "45391488034364" ++ N_of_ascii "7" :: N_of_ascii "6" :: [])
  = false.
Proof.
  apply (luhnCheck_catches_swapped_neighbours
           (lit "45391488034364") [] (N_of_ascii "6") (N_of_ascii "7"));
    [reflexivity|discriminate|intros [H _]; discriminate
    |intros [H _]; discriminate
    |vm_compute; split; repeat constructor|reflexivity].
Defined.

(** X7. Every payload of 11 to 18 digits has exactly one check digit:
    among the digits, [check_digit payload] and no other completes it to
    a number that passes [luhnCheck]. *)
Theorem luhnCheck_check_digit (payload : str) (c : N) :
  normalized payload -> (11 <= List.length payload <= 18)%nat ->
  is_digit c = true ->
  is_digit (check_digit payload) = true
  /\ (luhnCheck (payload ++ [c]) = true <-> c = check_digit payload).
Proof.
  intros Hp Hlen Hc.
  assert (Hs : forall d, is_digit d = true -> normalized (payload ++ [d])).
  { intros d Hd. apply normalized_app; split; [assumption|].
    apply normalized_cons; split; [assumption|reflexivity]. }
  assert (Hl : forall d, (12 <= List.length (payload ++ [d]) <= 19)%nat)
    by (intros d; rewrite length_app; simpl; lia).
  rewrite (luhnCheck_divides _ (Hs c Hc) (Hl c)).
  unfold check_digit. rewrite !luhn_sum_at.
  unfold luhn_weight.
  cbn [List.map rev weighted_sum List.length Nat.odd Nat.even negb].
  set (W := weighted_sum (rev (List.map digit_value payload)) 1).
  change (digit_value 48) with 0%Z.
  pose proof (digit_value_range c Hc) as Rc. unfold digit_value in *.
  pose proof (Z.mod_pos_bound (0 + 0 + W) 10 ltac:(lia)) as Hm.
  pose proof (Z.div_mod (0 + 0 + W) 10 ltac:(lia)) as HW.
  set (r := ((0 + 0 + W) mod 10)%Z) in *.
  assert (Hk : exists k, ((10 - r) mod 10 = k /\ 0 <= k <= 9
                          /\ (10 | k + W))%Z).
  { destruct (Z.eq_dec r 0) as [Hr|Hr].
    - exists 0%Z. rewrite Hr. split; [reflexivity|]. split; [lia|].
      exists ((0 + 0 + W) / 10)%Z. lia.
    - exists (10 - r)%Z. split; [apply Z.mod_small; lia|]. split; [lia|].
      exists ((0 + 0 + W) / 10 + 1)%Z. lia. }
  destruct Hk as (k & -> & Rk & Hk10).
  assert (Hdig : is_digit (48 + Z.to_N k) = true).
  { unfold is_digit. apply andb_true_iff. split; apply N.leb_le; lia. }
  split; [exact Hdig|].
  split.
  - intros D. assert (D' : (10 | (Z.of_N c - 48) - k)%Z).
    { destruct D as [q Hq], Hk10 as [q' Hq']. exists (q - q')%Z. lia. }
    apply ten_divides_small in D'; lia.
  - intros ->. replace (0 + (Z.of_N (48 + Z.to_N k) - 48) + W)%Z
      with (k + W)%Z by lia. exact Hk10.
Qed.

Lemma luhnCheck_check_digit_witness :
  check_digit (lit "453914880343646") = N_of_ascii "7"
  /\ luhnCheck (lit "453914880343646" ++ [N_of_ascii "7"]) = true.
Proof.
  split; [reflexivity|].
  apply (proj2 (luhnCheck_check_digit
                  (lit "453914880343646") (N_of_ascii "7")
                  eq_refl
                  ltac:(vm_compute; split; repeat constructor)
                  eq_refl)).
  reflexivity.
Defined.

End LuhnErrors.

(* ================================================================== *)
(** ** What a verdict tells                                            *)
(* ================================================================== *)

Section Verdict.

Local Open Scope string_scope.

(** A success of the expiration validator, read backwards. *)
Lemma validateExpiration_valid (now : Clock) (month year : str) (m y : Z) :
  validateExpiration now month year = ExpValid m y ->
  parseInt month = Some m
  /\ (exists v, parseInt year = Some v /\ y = full_year year v)
  /\ (List.length year = 2 \/ List.length year = 4)%nat
  /\ (1 <= m <= 12)%Z
  /\ (current_year now <= y <= current_year now + 10)%Z
  /\ (y = current_year now -> current_month now <= m)%Z.
Proof.
  unfold validateExpiration, current_year, current_month.
  destruct (negb (truthy month) || negb (truthy year)); [discriminate|].
  destruct (parseInt month) as [mm|]; [|discriminate].
  destruct (Z.ltb_spec mm 1); [discriminate|].
  destruct (Z.ltb_spec 12 mm); [discriminate|]. cbn [orb].
  destruct (parseInt year) as [v|]; [|discriminate].
  assert (Hafter : forall fy,
    (if (fy <? getFullYear now)%Z then ExpInvalid "Card expired"
     else if (fy =? getFullYear now)%Z && (mm <? getMonth now + 1)%Z
          then ExpInvalid "Card expired"
          else if (getFullYear now + 10 <? fy)%Z
               then ExpInvalid "Expiration too far in future"
               else ExpValid mm fy) = ExpValid m y ->
    mm = m /\ fy = y
    /\ (getFullYear now <= fy <= getFullYear now + 10)%Z
    /\ (fy = getFullYear now -> getMonth now + 1 <= mm)%Z).
  { intros fy.
    destruct (Z.ltb_spec fy (getFullYear now)); [discriminate|].
    destruct (Z.eqb_spec fy (getFullYear now));
      destruct (Z.ltb_spec mm (getMonth now + 1)); cbn [andb];
      try discriminate;
      (destruct (Z.ltb_spec (getFullYear now + 10) fy); [discriminate|]);
      intros Eq; inversion Eq; subst; repeat split; lia. }
  unfold full_year.
  destruct (Nat.eqb_spec (List.length year) 2) as [L2|L2].
  - intros Eq. apply Hafter in Eq as (<- & <- & Hy & Hcm).
    split; [reflexivity|]. split; [now exists v|].
    split; [now left|]. repeat split; try lia.
  - destruct (Nat.eqb_spec (List.length year) 4) as [L4|L4];
      [|discriminate]. cbn [negb].
    intros Eq. apply Hafter in Eq as (<- & <- & Hy & Hcm).
    split; [reflexivity|]. split; [now exists v|].
    split; [now right|]. repeat split; try lia.
Qed.

(** X8. What a valid verdict guarantees about the line: the number
    field, cleaned, has 12 to 19 digits, is neither one digit repeated nor
    a two-digit block repeated, and has a Luhn sum divisible by 10; the
    month reported is in 1..12 and the year reported is the current one
    (then with a month not yet past) or one of the ten that follow; the
    CVV field is digits only, four of them for American Express and three
    otherwise; and the network reported is the one [detectCardType]
    finds. *)
Theorem validateCard_valid_means (now : Clock) (cardData : str) :
  CCValidator.valid (validateCard now cardData) = true ->
  let d := extractCardData cardData in
  let n := cleanCardNumber (number d) in
  (12 <= List.length n <= 19)%nat
  /\ normalized n
  /\ validateStructure n = true
  /\ (10 | luhn_sum n)%Z
  /\ (exists m y,
        expMonth (validateCard now cardData) = Some m
        /\ expYear (validateCard now cardData) = Some y
        /\ (1 <= m <= 12)%Z
        /\ (current_year now <= y <= current_year now + 10)%Z
        /\ (y = current_year now -> current_month now <= m)%Z)
  /\ normalized (cvv d)
  /\ List.length (cvv d)
     = (if String.eqb (match type (detectCardType n) with
                       | Some key => key
                       | None => ""
                       end) "amex"
        then 4 else 3)%nat
  /\ v_type (validateCard now cardData) = type (detectCardType n)
  /\ cardName (validateCard now cardData) = name (detectCardType n)
  /\ reason (validateCard now cardData) = None.
Proof.
  cbv zeta. unfold validateCard.
  set (d := extractCardData cardData).
  set (n := cleanCardNumber (number d)).
  assert (Hn : normalized n)
    by (unfold n, cleanCardNumber, normalized; apply forallb_forall;
        intros x Hx; now apply filter_In in Hx).
  destruct (truthy (number d)); cbn [negb]; [|discriminate].
  destruct (validateLength n) eqn:Hlen; cbn [negb]; [|discriminate].
  destruct (validateStructure n) eqn:Hst; cbn [negb]; [|discriminate].
  destruct (luhnCheck n) eqn:Hl; cbn [negb]; [|discriminate].
  assert (Hrange : (12 <= List.length n <= 19)%nat).
  { unfold validateLength in Hlen. apply andb_true_iff in Hlen as [H1 H2].
    apply Nat.leb_le in H1, H2. lia. }
  apply (luhnCheck_divides n Hn Hrange) in Hl.
  destruct (string_neqb (type (detectCardType n)) "unknown"
            && negb (validateBIN n (detectCardType n)));
    [discriminate|].
  destruct (validateExpiration now (month d) (year d)) as [why|m y] eqn:He;
    [discriminate|].
  destruct (validateCVV (cvv d) (detectCardType n)) eqn:Hc; cbn [negb];
    [|discriminate].
  intros _. cbn [expMonth expYear v_type cardName reason].
  apply validateExpiration_valid in He as (_ & _ & _ & Hm & Hy & Hcm).
  apply validateCVV_iff in Hc as (Hcn & Hcl & _).
  rewrite detectCardType_cvvLength in Hcl. destruct Hcl as [Hcl|[]].
  split; [exact Hrange|]. split; [exact Hn|]. split; [reflexivity|].
  split; [exact Hl|].
  split; [exists m, y; repeat split; try reflexivity; try lia; assumption|].
  split; [exact Hcn|]. split; [now symmetry|].
  repeat split; reflexivity.
Qed.

Lemma validateCard_valid_means_witness :
  (10 | luhn_sum (lit "4111111111111111"))%Z
  /\ expMonth (validateCard november_2026
                 (lit "4111 1111 1111 1111|12|2030|123")) = Some 12%Z.
Proof.
  destruct (validateCard_valid_means november_2026
              (lit "4111 1111 1111 1111|12|2030|123") eq_refl)
    as (_ & _ & _ & Hl & _).
  split; [exact Hl|reflexivity].
Defined.

End Verdict.

(* ================================================================== *)
(** ** What the orchestrator does not look at                          *)
(* ================================================================== *)

Section Formatting.

Lemma white_space_not_digit (c : N) :
  is_white_space c = true -> is_digit c = false.
Proof.
  intros Hw. destruct (is_digit c) eqn:Hd; [|reflexivity].
  unfold is_digit in Hd. apply andb_true_iff in Hd as [H1 H2].
  apply N.leb_le in H1, H2. unfold is_white_space in Hw.
  repeat (apply orb_true_iff in Hw as [Hw|Hw]);
    try (apply N.eqb_eq in Hw; lia).
  apply andb_true_iff in Hw as [Hw _]. apply N.leb_le in Hw. lia.
Qed.

Lemma clean_drop_while (s : str) :
  cleanCardNumber (drop_while is_white_space s) = cleanCardNumber s.
Proof.
  unfold cleanCardNumber. induction s as [|c s IH]; [reflexivity|].
  simpl. destruct (is_white_space c) eqn:Hw; [|reflexivity].
  now rewrite (white_space_not_digit c Hw).
Qed.

Lemma clean_rev (s : str) :
  cleanCardNumber (rev s) = rev (cleanCardNumber s).
Proof.
  unfold cleanCardNumber. induction s as [|c s IH]; [reflexivity|].
  simpl. rewrite filter_app, IH. simpl.
  destruct (is_digit c); [reflexivity|apply app_nil_r].
Qed.

Lemma clean_trim (s : str) : cleanCardNumber (trim s) = cleanCardNumber s.
Proof.
  unfold trim.
  rewrite clean_rev, clean_drop_while, clean_rev, rev_involutive.
  apply clean_drop_while.
Qed.

Lemma extractCardData_join (n m y c : str) :
  Forall pipe_free [n; m; y; c] ->
  extractCardData (join 124 [n; m; y; c])
  = {| number := trim n; month := trim m; year := trim y; cvv := trim c |}.
Proof.
  intros H. unfold extractCardData.
  rewrite split_join; [reflexivity|discriminate|exact H].
Qed.

(** X9. White space around the fields and characters other than digits
    inside the number field do not count: two lines whose number fields
    are both non-blank and hold the same digits in the same order, and
    whose month, year and CVV fields agree up to surrounding white space,
    get the same verdict. *)
Theorem validateCard_ignores_formatting (now : Clock)
  (n m y c n' m' y' c' : str) :
  Forall pipe_free [n; m; y; c] -> Forall pipe_free [n'; m'; y'; c'] ->
  non_blank n -> non_blank n' ->
  cleanCardNumber n = cleanCardNumber n' ->
  trim m = trim m' -> trim y = trim y' -> trim c = trim c' ->
  validateCard now (join 124 [n; m; y; c])
  = validateCard now (join 124 [n'; m'; y'; c']).
Proof.
  intros Hp Hp' Hn Hn' Hclean Hm Hy Hc. unfold validateCard.
  rewrite (extractCardData_join _ _ _ _ Hp).
  rewrite (extractCardData_join _ _ _ _ Hp').
  cbn [number month year cvv]. rewrite !clean_trim, Hclean, Hm, Hy, Hc.
  unfold non_blank in Hn, Hn'.
  destruct (trim n); [contradiction|].
  destruct (trim n'); [contradiction|]. reflexivity.
Qed.

Lemma validateCard_ignores_formatting_witness :
  validateCard november_2026 (lit " 4111-1111 1111-1111 | 12|2030 |123")
  = validateCard november_2026 (lit "4111111111111111|12|2030|123").
Proof.
  assert (Hf : forall a b c d : string,
            forallb (fun s => negb (existsb (N.eqb 124) s))
                    [lit a; lit b; lit c; lit d] = true ->
            Forall pipe_free [lit a; lit b; lit c; lit d]).
  { intros a b c d H. rewrite forallb_forall in H. apply Forall_forall.
    intros s Hs Hin. specialize (H s Hs). apply negb_true_iff in H.
    assert (E : existsb (N.eqb 124) s = true)
      by (apply existsb_exists; exists 124%N; split;
          [assumption|apply N.eqb_refl]).
    rewrite H in E. discriminate E. }
  apply (validateCard_ignores_formatting november_2026
           (lit " 4111-1111 1111-1111 ") (lit " 12") (lit "2030 ") (lit "123")
           (lit "4111111111111111") (lit "12") (lit "2030") (lit "123"));
    try (apply Hf; reflexivity); try reflexivity;
    unfold non_blank; vm_compute; discriminate.
Defined.

End Formatting.

(* ================================================================== *)
(** ** The batch loop: blank lines, cancellation, results              *)
(* ================================================================== *)

Section BatchMore.

Import Batch.


Lemma positions_from_length (k j : nat) (lines : list str) :
  List.length (positions_from k lines) = List.length (positions_from j lines).
Proof.
  revert k j; induction lines as [|l lines IH]; intros k j; simpl;
    [reflexivity|].
  destruct (truthy (trim l)); simpl; auto.
Qed.

(** One turn of the loop of a batch that is not stopped: it runs through
    blank lines, and either reaches the end and returns, or accounts for
    the next line that is not blank and waits. *)
Lemma loop_turn (t : Turn) (who : nat) (records : list str) :
  forall (b : BatchState) (queue : list Activation),
  exists b' evs w',
    loop t records who
         {| isProcessing := true; currentBatch := Some b; timers := queue |}
    = (w', evs)
    /\ total b' = total b
    /\ ((positions_from (processed b) records = []
         /\ w' = {| isProcessing := false; currentBatch := Some b';
                    timers := queue |}
         /\ evs = [Resolved who (Some b')]
         /\ processed b' = processed b + List.length records)
        \/ (exists rest,
              positions_from (processed b) records
              = processed b' :: positions_from (processed b') rest
              /\ w' = {| isProcessing := true; currentBatch := Some b';
                         timers := queue
                                   ++ [{| pending := rest; caller := who |}] |}
              /\ progress_of who evs = [b']
              /\ resolved_of who evs = []
              /\ processed b' + List.length rest
                 = processed b + List.length records
              /\ List.length rest < List.length records)).
Proof.
  induction records as [|line rest IH]; intros b queue.
  - exists b, [Resolved who (Some b)]. eexists. split; [reflexivity|].
    split; [reflexivity|]. left. cbn. repeat split; lia.
  - cbn [loop isProcessing negb currentBatch positions_from].
    destruct (truthy (trim line)) eqn:Hnb; cbn [negb].
    + destruct (CCValidator.valid _);
        [destruct (simulateStatus _);
         [exists (incr_processed (incr_live (incr_valid b)))
         |exists (incr_processed (incr_dead (incr_valid b)))
         |exists (incr_processed (incr_dead (incr_valid b)))]
        |exists (incr_processed b)];
        (eexists; eexists; split; [reflexivity|];
         split; [reflexivity|]; right; exists rest;
         cbn; rewrite Nat.eqb_refl; repeat split; lia).
    + destruct (IH (incr_processed b) queue)
        as (b' & evs & w' & Hloop & Htot & Hcase).
      exists b', evs, w'. cbn [timers]. split; [exact Hloop|].
      split; [exact Htot|]. cbn [processed incr_processed] in Hcase.
      destruct Hcase as [(Hp & Hw & He & Hn)|(r & Hp & Hw & He & Hr & Hn & Hl)].
      * left. repeat split; try assumption. cbn [List.length]. lia.
      * right. exists r. repeat split; try assumption; cbn [List.length]; lia.
Qed.

Lemma run_through_blanks (who : nat) (n : nat) :
  forall (rest : list str) (b : BatchState) (ticks : list Turn),
  List.length rest <= n ->
  List.length ticks = S (List.length (positions_from 0 rest)) ->
  exists final evs,
    run (running who b rest) (List.map TimerFires ticks)
    = (idle (Some final), evs)
    /\ List.map processed (progress_of who evs)
       = positions_from (processed b) rest
    /\ List.map total (progress_of who evs)
       = repeat (total b) (List.length (positions_from 0 rest))
    /\ resolved_of who evs = [Some final]
    /\ processed final = processed b + List.length rest
    /\ total final = total b.
Proof.
  induction n as [|n IH]; intros rest b ticks Hn Hlen.
  - destruct rest; [|simpl in Hn; lia]. destruct ticks as [|t [|]];
      try discriminate.
    exists b, [Resolved who (Some b)]. cbn. rewrite Nat.eqb_refl.
    repeat split; try reflexivity; lia.
  - destruct ticks as [|t ticks]; [discriminate|].
    cbn [List.map run step]. unfold resume.
    cbn [running timers pending caller isProcessing currentBatch].
    destruct (loop_turn t who rest b [])
      as (b1 & evs1 & w1 & Hloop & Htot & Hcase).
    rewrite Hloop.
    destruct Hcase as [(Hp & -> & -> & Hproc)
                      |(r & Hp & -> & Hp1 & Hr1 & Hproc & Hl)].
    + assert (H0 : List.length (positions_from 0 rest) = 0)
        by (rewrite (positions_from_length 0 (processed b)), Hp; reflexivity).
      rewrite H0 in Hlen. destruct ticks; [|discriminate].
      exists b1, [Resolved who (Some b1)].
      cbn. rewrite Nat.eqb_refl, Hp, H0.
      repeat split; try reflexivity; lia.
    + cbn [app]. fold (running who b1 r).
      assert (H0 : List.length (positions_from 0 rest)
                   = S (List.length (positions_from 0 r))).
      { rewrite (positions_from_length 0 (processed b)), Hp.
        cbn [List.length]. f_equal. apply positions_from_length. }
      rewrite H0 in Hlen. cbn [List.length] in Hlen.
      destruct (IH r b1 ticks)
        as (final & evs & Hrun & Hpr & Ht & Hr & Hf & Hft); [lia|lia|].
      rewrite Hrun. exists final, (evs1 ++ evs).
      rewrite progress_of_app, resolved_of_app, Hp1, Hr1.
      cbn [List.map app]. rewrite Hpr, Ht, Hr, Hp, H0.
      cbn [List.length repeat].
      repeat split; try reflexivity; try congruence; lia.
Qed.

(** X10. Blank lines are counted and passed over.  A batch started on a
    validator that is not processing and has no call waiting, and left to
    run: the progress callback is called once for each line that is not
    blank, with [processed] telling the place of that line in the batch
    (blank lines before it included) and [total] the number of lines,
    blank ones included; as many timers fire as there are such lines; the
    promise resolves with [processed = total], and the validator is at
    rest again. *)
Theorem processBatch_passes_over_blank_lines
  (w : World) (t : Turn) (cardsData : list str) (who : nat)
  (ticks : list Turn) :
  isProcessing w = false -> timers w = [] ->
  List.length ticks = List.length (positions_from 0 cardsData) ->
  let outcome :=
    run w (CallProcessBatch t cardsData who :: List.map TimerFires ticks) in
  let calls := progress_of who (snd outcome) in
  List.map processed calls = positions_from 0 cardsData
  /\ List.map total calls
     = repeat (List.length cardsData)
              (List.length (positions_from 0 cardsData))
  /\ (exists final,
        resolved_of who (snd outcome) = [Some final]
        /\ fst outcome = idle (Some final)
        /\ processed final = List.length cardsData
        /\ total final = List.length cardsData).
Proof.
  intros Hidle Hq Hlen. cbv zeta. cbn [run step]. unfold processBatch.
  rewrite Hidle, Hq.
  set (b0 := {| total := List.length cardsData; processed := 0;
                valid := 0; live := 0; dead := 0 |}).
  destruct (loop_turn t who cardsData b0 [])
    as (b1 & evs1 & w1 & Hloop & Htot & Hcase).
  rewrite Hloop. change (processed b0) with 0 in Hcase.
  change (total b0) with (List.length cardsData) in Htot.
  destruct Hcase as [(Hp & -> & -> & Hproc)
                    |(r & Hp & -> & Hp1 & Hr1 & Hproc & Hl)].
  - rewrite Hp in *. destruct ticks; [|discriminate].
    cbn. rewrite Nat.eqb_refl. repeat split.
    exists b1. repeat split; try reflexivity; lia.
  - rewrite Hp in *. cbn [List.length] in *. cbn [app].
    fold (running who b1 r).
    rewrite (positions_from_length (processed b1) 0) in *.
    destruct (run_through_blanks who (List.length r) r b1 ticks)
      as (final & evs & Hrun & Hpr & Ht & Hr & Hf & Hft); [lia|lia|].
    rewrite Hrun. cbn [fst snd].
    rewrite progress_of_app, resolved_of_app, Hp1, Hr1.
    cbn [List.map app]. rewrite Hpr, Ht, Hr. cbn [repeat]. rewrite Htot.
    repeat split. exists final. repeat split; try reflexivity; lia.
Qed.

Lemma processBatch_passes_over_blank_lines_witness :
  let outcome :=
    run constructed
        (CallProcessBatch a_turn [lit " "; a_good_line; lit ""; lit "x"] 7
         :: List.map TimerFires [a_turn; a_turn]) in
  List.map processed (progress_of 7 (snd outcome)) = [2; 4]
  /\ List.map total (progress_of 7 (snd outcome)) = [4; 4].
Proof.
  destruct (processBatch_passes_over_blank_lines
              constructed a_turn [lit " "; a_good_line; lit ""; lit "x"] 7
              [a_turn; a_turn] eq_refl eq_refl eq_refl)
    as (Hp & Ht & _).
  split; [exact Hp|exact Ht].
Defined.





End BatchMore.

(* ================================================================== *)
(** ** The batch loop: what the result callback is told                *)
(* ================================================================== *)

Section BatchResults.

Import Batch.

Lemma statuses_of_app (who : nat) (e1 e2 : list Event) :
  statuses_of who (e1 ++ e2) = statuses_of who e1 ++ statuses_of who e2.
Proof.
  induction e1 as [|e e1 IH]; [reflexivity|].
  destruct e; simpl; rewrite ?IH; try reflexivity.
  destruct (Nat.eqb who0 who); simpl; now rewrite ?IH.
Qed.

Lemma result_about_incl (l1 l2 : list str) (who : nat) (e : Event) :
  incl l1 l2 -> result_about l1 who e -> result_about l2 who e.
Proof.
  intros Hi. destruct e; simpl; auto.
  intros (Hw & Hv & Hs & t & line & Hin & Hrest).
  repeat split; auto. exists t, line. split; [now apply Hi|assumption].
Qed.

Lemma simulateStatus_not_invalid (r : Q) : simulateStatus r <> INVALID.
Proof. unfold simulateStatus. destruct (Qle_bool _ _); discriminate. Qed.

(** One turn of the loop: the three counters move by what the result
    callback is told in that turn. *)
Lemma loop_results (t : Turn) (who : nat) (records : list str) :
  forall (w : World) (b : BatchState),
  currentBatch w = Some b ->
  exists b',
    currentBatch (fst (loop t records who w)) = Some b'
    /\ valid b'
       = valid b + List.length (statuses_of who (snd (loop t records who w)))
    /\ live b'
       = live b
         + List.length (filter is_live
                          (statuses_of who (snd (loop t records who w))))
    /\ dead b'
       = dead b
         + List.length (filter is_dead
                          (statuses_of who (snd (loop t records who w))))
    /\ (forall e, In e (snd (loop t records who w)) ->
                  result_about records who e)
    /\ (timers (fst (loop t records who w)) = timers w
        \/ exists rest,
             timers (fst (loop t records who w))
             = timers w ++ [{| pending := rest; caller := who |}]
             /\ incl rest records).
Proof.
  induction records as [|line rest IH]; intros w b Hb.
  - exists b. cbn. rewrite Hb.
    split; [reflexivity|]. split; [lia|]. split; [lia|]. split; [lia|].
    split; [intros e [<-|[]]; exact I|now left].
  - cbn [loop]. destruct (isProcessing w); cbn [negb].
    + rewrite Hb. destruct (truthy (trim line)) eqn:Hnb; cbn [negb].
      * destruct (CCValidator.valid (validateCard (now t) (trim line)))
          eqn:Hv.
        -- pose proof (simulateStatus_not_invalid (random t)) as Hs.
           destruct (simulateStatus (random t)) eqn:Est;
             [| |contradiction];
             (eexists; cbn [fst snd currentBatch timers]; split;
              [reflexivity|]; cbn; rewrite Nat.eqb_refl; cbn;
              split; [lia|]; split; [lia|]; split; [lia|]; split;
              [ intros e [<-|[<-|[]]]; [|exact I]; cbn;
                repeat split; try assumption; try discriminate;
                exists t, line; rewrite Est; repeat split; now left
              | right; exists rest; split; [reflexivity|];
                apply incl_tl, incl_refl ]).
        -- eexists; cbn [fst snd currentBatch timers]; split;
             [reflexivity|]. cbn.
           split; [lia|]. split; [lia|]. split; [lia|]. split.
           ++ intros e [<-|[]]. exact I.
           ++ right. exists rest. split; [reflexivity|].
              apply incl_tl, incl_refl.
      * destruct (IH {| isProcessing := true;
                        currentBatch := Some (incr_processed b);
                        timers := timers w |} (incr_processed b) eq_refl)
          as (b' & Hc & Hval & Hlive & Hdead & Hev & Hq).
        exists b'. split; [exact Hc|]. cbn [valid live dead incr_processed] in *.
        split; [exact Hval|]. split; [exact Hlive|]. split; [exact Hdead|].
        split.
        -- intros e He. apply (result_about_incl rest);
             [apply incl_tl, incl_refl|now apply Hev].
        -- cbn [timers] in Hq. destruct Hq as [Hq|(r & Hq & Hi)];
             [now left|]. right. exists r. split; [exact Hq|].
           now apply incl_tl.
    + exists b. cbn. rewrite Hb.
      split; [reflexivity|]. split; [lia|]. split; [lia|]. split; [lia|].
      split; [intros e [<-|[]]; exact I|now left].
Qed.

Lemma step_results (lines : list str) (who : nat) (w : World) (a : Action)
  (b : BatchState) :
  starts_nothing a -> currentBatch w = Some b -> one_call_of lines who w ->
  exists b',
    currentBatch (fst (step w a)) = Some b'
    /\ valid b' = valid b + List.length (statuses_of who (snd (step w a)))
    /\ live b'
       = live b
         + List.length (filter is_live (statuses_of who (snd (step w a))))
    /\ dead b'
       = dead b
         + List.length (filter is_dead (statuses_of who (snd (step w a))))
    /\ (forall e, In e (snd (step w a)) -> result_about lines who e)
    /\ one_call_of lines who (fst (step w a)).
Proof.
  intros Ha Hb Hone.
  destruct a as [t cardsData who'| |t]; cbn [step starts_nothing] in *.
  - contradiction.
  - exists b. cbn [fst snd stopProcessing currentBatch statuses_of filter
                     List.length].
    split; [exact Hb|]. split; [lia|]. split; [lia|]. split; [lia|].
    split; [intros e []|exact Hone].
  - unfold resume. destruct Hone as [Hq|(rest & Hq & Hi)]; rewrite Hq.
    + exists b. cbn [fst snd statuses_of filter List.length].
      split; [exact Hb|]. split; [lia|]. split; [lia|]. split; [lia|].
      split; [intros e []|now left].
    + cbn [pending caller].
      destruct (loop_results t who rest
                  {| isProcessing := isProcessing w;
                     currentBatch := currentBatch w; timers := [] |} b Hb)
        as (b' & Hc & Hval & Hlive & Hdead & Hev & Hq').
      exists b'. repeat split; try assumption.
      * intros e He. apply (result_about_incl rest); [assumption|].
        now apply Hev.
      * cbn [timers app] in Hq'. destruct Hq' as [Hq'|(r & Hq' & Hi')].
        -- now left.
        -- right. exists r. split; [exact Hq'|].
           intros x Hx. apply Hi, Hi', Hx.
Qed.

Lemma run_results (lines : list str) (who : nat) (schedule : list Action) :
  Forall starts_nothing schedule ->
  forall (w : World) (b : BatchState),
  currentBatch w = Some b -> one_call_of lines who w ->
  exists b',
    currentBatch (fst (run w schedule)) = Some b'
    /\ valid b' = valid b + List.length (statuses_of who (snd (run w schedule)))
    /\ live b'
       = live b
         + List.length (filter is_live
                          (statuses_of who (snd (run w schedule))))
    /\ dead b'
       = dead b
         + List.length (filter is_dead
                          (statuses_of who (snd (run w schedule))))
    /\ (forall e, In e (snd (run w schedule)) -> result_about lines who e).
Proof.
  induction 1 as [|a rest Ha Hrest IH]; intros w b Hb Hone; cbn [run].
  - exists b. cbn [fst snd statuses_of filter List.length].
    split; [exact Hb|]. split; [lia|]. split; [lia|]. split; [lia|].
    intros e [].
  - destruct (step_results lines who w a b Ha Hb Hone)
      as (b1 & Hc1 & Hv1 & Hl1 & Hd1 & He1 & Hone1).
    destruct (step w a) as [w1 evs1]. cbn [fst snd] in *.
    destruct (IH w1 b1 Hc1 Hone1) as (b2 & Hc2 & Hv2 & Hl2 & Hd2 & He2).
    destruct (run w1 rest) as [w2 evs2]. cbn [fst snd] in *.
    exists b2. rewrite statuses_of_app, filter_app, filter_app, !length_app.
    repeat split; try assumption; try lia.
    intros e He. apply in_app_or in He as [He|He]; auto.
Qed.

(** X12. One batch at a time: started on a validator that is not
    processing and has no call waiting, then only timers and stop
    requests.  The result callback is told of valid records only, each
    with the trimmed line, the verdict [validateCard] gave it and the
    status drawn for it, LIVE or DEAD and never INVALID; and in the state
    left behind, completed or cancelled, [valid] counts those calls,
    [live] the LIVE ones and [dead] the DEAD ones. *)
Theorem processBatch_results_match_counters
  (w : World) (t : Turn) (cardsData : list str) (who : nat)
  (schedule : list Action) :
  isProcessing w = false -> timers w = [] ->
  Forall starts_nothing schedule ->
  let outcome := run w (CallProcessBatch t cardsData who :: schedule) in
  let told := statuses_of who (snd outcome) in
  (forall e, In e (snd outcome) -> result_about cardsData who e)
  /\ (forall st, In st told -> st = LIVE \/ st = DEAD)
  /\ (exists b,
        currentBatch (fst outcome) = Some b
        /\ valid b = List.length told
        /\ live b = List.length (filter is_live told)
        /\ dead b = List.length (filter is_dead told)).
Proof.
  intros Hidle Hq Hs. cbv zeta. cbn [run step]. unfold processBatch.
  rewrite Hidle, Hq.
  set (w0 := {| isProcessing := true;
                currentBatch :=
                  Some {| total := List.length cardsData; processed := 0;
                          valid := 0; live := 0; dead := 0 |};
                timers := [] |}).
  destruct (loop_results t who cardsData w0 _ eq_refl)
    as (b1 & Hc1 & Hv1 & Hl1 & Hd1 & He1 & Hq1).
  assert (Hone : one_call_of cardsData who (fst (loop t cardsData who w0))).
  { subst w0. cbn [timers app] in Hq1.
    destruct Hq1 as [Hq1|(r & Hq1 & Hi)]; [now left|].
    right. exists r. split; assumption. }
  destruct (loop t cardsData who w0) as [w1 evs1]. cbn [fst snd] in *.
  destruct (run_results cardsData who schedule Hs w1 b1 Hc1 Hone)
    as (b2 & Hc2 & Hv2 & Hl2 & Hd2 & He2).
  destruct (run w1 schedule) as [w2 evs2]. cbn [fst snd valid live dead] in *.
  assert (Hall : forall e, In e (evs1 ++ evs2) ->
                           result_about cardsData who e)
    by (intros e He; apply in_app_or in He as [He|He]; auto).
  split; [exact Hall|]. split.
  - intros st Hst.
    assert (Hin : exists cd v, In (ResultCall who cd v st) (evs1 ++ evs2)).
    { clear - Hst. induction (evs1 ++ evs2) as [|e l IH]; [contradiction|].
      destruct e as [w' cd v s| | |]; simpl in Hst;
        try (destruct (IH Hst) as (cd' & v' & H');
             exists cd', v'; now right).
      destruct (Nat.eqb_spec w' who) as [->|Hne].
      - destruct Hst as [->|Hst]; [exists cd, v; now left|].
        destruct (IH Hst) as (cd' & v' & H'). exists cd', v'. now right.
      - destruct (IH Hst) as (cd' & v' & H'). exists cd', v'. now right. }
    destruct Hin as (cd & v & Hin). apply Hall in Hin.
    destruct Hin as (_ & _ & Hne & _). destruct st; auto. contradiction.
  - exists b2. rewrite statuses_of_app, filter_app, filter_app, !length_app.
    repeat split; try assumption; lia.
Qed.

Lemma processBatch_results_match_counters_witness :
  let outcome :=
    run constructed
        [ CallProcessBatch a_turn [a_good_line; lit "x"; a_good_line] 7;
          TimerFires a_turn; TimerFires a_turn; TimerFires a_turn ] in
  statuses_of 7 (snd outcome) = [DEAD; DEAD]
  /\ exists b, currentBatch (fst outcome) = Some b /\ valid b = 2.
Proof.
  assert (Hs : Forall starts_nothing
                 [TimerFires a_turn; TimerFires a_turn; TimerFires a_turn])
    by (repeat constructor).
  destruct (processBatch_results_match_counters
              constructed a_turn [a_good_line; lit "x"; a_good_line] 7
              [TimerFires a_turn; TimerFires a_turn; TimerFires a_turn]
              eq_refl eq_refl Hs)
    as (_ & _ & b & Hb & Hv & _).
  split; [reflexivity|]. exists b. split; [exact Hb|exact Hv].
Defined.

End BatchResults.

(* ================================================================== *)
(** ** The lines the page submits                                      *)
(* ================================================================== *)

Section InputLines.

Import UI.

Lemma drop_while_nil (p : N -> bool) (s : str) :
  drop_while p s = [] <-> forallb p s = true.
Proof.
  induction s as [|c s IH]; simpl; [tauto|].
  destruct (p c); simpl; [exact IH|]. split; discriminate.
Qed.

(** A string trims to nothing exactly when it is white space only. *)
Lemma trim_nil (s : str) :
  trim s = [] <-> forallb is_white_space s = true.
Proof.
  rewrite <- drop_while_nil. unfold trim.
  destruct (drop_while_head is_white_space s) as [E|(c & r & E & Hc)];
    rewrite E.
  - simpl. tauto.
  - cbn [rev]. rewrite (drop_while_snoc _ _ _ Hc), rev_app_distr. simpl.
    split; discriminate.
Qed.

Lemma forallb_split (p : N -> bool) (sep : N) (s : str) :
  p sep = true ->
  forallb p s = true
  <-> Forall (fun part => forallb p part = true) (split sep s).
Proof.
  intros Hsep. induction s as [|c s IH]; simpl.
  - split; [intros _; repeat constructor|reflexivity].
  - unfold code_eqb. destruct (N.eqb_spec c sep) as [->|Hc].
    + rewrite Hsep. cbn [andb]. rewrite IH. split.
      * intros H. constructor; [reflexivity|assumption].
      * intros H. now inversion H.
    + pose proof (split_nonempty sep s) as Hne.
      destruct (split sep s) as [|q qs]; [contradiction|].
      rewrite andb_true_iff, IH. split.
      * intros [Hpc H]. inversion H; subst. constructor; [|assumption].
        simpl. now rewrite Hpc.
      * intros H. inversion H as [|? ? Hq Hqs]; subst. simpl in Hq.
        apply andb_true_iff in Hq as [Hpc Hq]. split; [assumption|].
        constructor; assumption.
Qed.

Lemma filter_nil_iff (f : str -> bool) (l : list str) :
  filter f l = [] <-> Forall (fun x => f x = false) l.
Proof.
  induction l as [|x l IH]; simpl.
  - split; [constructor|reflexivity].
  - destruct (f x) eqn:E.
    + split; [discriminate|]. intros H. inversion H. congruence.
    + rewrite IH. split; [now constructor|]. intros H. now inversion H.
Qed.

(** X13. What the page hands to [processBatch]: the lines of the text
    area that are not blank, in their order.  None of them is blank or
    holds a line break; there are none exactly when the text is white
    space only (the case the page answers with a warning instead of a
    batch); and lines written one per row are handed over as they are,
    the blank ones left out. *)
Theorem cardsData_of_lines (value : str) :
  Forall non_blank (cardsData_of value)
  /\ Forall (fun line => ~ In 10%N line) (cardsData_of value)
  /\ (cardsData_of value = [] <-> forallb is_white_space value = true)
  /\ (forall lines,
        lines <> [] -> Forall (fun line => ~ In 10%N line) lines ->
        cardsData_of (join 10 lines)
        = filter (fun line => truthy (trim line)) lines).
Proof.
  unfold cardsData_of. split; [|split; [|split]].
  - apply Forall_forall. intros line Hin. apply filter_In in Hin as [_ H].
    unfold non_blank. intros E. rewrite E in H. discriminate.
  - apply Forall_forall. intros line Hin. apply filter_In in Hin as [Hin _].
    pose proof (split_parts_free 10 value) as Hf.
    rewrite Forall_forall in Hf. now apply Hf.
  - rewrite filter_nil_iff, (forallb_split is_white_space 10 value eq_refl).
    split; intros H; rewrite Forall_forall in *; intros x Hx;
      specialize (H x Hx).
    + apply trim_nil. destruct (trim x); [reflexivity|discriminate].
    + apply trim_nil in H. now rewrite H.
  - intros lines Hne Hfree. now rewrite split_join.
Qed.

Lemma cardsData_of_lines_witness :
  cardsData_of (join 10 [lit "a|1"; lit "  "; lit "b|2"])
  = [lit "a|1"; lit "b|2"].
Proof.
  rewrite (proj2 (proj2 (proj2 (cardsData_of_lines
             (join 10 [lit "a|1"; lit "  "; lit "b|2"]))))
             [lit "a|1"; lit "  "; lit "b|2"]);
    [reflexivity|discriminate|].
  repeat constructor; vm_compute; intuition discriminate.
Defined.

End InputLines.

(* ================================================================== *)
(** ** The registry: what a pattern match implies                      *)
(* ================================================================== *)

Section RegistryLengths.

Lemma in_sums (l1 l2 : list nat) (x y : nat) :
  In x l1 -> In y l2 -> In (x + y)%nat (sums l1 l2).
Proof.
  intros Hx Hy. unfold sums. apply in_flat_map. exists x.
  split; [assumption|]. now apply in_map.
Qed.

Lemma consumes_seq (m1 m2 : str -> list str) (l1 l2 : list nat) :
  consumes_within m1 l1 -> consumes_within m2 l2 ->
  consumes_within (fun s => flat_map m2 (m1 s)) (sums l1 l2).
Proof.
  intros H1 H2 s s' Hin. apply in_flat_map in Hin as (mid & Hmid & Hs').
  destruct (H1 _ _ Hmid) as (p1 & -> & D1 & L1).
  destruct (H2 _ _ Hs') as (p2 & -> & D2 & L2).
  exists (p1 ++ p2). rewrite <- app_assoc. split; [reflexivity|].
  rewrite forallb_app, D1, D2, length_app. split; [reflexivity|].
  now apply in_sums.
Qed.

Lemma consumes_iterate (m : str -> list str) (la : list nat)
  (count extra : nat) :
  consumes_within m la ->
  consumes_within (iterate m count extra) (iter_lengths la count extra).
Proof.
  intros Hm. induction count as [|c IH].
  - induction extra as [|e IHe]; intros s s' Hin.
    + destruct Hin as [<-|[]]. exists []. repeat split. now left.
    + change (iterate m 0 (S e) s)
        with (s :: flat_map (iterate m 0 e) (m s)) in Hin.
      change (iter_lengths la 0 (S e))
        with (0 :: sums la (iter_lengths la 0 e)).
      destruct Hin as [<-|Hin].
      * exists []. repeat split. now left.
      * destruct (consumes_seq m (iterate m 0 e) la _ Hm IHe s s' Hin)
          as (pre & Hs & Hd & Hl).
        exists pre. repeat split; try assumption. now right.
  - change (iterate m (S c) extra)
      with (fun s => flat_map (iterate m c extra) (m s)).
    change (iter_lengths la (S c) extra)
      with (sums la (iter_lengths la c extra)).
    now apply consumes_seq.
Qed.

Lemma consumes_unit (p : N -> bool) :
  (forall x, p x = true -> is_digit x = true) ->
  consumes_within
    (fun s => match s with
              | x :: s' => if p x then [s'] else []
              | [] => []
              end) [1].
Proof.
  intros Hp s s' Hin. destruct s as [|x s]; [contradiction|].
  destruct (p x) eqn:E; [|contradiction]. destruct Hin as [<-|[]].
  exists [x]. split; [reflexivity|]. simpl. rewrite (Hp x E).
  split; [reflexivity|now left].
Qed.

Lemma between_digits (lo hi x : N) :
  is_digit lo && is_digit hi = true ->
  (lo <=? x)%N && (x <=? hi)%N = true -> is_digit x = true.
Proof.
  unfold is_digit. intros H Hx.
  apply andb_true_iff in H as [Hlo Hhi].
  apply andb_true_iff in Hlo as [L1 L2].
  apply andb_true_iff in Hhi as [H1 H2].
  apply andb_true_iff in Hx as [X1 X2].
  apply andb_true_iff. rewrite !N.leb_le in *. lia.
Qed.

(** A match of a pattern of digits consumes digits, as many as the
    analysis says. *)
Lemma consumes_sound (r : regex) :
  bounded_digits r = true -> consumes_within (suffixes r) (consumes r).
Proof.
  induction r as [|c|lo hi|cs|a IHa b IHb|a IHa b IHb|lo hi a IHa|a IHa];
    cbn [bounded_digits]; intros Hb.
  - intros s s' [<-|[]]. exists []. repeat split. now left.
  - apply (consumes_unit (fun x => code_eqb x c)).
    intros x Hx. unfold code_eqb in Hx. apply N.eqb_eq in Hx. now subst.
  - apply (consumes_unit (fun x => (lo <=? x)%N && (x <=? hi)%N)).
    intros x Hx. now apply (between_digits lo hi).
  - apply (consumes_unit (fun x => existsb (code_eqb x) cs)).
    intros x Hx. apply existsb_exists in Hx as (y & Hy & E).
    unfold code_eqb in E. apply N.eqb_eq in E. subst y.
    rewrite forallb_forall in Hb. now apply Hb.
  - apply andb_true_iff in Hb as [Ha Hb'].
    apply (consumes_seq (suffixes a) (suffixes b)); auto.
  - apply andb_true_iff in Hb as [Ha Hb']. intros s s' Hin.
    cbn [suffixes] in Hin. apply in_app_or in Hin as [Hin|Hin].
    + destruct (IHa Ha _ _ Hin) as (pre & ? & ? & ?). exists pre.
      repeat split; try assumption. cbn [consumes]. apply in_or_app. now left.
    + destruct (IHb Hb' _ _ Hin) as (pre & ? & ? & ?). exists pre.
      repeat split; try assumption. cbn [consumes]. apply in_or_app. now right.
  - apply (consumes_iterate (suffixes a)). now apply IHa.
  - discriminate.
Qed.

Lemma test_consumes (r : regex) (s : str) :
  bounded_digits r = true -> test r s = true ->
  normalized s /\ In (List.length s) (consumes r).
Proof.
  intros Hb Ht. unfold test in Ht. apply existsb_exists in Ht as (rest & Hin & E).
  destruct rest; [|discriminate].
  destruct (consumes_sound r Hb s [] Hin) as (pre & -> & Hd & Hl).
  rewrite app_nil_r. split; assumption.
Qed.

Lemma lengths_agree_sound (info : CardInfo) (s : str) :
  lengths_agree info = true -> pattern_test info s = true ->
  normalized s
  /\ exists lens, lengths info = Some lens /\ In (List.length s) lens.
Proof.
  unfold lengths_agree, pattern_test.
  destruct (pattern info) as [p|]; [|discriminate].
  destruct (lengths info) as [lens|]; [|discriminate].
  intros H Ht. apply andb_true_iff in H as [Hb Hl].
  destruct (test_consumes p s Hb Ht) as [Hn Hin]. split; [assumption|].
  exists lens. split; [reflexivity|].
  rewrite forallb_forall in Hl. specialize (Hl _ Hin).
  apply existsb_exists in Hl as (k & Hk & E). apply Nat.eqb_eq in E.
  now subst.
Qed.

(** X14. The table of lengths in the registry, which no check reads,
    agrees with the patterns: whenever [detectCardType] finds a network,
    the number is digits only, its length is one of the lengths the
    profile declares, and it is within the 12 to 19 of [validateLength]. *)
Theorem detectCardType_declared_length (cardNumber : str) :
  type (detectCardType cardNumber) <> Some "unknown"%string ->
  normalized cardNumber
  /\ (exists lens,
        lengths (detectCardType cardNumber) = Some lens
        /\ In (List.length cardNumber) lens)
  /\ validateLength cardNumber = true.
Proof.
  assert (Hall : forallb (fun e => lengths_agree (snd e)) cardPatterns = true)
    by (vm_compute; reflexivity).
  assert (Hlens : forall key info, In (key, info) cardPatterns ->
            forall lens k, lengths info = Some lens -> In k lens ->
            (12 <= k <= 19)%nat).
  { intros key info Hin lens k Hl Hk.
    unfold cardPatterns in Hin. simpl in Hin.
    repeat (destruct Hin as [Hin|Hin];
            [injection Hin as <- <-; injection Hl as <-; simpl in Hk;
             repeat (destruct Hk as [<-|Hk]; [lia|]); contradiction|]).
    contradiction. }
  unfold detectCardType. revert Hall Hlens.
  generalize cardPatterns as entries.
  induction entries as [|[key info] rest IH]; intros Hall Hlens Hty.
  - exfalso. apply Hty. reflexivity.
  - cbn [forallb snd] in Hall. apply andb_true_iff in Hall as [Hinfo Hrest].
    cbn [detect_in] in *. destruct (pattern_test info cardNumber) eqn:Ht.
    + destruct (lengths_agree_sound info cardNumber Hinfo Ht)
        as (Hn & lens & Hl & Hin).
      split; [assumption|]. split; [exists lens; split; assumption|].
      specialize (Hlens key info (or_introl eq_refl) lens _ Hl Hin).
      unfold validateLength. apply andb_true_iff.
      split; apply Nat.leb_le; lia.
    + apply IH; [assumption| |assumption].
      intros k i Hi. apply (Hlens k i). now right.
Qed.

Lemma detectCardType_declared_length_witness :
  normalized (lit "378282246310005")
  /\ validateLength (lit "378282246310005") = true.
Proof.
  destruct (detectCardType_declared_length (lit "378282246310005"))
    as (Hn & _ & Hl); [discriminate|].
  split; [exact Hn|exact Hl].
Defined.

End RegistryLengths.

Section RegistryStarts.

Lemma in_units (lo hi x : N) :
  (lo <=? x)%N && (x <=? hi)%N = true -> In x (units lo hi).
Proof.
  intros H. apply andb_true_iff in H as [H1 H2]. apply N.leb_le in H1, H2.
  unfold units. apply in_map_iff. exists (N.to_nat x).
  split; [apply N2Nat.id|]. apply in_seq. lia.
Qed.

Lemma begins_unit (p : N -> bool) (cs : list N) :
  (forall x, p x = true -> In x cs) ->
  begins_within
    (fun s => match s with
              | x :: s' => if p x then [s'] else []
              | [] => []
              end)
    (fun k => List.map (one k) cs).
Proof.
  intros Hp k s s' Hin. destruct s as [|x s]; [contradiction|].
  destruct (p x) eqn:E; [|contradiction]. destruct Hin as [<-|[]].
  exists [x]. split; [reflexivity|]. apply in_map_iff. exists x.
  split; [|now apply Hp].
  destruct k; [reflexivity|]. cbn. now rewrite firstn_nil.
Qed.

Lemma begins_seq (m1 m2 : str -> list str) (p1 p2 : nat -> list start) :
  begins_within m1 p1 -> begins_within m2 p2 ->
  begins_within (fun s => flat_map m2 (m1 s))
                (fun k => extend k (p1 k) p2).
Proof.
  intros H1 H2 k s s' Hin. apply in_flat_map in Hin as (mid & Hmid & Hs').
  destruct (H1 k _ _ Hmid) as (pre1 & -> & In1).
  destruct (Nat.ltb_spec k (List.length pre1)) as [Hcut|Hfit].
  - destruct (H2 0 _ _ Hs') as (pre2 & -> & _).
    exists (pre1 ++ pre2). rewrite <- app_assoc. split; [reflexivity|].
    unfold extend. apply in_flat_map.
    exists (firstn k pre1, true). split; [exact In1|].
    cbn [fst snd]. left. f_equal.
    + rewrite firstn_app. replace (k - List.length pre1) with 0 by lia.
      now rewrite firstn_O, app_nil_r.
    + symmetry. apply Nat.ltb_lt. rewrite length_app. lia.
  - destruct (H2 (k - List.length pre1) _ _ Hs') as (pre2 & -> & In2).
    exists (pre1 ++ pre2). rewrite <- app_assoc. split; [reflexivity|].
    rewrite firstn_all2 in In1 by lia.
    unfold extend. apply in_flat_map.
    exists (pre1, false). split; [exact In1|].
    cbn [fst snd]. apply in_map_iff.
    exists (firstn (k - List.length pre1) pre2,
            (k - List.length pre1 <? List.length pre2)).
    split; [|exact In2]. cbn [fst snd]. f_equal.
    + rewrite firstn_app, (firstn_all2 pre1) by lia. reflexivity.
    + rewrite length_app.
      destruct (Nat.ltb_spec (k - List.length pre1) (List.length pre2));
        symmetry; [apply Nat.ltb_lt|apply Nat.ltb_ge]; lia.
Qed.

Lemma begins_iterate (m : str -> list str) (pa : nat -> list start)
  (count extra : nat) :
  begins_within m pa ->
  begins_within (iterate m count extra) (iter_starts pa count extra).
Proof.
  intros Hm. induction count as [|c IH].
  - induction extra as [|e IHe]; intros k s s' Hin.
    + destruct Hin as [<-|[]]. exists []. split; [reflexivity|].
      rewrite firstn_nil. destruct k; now left.
    + change (iterate m 0 (S e) s)
        with (s :: flat_map (iterate m 0 e) (m s)) in Hin.
      change (iter_starts pa 0 (S e) k)
        with (([], false) :: extend k (pa k) (iter_starts pa 0 e)).
      destruct Hin as [<-|Hin].
      * exists []. split; [reflexivity|]. rewrite firstn_nil.
        destruct k; now left.
      * destruct (begins_seq m (iterate m 0 e) pa _ Hm IHe k s s' Hin)
          as (pre & Hs & Hp).
        exists pre. split; [assumption|]. now right.
  - change (iterate m (S c) extra)
      with (fun s => flat_map (iterate m c extra) (m s)).
    intros k. change (iter_starts pa (S c) extra k)
      with (extend k (pa k) (iter_starts pa c extra)).
    revert k. now apply begins_seq.
Qed.

(** A match begins in one of the ways the analysis lists. *)
Lemma starts_sound (r : regex) :
  plus_free r = true -> begins_within (suffixes r) (starts r).
Proof.
  induction r as [|c|lo hi|cs|a IHa b IHb|a IHa b IHb|lo hi a IHa|a IHa];
    cbn [plus_free]; intros Hb.
  - intros k s s' [<-|[]]. exists []. split; [reflexivity|].
    rewrite firstn_nil. destruct k; now left.
  - apply (begins_unit (fun x => code_eqb x c) [c]).
    intros x Hx. unfold code_eqb in Hx. apply N.eqb_eq in Hx. now left.
  - apply (begins_unit (fun x => (lo <=? x)%N && (x <=? hi)%N)).
    intros x Hx. now apply in_units.
  - apply (begins_unit (fun x => existsb (code_eqb x) cs)).
    intros x Hx. apply existsb_exists in Hx as (y & Hy & E).
    unfold code_eqb in E. apply N.eqb_eq in E. now subst.
  - apply andb_true_iff in Hb as [Ha Hb'].
    apply (begins_seq (suffixes a) (suffixes b)); auto.
  - apply andb_true_iff in Hb as [Ha Hb']. intros k s s' Hin.
    cbn [suffixes] in Hin. apply in_app_or in Hin as [Hin|Hin].
    + destruct (IHa Ha k _ _ Hin) as (pre & ? & ?). exists pre.
      split; [assumption|]. cbn [starts]. apply in_or_app. now left.
    + destruct (IHb Hb' k _ _ Hin) as (pre & ? & ?). exists pre.
      split; [assumption|]. cbn [starts]. apply in_or_app. now right.
  - apply (begins_iterate (suffixes a)). now apply IHa.
  - discriminate.
Qed.

Lemma pattern_test_starts (info : CardInfo) (s : str) (k : nat) :
  pattern_test info s = true ->
  has_pattern info = true ->
  In (firstn k s, (k <? List.length s)%nat) (entry_starts info k).
Proof.
  unfold pattern_test, has_pattern, entry_starts.
  destruct (pattern info) as [p|]; [|discriminate]. intros Ht Hp.
  rewrite Hp. unfold test in Ht.
  apply existsb_exists in Ht as (rest & Hin & E).
  destruct rest; [|discriminate].
  destruct (starts_sound p Hp k s [] Hin) as (pre & -> & H).
  now rewrite app_nil_r.
Qed.

Lemma str_eqb_refl (s : str) : str_eqb s s = true.
Proof.
  induction s as [|c s IH]; [reflexivity|]. simpl. unfold code_eqb.
  now rewrite N.eqb_refl.
Qed.

Lemma apart_sound (i1 i2 : CardInfo) (s : str) :
  has_pattern i1 = true -> has_pattern i2 = true -> apart i1 i2 = true ->
  pattern_test i1 s = true -> pattern_test i2 s = false.
Proof.
  intros P1 P2 Hap T1. destruct (pattern_test i2 s) eqn:T2; [|reflexivity].
  pose proof (pattern_test_starts i1 s 2 T1 P1) as S1.
  pose proof (pattern_test_starts i2 s 2 T2 P2) as S2.
  unfold apart in Hap. rewrite forallb_forall in Hap.
  specialize (Hap _ S1). rewrite forallb_forall in Hap.
  specialize (Hap _ S2). cbn [fst] in Hap. now rewrite str_eqb_refl in Hap.
Qed.

Lemma detect_in_first_match (entries : list (string * CardInfo)) (s : str)
  (key : string) (info : CardInfo) :
  In (key, info) entries -> pattern_test info s = true ->
  (forall k i, In (k, i) entries -> pattern_test i s = true -> k = key) ->
  type (detect_in entries s) = Some key.
Proof.
  induction entries as [|[k i] rest IH]; intros Hin Ht Hother;
    [contradiction|].
  cbn [detect_in]. destruct (pattern_test i s) eqn:Hti.
  - cbn. f_equal. apply (Hother k i); [now left|assumption].
  - destruct Hin as [E|Hin]; [injection E as -> ->; congruence|].
    apply IH; [assumption|assumption|].
    intros k' i' Hi. apply Hother. now right.
Qed.

Lemma detect_in_type (entries : list (string * CardInfo)) (s : str)
  (key : string) :
  type (detect_in entries s) = Some key ->
  (key = "unknown"%string
   /\ forall k i, In (k, i) entries -> pattern_test i s = false)
  \/ exists info, In (key, info) entries /\ pattern_test info s = true.
Proof.
  induction entries as [|[k i] rest IH]; cbn [detect_in].
  - intros E. injection E as <-. left. split; [reflexivity|].
    intros ? ? [].
  - destruct (pattern_test i s) eqn:Hti.
    + intros E. injection E as <-. right. exists i. split; [now left|assumption].
    + intros E. destruct (IH E) as [[-> Hnone]|(info & Hin & Ht)].
      * left. split; [reflexivity|]. intros k' i' [Eq|Hi].
        -- now injection Eq as <- <-.
        -- now apply (Hnone k').
      * right. exists info. split; [now right|assumption].
Qed.

(** X15. A number matches the pattern of at most one network: the ways
    the eight patterns can begin differ within the first two digits.  So
    [detectCardType] reports a network exactly when that network's pattern
    matches, and "unknown" exactly when none does; the order of the
    registry does not matter. *)
Theorem detectCardType_one_network (cardNumber : str) :
  (forall k1 i1 k2 i2,
     In (k1, i1) cardPatterns -> In (k2, i2) cardPatterns ->
     pattern_test i1 cardNumber = true ->
     pattern_test i2 cardNumber = true -> k1 = k2)
  /\ (forall key info,
        In (key, info) cardPatterns ->
        (type (detectCardType cardNumber) = Some key
         <-> pattern_test info cardNumber = true))
  /\ (type (detectCardType cardNumber) = Some "unknown"%string
      <-> forall key info, In (key, info) cardPatterns ->
                           pattern_test info cardNumber = false).
Proof.
  assert (Hpat : forallb (fun e => has_pattern (snd e)) cardPatterns = true)
    by (vm_compute; reflexivity).
  assert (Hap : all_apart cardPatterns = true) by (vm_compute; reflexivity).
  assert (Hkeys : NoDup (List.map fst cardPatterns)).
  { cbn. repeat (constructor; [cbn; intuition discriminate|]). constructor. }
  assert (Hknown : forall k i, In (k, i) cardPatterns ->
                               k <> "unknown"%string).
  { intros k i Hin. cbn in Hin.
    repeat (destruct Hin as [Hin|Hin]; [injection Hin as <- _; discriminate|]).
    contradiction. }
  assert (Hone : forall k1 i1 k2 i2,
            In (k1, i1) cardPatterns -> In (k2, i2) cardPatterns ->
            pattern_test i1 cardNumber = true ->
            pattern_test i2 cardNumber = true -> k1 = k2).
  { intros k1 i1 k2 i2 H1 H2 T1 T2.
    destruct (String.eqb_spec k1 k2) as [|Hne]; [assumption|exfalso].
    unfold all_apart in Hap. rewrite forallb_forall in Hap.
    specialize (Hap _ H1). rewrite forallb_forall in Hap.
    specialize (Hap _ H2). cbn [fst snd] in Hap.
    apply orb_true_iff in Hap as [E|Hap];
      [apply String.eqb_eq in E; contradiction|].
    rewrite forallb_forall in Hpat.
    pose proof (Hpat _ H1) as P1. pose proof (Hpat _ H2) as P2.
    cbn [snd] in P1, P2.
    rewrite (apart_sound i1 i2 cardNumber P1 P2 Hap T1) in T2.
    discriminate. }
  assert (Hsame : forall key i1 i2,
            In (key, i1) cardPatterns -> In (key, i2) cardPatterns ->
            i1 = i2).
  { intros key i1 i2 H1 H2. clear - H1 H2 Hkeys.
    induction cardPatterns as [|[k i] rest IH]; [contradiction|].
    cbn in Hkeys. inversion Hkeys as [|? ? Hnotin Hnd]; subst.
    destruct H1 as [E1|H1], H2 as [E2|H2].
    - congruence.
    - injection E1 as -> ->. exfalso. apply Hnotin.
      apply in_map_iff. now exists (key, i2).
    - injection E2 as -> ->. exfalso. apply Hnotin.
      apply in_map_iff. now exists (key, i1).
    - now apply IH. }
  split; [exact Hone|]. unfold detectCardType. split.
  - intros key info Hin. split.
    + intros Hty. destruct (detect_in_type _ _ _ Hty)
        as [[-> _]|(info' & Hin' & Ht)].
      * exfalso. now apply (Hknown _ _ Hin).
      * now rewrite (Hsame key info info' Hin Hin').
    + intros Ht. apply (detect_in_first_match _ _ key info Hin Ht).
      intros k i Hi Hti. apply (Hone k i key info); assumption.
  - split.
    + intros Hty key info Hin.
      destruct (pattern_test info cardNumber) eqn:Ht; [exfalso|reflexivity].
      assert (E : type (detect_in cardPatterns cardNumber) = Some key).
      { apply (detect_in_first_match _ _ key info Hin Ht).
        intros k i Hi Hti. apply (Hone k i key info); assumption. }
      rewrite Hty in E. injection E as <-. now apply (Hknown _ _ Hin).
    + intros Hnone. destruct (detect_in_typed cardPatterns cardNumber)
        as (key & Hty).
      destruct (detect_in_type _ _ _ Hty) as [[-> _]|(info & Hin & Ht)];
        [assumption|].
      rewrite (Hnone _ _ Hin) in Ht. discriminate.
Qed.

Lemma detectCardType_one_network_witness :
  type (detectCardType (lit "4111111111111111")) = Some "visa"%string.
Proof.
  destruct (detectCardType_one_network (lit "4111111111111111"))
    as (_ & Hiff & _).
  eapply Hiff; [left; reflexivity|reflexivity].
Defined.

Lemma bin_loop_first_four (ranges : list (N * N)) (s : str) :
  forallb (fun r => (List.length (String_of_N (fst r)) <=? 4)%nat) ranges
  = true ->
  bin_loop ranges s = bin_loop ranges (firstn 4 s).
Proof.
  induction ranges as [|[lo hi] rest IH]; [reflexivity|].
  cbn [forallb fst]. intros H. apply andb_true_iff in H as [Hw Hrest].
  apply Nat.leb_le in Hw. cbn [bin_loop]. unfold substring0.
  rewrite firstn_firstn, (Nat.min_l _ _ Hw), (IH Hrest). reflexivity.
Qed.

Lemma bins_cover_sound (info : CardInfo) (s : str) :
  bins_cover info = true -> pattern_test info s = true ->
  validateBIN s info = true.
Proof.
  unfold bins_cover, validateBIN.
  destruct (binRanges info) as [ranges|]; [|reflexivity].
  intros H Ht. apply andb_true_iff in H as [H Hall].
  apply andb_true_iff in H as [Hp Hw].
  pose proof (pattern_test_starts info s 4 Ht Hp) as Hs.
  rewrite forallb_forall in Hall. specialize (Hall _ Hs).
  cbn [fst snd] in Hall. apply andb_true_iff in Hall as [_ Hbin].
  now rewrite (bin_loop_first_four ranges s Hw).
Qed.

(** X16. For five of the eight networks the BIN check can never fail:
    a number detected as Visa, American Express, Discover, Diners Club or
    UnionPay always passes [validateBIN].  So does an undetected number.
    Hence [validateCard] reports "Invalid BIN/IIN" only for numbers
    detected as Mastercard, JCB or Maestro. *)
Theorem validateBIN_never_fails_for (cardNumber : str) :
  (In (type (detectCardType cardNumber))
      (List.map Some ["visa"; "amex"; "discover"; "diners"; "unionpay";
                      "unknown"]%string) ->
   validateBIN cardNumber (detectCardType cardNumber) = true)
  /\ (forall now line,
        reason (validateCard now line) = Some "Invalid BIN/IIN"%string ->
        In (v_type (validateCard now line))
           (List.map Some ["mastercard"; "jcb"; "maestro"]%string)).
Proof.
  assert (Hfirst : forall s,
            In (type (detectCardType s))
               (List.map Some ["visa"; "amex"; "discover"; "diners";
                               "unionpay"; "unknown"]%string) ->
            validateBIN s (detectCardType s) = true).
  { intros s. unfold detectCardType, cardPatterns. cbn [detect_in].
    repeat match goal with
           | |- context [if pattern_test ?i s then _ else _] =>
               let E := fresh "E" in
               destruct (pattern_test i s) eqn:E;
               [ cbn [type with_type entry List.map In];
                 intros Hin;
                 first
                   [ exfalso; clear - Hin; intuition discriminate
                   | apply (bins_cover_sound
                              {| type := None; pattern := pattern i;
                                 binRanges := binRanges i;
                                 lengths := lengths i;
                                 cvvLength := cvvLength i;
                                 name := name i |} s);
                     [vm_compute; reflexivity|exact E] ]
               | ]
           end.
    intros _. reflexivity. }
  split; [apply Hfirst|].
  intros now line. unfold validateCard.
  set (n := cleanCardNumber (number (extractCardData line))).
  repeat match goal with
         | |- context [if negb ?b then _ else _] =>
             destruct b; cbn [negb]; [|discriminate]
         end.
  destruct (string_neqb (type (detectCardType n)) "unknown"
            && negb (validateBIN n (detectCardType n))) eqn:Hbin.
  - intros _. cbn [v_type reject].
    apply andb_true_iff in Hbin as [_ Hbin]. apply negb_true_iff in Hbin.
    pose proof (Hfirst n) as Hf. rewrite Hbin in Hf.
    revert Hf. unfold detectCardType, cardPatterns. cbn [detect_in].
    repeat match goal with
           | |- context [if pattern_test ?i n then _ else _] =>
               destruct (pattern_test i n)
           end;
      cbn; intros Hf;
      try (exfalso; assert (false = true) by (apply Hf; tauto);
           discriminate); tauto.
  - destruct (validateExpiration _ _ _) as [why|m y] eqn:He.
    + cbn [reason reject]. intros E. injection E as ->.
      apply (validateExpiration_reasons _ _ _ _) in He.
      simpl in He. intuition discriminate.
    + destruct (validateCVV _ _); cbn [negb]; discriminate.
Qed.

Lemma validateBIN_never_fails_for_witness :
  validateBIN (lit "6011111111111117")
              (detectCardType (lit "6011111111111117")) = true.
Proof.
  apply (proj1 (validateBIN_never_fails_for (lit "6011111111111117"))).
  vm_compute. tauto.
Defined.

Lemma bins_miss_exactly_sound (info : CardInfo) (s : str) :
  bins_miss_exactly info = true -> pattern_test info s = true ->
  validateBIN s info = negb (without_range (firstn 4 s)).
Proof.
  unfold bins_miss_exactly, validateBIN.
  destruct (binRanges info) as [ranges|]; [|discriminate].
  intros H Ht. apply andb_true_iff in H as [H Hall].
  apply andb_true_iff in H as [Hp Hw].
  pose proof (pattern_test_starts info s 4 Ht Hp) as Hs.
  rewrite forallb_forall in Hall. specialize (Hall _ Hs).
  cbn [fst snd] in Hall. apply andb_true_iff in Hall as [_ Heq].
  apply Bool.eqb_prop in Heq.
  rewrite (bin_loop_first_four ranges s Hw), <- Heq.
  now rewrite negb_involutive.
Qed.

Lemma luhnCheck_validateLength (cardNumber : str) :
  luhnCheck cardNumber = true -> validateLength cardNumber = true.
Proof.
  unfold luhnCheck, validateLength. cbv zeta. rewrite length_map.
  destruct (Nat.ltb_spec (List.length cardNumber) 12);
    [discriminate|].
  destruct (Nat.ltb_spec 19 (List.length cardNumber));
    [discriminate|].
  intros _. apply andb_true_iff. split; apply Nat.leb_le; lia.
Qed.

(** X17. Where the patterns and the BIN ranges of the registry part.
    A number in which [detectCardType] finds a network fails [validateBIN]
    exactly when its first four digits are 2220, 3500 to 3527, 3590 to
    3599, 5893 or 6761 to 6763.  A line whose cleaned number is such a
    detected number is never valid, and when the number passes the
    structure and the Luhn checks the reason is "Invalid BIN/IIN".  (A
    number that begins so and is not detected skips the BIN check.) *)
Theorem validateBIN_fails_exactly (cardNumber : str) :
  type (detectCardType cardNumber) <> Some "unknown"%string ->
  (validateBIN cardNumber (detectCardType cardNumber) = false
   <-> without_range (firstn 4 cardNumber) = true)
  /\ (without_range (firstn 4 cardNumber) = true ->
      forall now line,
        cleanCardNumber (number (extractCardData line)) = cardNumber ->
        CCValidator.valid (validateCard now line) = false)
  /\ (without_range (firstn 4 cardNumber) = true ->
      validateStructure cardNumber = true -> luhnCheck cardNumber = true ->
      forall now line,
        cleanCardNumber (number (extractCardData line)) = cardNumber ->
        reason (validateCard now line) = Some "Invalid BIN/IIN"%string).
Proof.
  intros Hty.
  assert (Hbin : validateBIN cardNumber (detectCardType cardNumber)
                 = negb (without_range (firstn 4 cardNumber))).
  { revert Hty. unfold detectCardType, cardPatterns. cbn [detect_in].
    repeat match goal with
           | |- context [if pattern_test ?i cardNumber then _ else _] =>
               let E := fresh "E" in
               destruct (pattern_test i cardNumber) eqn:E;
               [ intros _;
                 apply (bins_miss_exactly_sound
                          {| type := None; pattern := pattern i;
                             binRanges := binRanges i;
                             lengths := lengths i;
                             cvvLength := cvvLength i;
                             name := name i |} cardNumber);
                 [vm_compute; reflexivity|exact E]
               | ]
           end.
    intros H. exfalso. now apply H. }
  assert (Hneq : string_neqb (type (detectCardType cardNumber)) "unknown"
                 = true).
  { unfold string_neqb. destruct (type (detectCardType cardNumber)) as [k|];
      [|reflexivity].
    apply negb_true_iff. apply String.eqb_neq. congruence. }
  split; [|split].
  - rewrite Hbin. destruct (without_range _); simpl; intuition discriminate.
  - intros Hw now line Hn. unfold validateCard. rewrite Hn, Hbin, Hw.
    rewrite Hneq. cbn [negb andb].
    repeat match goal with
           | |- context [if negb ?b then _ else _] =>
               destruct b; cbn [negb]; [|reflexivity]
           end.
    reflexivity.
  - intros Hw Hs Hl now line Hn.
    pose proof (luhnCheck_validateLength _ Hl) as Hlen.
    unfold validateCard. rewrite Hn, Hbin, Hw, Hneq, Hs, Hl, Hlen.
    destruct (number (extractCardData line)) as [|c r] eqn:En.
    + cbn in Hn. subst cardNumber. discriminate Hlen.
    + reflexivity.
Qed.

Lemma validateBIN_fails_exactly_witness :
  type (detectCardType (lit "2220123456789015")) = Some "mastercard"%string
  /\ luhnCheck (lit "2220123456789015") = true
  /\ validateBIN (lit "2220123456789015")
                 (detectCardType (lit "2220123456789015")) = false
  /\ CCValidator.valid
       (validateCard november_2026 (lit "2220123456789015|12|2030|123"))
     = false
  /\ reason (validateCard november_2026 (lit "2220123456789015|12|2030|123"))
     = Some "Invalid BIN/IIN"%string.
Proof.
  assert (Hty : type (detectCardType (lit "2220123456789015"))
                <> Some "unknown"%string) by discriminate.
  destruct (validateBIN_fails_exactly (lit "2220123456789015") Hty)
    as (Hiff & Hnever & Hwhy).
  split; [reflexivity|]. split; [reflexivity|].
  split; [apply Hiff; reflexivity|].
  split; [apply Hnever; reflexivity|].
  apply Hwhy; reflexivity.
Defined.

End RegistryStarts.

(* ================================================================== *)
(** ** The Luhn check on strings that are not numbers                  *)
(* ================================================================== *)

Section LuhnStrings.

Lemma luhn_loop_nan (digits : list (option Z)) (n : nat) (isSecond : bool) :
  luhn_loop digits n None isSecond = None.
Proof.
  revert isSecond; induction n as [|i IH]; intros isSecond; [reflexivity|].
  cbn [luhn_loop]. destruct isSecond; cbn [negb];
    [destruct (nth i digits None)|]; apply IH.
Qed.

Lemma luhn_loop_meets_nan (digits : list (option Z)) (n i : nat)
  (sum : option Z) (isSecond : bool) :
  (i < n)%nat -> nth i digits None = None ->
  luhn_loop digits n sum isSecond = None.
Proof.
  revert sum isSecond; induction n as [|j IH]; intros sum isSecond Hi Hnan;
    [lia|].
  cbn [luhn_loop]. destruct (Nat.eq_dec i j) as [->|Hne].
  - rewrite Hnan. destruct isSecond; cbn [negb];
      destruct sum; apply luhn_loop_nan.
  - apply IH; [lia|assumption].
Qed.

(** X18. [luhnCheck] answers [true] only for strings of 12 to 19 code
    units each of which is a digit or white space (which [Number] reads
    as 0): one unit of any other kind turns the sum into [NaN] and the
    answer into [false]. *)
Theorem luhnCheck_rejects_other_units (cardNumber : str) :
  luhnCheck cardNumber = true ->
  (12 <= List.length cardNumber <= 19)%nat
  /\ forallb (fun c => is_digit c || is_white_space c) cardNumber = true.
Proof.
  unfold luhnCheck. rewrite length_map.
  destruct (Nat.ltb_spec (List.length cardNumber) 12); [discriminate|].
  destruct (Nat.ltb_spec 19 (List.length cardNumber)); [discriminate|].
  cbn [orb]. intros Hok. split; [lia|].
  apply forallb_forall. intros c Hc.
  destruct (is_digit c || is_white_space c) eqn:E; [reflexivity|exfalso].
  apply In_nth with (d := 0%N) in Hc as (i & Hi & Hnth).
  assert (Hnan : nth i (List.map Number_of_unit cardNumber) None = None).
  { change (@None Z) with (Number_of_unit 0).
    rewrite map_nth, Hnth. unfold Number_of_unit.
    apply orb_false_iff in E as [-> ->]. reflexivity. }
  rewrite (luhn_loop_meets_nan _ _ i _ _ Hi Hnan) in Hok. discriminate.
Qed.

Lemma luhnCheck_rejects_other_units_witness :
  forallb (fun c => is_digit c || is_white_space c)
          (lit "4539148803436467") = true.
Proof.
  exact (proj2 (luhnCheck_rejects_other_units
                  (lit "4539148803436467") eq_refl)).
Defined.

End LuhnStrings.

(* ================================================================== *)
(** ** The year a result card shows                                    *)
(* ================================================================== *)

Section ResultCard.

Import UI.

Ltac digit_ranges :=
  repeat match goal with
         | H : is_digit ?x = true |- _ =>
             lazymatch goal with
             | _ : (0 <= digit_value x <= 9)%Z |- _ => fail
             | _ => pose proof (digit_value_range x H)
             end
         end.

Ltac parse_cases :=
  repeat match goal with
         | |- context [is_white_space ?x] =>
             let E := fresh "W" in destruct (is_white_space x) eqn:E
         | |- context [(?x =? 45)%N] =>
             let E := fresh "M" in destruct (x =? 45)%N eqn:E
         | |- context [(?x =? 43)%N] =>
             let E := fresh "P" in destruct (x =? 43)%N eqn:E
         | |- context [is_digit ?x] =>
             let E := fresh "D" in destruct (is_digit x) eqn:E
         end.

(** Two units that read as ten or more are two digits. *)
Lemma parseInt_two (a b : N) (v : Z) :
  parseInt [a; b] = Some v -> (10 <= v)%Z ->
  is_digit a = true /\ is_digit b = true
  /\ v = (10 * digit_value a + digit_value b)%Z.
Proof.
  unfold parseInt. cbn [drop_while take_while].
  parse_cases; cbn [take_while]; parse_cases;
    unfold decimal_value; cbn [fold_left];
    intros Hv Hge; try discriminate;
    match type of Hv with
    | Some ?e = Some _ => assert (Hv' : v = e) by congruence
    end;
    clear Hv; subst v; digit_ranges; repeat split; try reflexivity; lia.
Qed.

(** Four units that read as a thousand or more are four digits. *)
Lemma parseInt_four (a b c d : N) (v : Z) :
  parseInt [a; b; c; d] = Some v -> (1000 <= v)%Z ->
  is_digit a = true /\ is_digit b = true
  /\ is_digit c = true /\ is_digit d = true.
Proof.
  unfold parseInt. cbn [drop_while take_while].
  parse_cases; cbn [drop_while take_while]; parse_cases;
    cbn [drop_while take_while]; parse_cases;
    cbn [drop_while take_while]; parse_cases;
    unfold decimal_value; cbn [fold_left];
    intros Hv Hge; try discriminate;
    match type of Hv with
    | Some ?e = Some _ => assert (Hv' : v = e) by congruence
    end;
    clear Hv; subst v; digit_ranges; repeat split; try reflexivity; lia.
Qed.

(** X19. The year on a result card is the year that was validated.  From
    the year 2010 on, whenever a line is valid, the year the card shows
    for it (the year field, with 20 put before a two-character one) is
    four digits and reads as the [expYear] of the verdict. *)
Theorem displayYear_reads_as_expYear (now : Clock) (cardData : str) :
  (2010 <= getFullYear now)%Z ->
  CCValidator.valid (validateCard now cardData) = true ->
  let shown := displayYear (year (extractCardData cardData)) in
  normalized shown /\ List.length shown = 4
  /\ parseInt shown = expYear (validateCard now cardData).
Proof.
  intros Hnow. cbv zeta. unfold validateCard.
  set (d := extractCardData cardData).
  repeat match goal with
         | |- context [if negb ?b then _ else _] =>
             destruct b; cbn [negb]; [|discriminate]
         end.
  destruct (string_neqb _ _ && negb (validateBIN _ _)); [discriminate|].
  destruct (validateExpiration now (month d) (year d)) as [why|m y] eqn:He;
    [discriminate|].
  destruct (validateCVV _ _); cbn [negb]; [|discriminate].
  intros _. cbn [expYear].
  apply validateExpiration_valid in He
    as (_ & (v & Hv & ->) & Hlen & _ & Hy & _).
  unfold current_year, full_year in Hy. unfold displayYear, full_year.
  destruct Hlen as [L|L]; rewrite L in *; cbn [Nat.eqb] in *.
  - destruct (year d) as [|a [|b [|]]]; try discriminate.
    destruct (parseInt_two a b v Hv ltac:(lia)) as (Da & Db & ->).
    split; [unfold normalized; cbn; now rewrite Da, Db|].
    split; [reflexivity|].
    unfold parseInt. cbn [lit List.map list_ascii_of_string app drop_while].
    change (is_white_space (N_of_ascii "2")) with false. cbn iota.
    change (N_of_ascii "2" =? 45)%N with false.
    change (N_of_ascii "2" =? 43)%N with false. cbn iota.
    cbn [take_while]. change (is_digit (N_of_ascii "2")) with true.
    change (is_digit (N_of_ascii "0")) with true. cbn iota.
    rewrite Da, Db. unfold decimal_value. cbn [fold_left].
    f_equal. change (digit_value (N_of_ascii "2")) with 2%Z.
    change (digit_value (N_of_ascii "0")) with 0%Z. lia.
  - destruct (year d) as [|a [|b [|c [|e [|]]]]]; try discriminate.
    destruct (parseInt_four a b c e v Hv ltac:(lia)) as (Da & Db & Dc & De).
    split; [unfold normalized; cbn; now rewrite Da, Db, Dc, De|].
    split; [reflexivity|exact Hv].
Qed.

Lemma displayYear_reads_as_expYear_witness :
  parseInt (displayYear (lit "30")) = Some 2030%Z.
Proof.
  exact (proj2 (proj2 (displayYear_reads_as_expYear november_2026
                         (lit "4111111111111111|12|30|123")
                         ltac:(vm_compute; discriminate) eq_refl))).
Defined.

End ResultCard.

(* ================================================================== *)
(** ** A valid line as time passes                                     *)
(* ================================================================== *)

Section Expiry.

Local Open Scope string_scope.

(** An accepted date under a clock of the same or a later year. *)
Lemma validateExpiration_later (now later : Clock) (month year : str)
  (m y : Z) :
  validateExpiration now month year = ExpValid m y ->
  (getFullYear now <= getFullYear later)%Z ->
  (not_over later m y -> validateExpiration later month year = ExpValid m y)
  /\ (~ not_over later m y ->
      validateExpiration later month year = ExpInvalid "Card expired").
Proof.
  unfold validateExpiration, not_over, current_year, current_month.
  destruct (negb (truthy month) || negb (truthy year)); [discriminate|].
  destruct (parseInt month) as [mm|]; [|discriminate].
  destruct ((mm <? 1)%Z || (12 <? mm)%Z); [discriminate|].
  destruct (parseInt year) as [v|]; [|discriminate].
  assert (Hafter : forall fy,
    (if (fy <? getFullYear now)%Z then ExpInvalid "Card expired"
     else if (fy =? getFullYear now)%Z && (mm <? getMonth now + 1)%Z
          then ExpInvalid "Card expired"
          else if (getFullYear now + 10 <? fy)%Z
               then ExpInvalid "Expiration too far in future"
               else ExpValid mm fy) = ExpValid m y ->
    (getFullYear now <= getFullYear later)%Z ->
    ((getFullYear later < y
      \/ getFullYear later = y /\ getMonth later + 1 <= m)%Z ->
     (if (fy <? getFullYear later)%Z then ExpInvalid "Card expired"
      else if (fy =? getFullYear later)%Z && (mm <? getMonth later + 1)%Z
           then ExpInvalid "Card expired"
           else if (getFullYear later + 10 <? fy)%Z
                then ExpInvalid "Expiration too far in future"
                else ExpValid mm fy) = ExpValid m y)
    /\ (~ (getFullYear later < y
           \/ getFullYear later = y /\ getMonth later + 1 <= m)%Z ->
        (if (fy <? getFullYear later)%Z then ExpInvalid "Card expired"
         else if (fy =? getFullYear later)%Z && (mm <? getMonth later + 1)%Z
              then ExpInvalid "Card expired"
              else if (getFullYear later + 10 <? fy)%Z
                   then ExpInvalid "Expiration too far in future"
                   else ExpValid mm fy) = ExpInvalid "Card expired")).
  { intros fy.
    destruct (Z.ltb_spec fy (getFullYear now)); [discriminate|].
    destruct (Z.eqb_spec fy (getFullYear now));
      destruct (Z.ltb_spec mm (getMonth now + 1)); cbn [andb];
      try discriminate;
      (destruct (Z.ltb_spec (getFullYear now + 10) fy); [discriminate|]);
      intros Eq Hle;
      assert (Hmy : mm = m /\ fy = y) by (inversion Eq; auto);
      destruct Hmy as [-> ->]; clear Eq; split; intros Hgood;
      destruct (Z.ltb_spec y (getFullYear later)); try reflexivity;
      try lia;
      destruct (Z.eqb_spec y (getFullYear later));
      destruct (Z.ltb_spec m (getMonth later + 1)); cbn [andb];
      try reflexivity; try lia;
      destruct (Z.ltb_spec (getFullYear later + 10) y);
      try reflexivity; lia. }
  destruct (List.length year =? 2)%nat; [apply Hafter|].
  destruct (negb (List.length year =? 4)%nat); [discriminate|].
  apply Hafter.
Qed.

(** X20. A valid line stays valid until its expiry month is over, and
    is then rejected as expired: under a clock of the same or a later
    year, the verdict is unchanged as long as the month and year it
    reports are not over, and is "Card expired" once they are. *)
Theorem validateCard_valid_until_expiry (now later : Clock)
  (cardData : str) (m y : Z) :
  CCValidator.valid (validateCard now cardData) = true ->
  expMonth (validateCard now cardData) = Some m ->
  expYear (validateCard now cardData) = Some y ->
  (getFullYear now <= getFullYear later)%Z ->
  (not_over later m y ->
   validateCard later cardData = validateCard now cardData)
  /\ (~ not_over later m y ->
      CCValidator.valid (validateCard later cardData) = false
      /\ reason (validateCard later cardData) = Some "Card expired").
Proof.
  unfold validateCard.
  set (d := extractCardData cardData).
  set (n := cleanCardNumber (number d)).
  destruct (negb (truthy (number d))); [discriminate|].
  destruct (negb (validateLength n)); [discriminate|].
  destruct (negb (validateStructure n)); [discriminate|].
  destruct (negb (luhnCheck n)); [discriminate|].
  destruct (string_neqb (type (detectCardType n)) "unknown"
            && negb (validateBIN n (detectCardType n))); [discriminate|].
  destruct (validateExpiration now (month d) (year d)) as [why|m0 y0] eqn:E;
    [discriminate|].
  destruct (negb (validateCVV (cvv d) (detectCardType n))) eqn:Hcvv;
    [discriminate|].
  cbn [CCValidator.valid expMonth expYear].
  intros _ Hm Hy Hle.
  assert (m0 = m) by congruence. assert (y0 = y) by congruence. subst m0 y0.
  destruct (validateExpiration_later now later _ _ m y E Hle) as [Hgood Hover].
  split; intros H.
  - rewrite (Hgood H). reflexivity.
  - rewrite (Hover H). split; reflexivity.
Qed.

Lemma validateCard_valid_until_expiry_witness :
  validateCard {| getFullYear := 2030; getMonth := 11 |}
               (lit "4111111111111111|12|2030|123")
  = validateCard november_2026 (lit "4111111111111111|12|2030|123").
Proof.
  apply (validateCard_valid_until_expiry november_2026
           {| getFullYear := 2030; getMonth := 11 |}
           (lit "4111111111111111|12|2030|123") 12 2030);
    try reflexivity.
  - cbn. lia.
  - unfold not_over, current_year, current_month. cbn. lia.
Defined.

End Expiry.

(* ================================================================== *)
(** ** White space around a record line                                *)
(* ================================================================== *)

Section TrimmedLine.

Lemma drop_while_app (p : N -> bool) (l r : str) :
  drop_while p (l ++ r)
  = if forallb p l then drop_while p r else drop_while p l ++ r.
Proof.
  induction l as [|c l IH]; [reflexivity|].
  cbn. destruct (p c); [exact IH|reflexivity].
Qed.

(** A string is white space, then its trimmed self, then white space. *)
Lemma trim_parts (s : str) :
  exists w1 w2,
    forallb is_white_space w1 = true /\ forallb is_white_space w2 = true
    /\ s = w1 ++ trim s ++ w2.
Proof.
  assert (Hd : forall l : str,
            exists w, forallb is_white_space w = true
                      /\ l = w ++ drop_while is_white_space l).
  { induction l as [|c l (w & Hw & Hl)]; [now exists []|].
    cbn. destruct (is_white_space c) eqn:Hc.
    - exists (c :: w). cbn. rewrite Hc, Hw. split; [reflexivity|].
      now rewrite <- Hl.
    - now exists []. }
  destruct (Hd s) as (w1 & H1 & Hs).
  destruct (Hd (rev (drop_while is_white_space s))) as (w2 & H2 & Hr).
  exists w1, (rev w2). split; [exact H1|]. split.
  - rewrite forallb_forall in *. intros x Hx. apply H2.
    now apply in_rev.
  - unfold trim. rewrite <- rev_app_distr, <- Hr, rev_involutive.
    exact Hs.
Qed.

Lemma trim_lead (w h : str) :
  forallb is_white_space w = true -> trim (w ++ h) = trim h.
Proof.
  intros Hw. unfold trim. now rewrite drop_while_app, Hw.
Qed.

Lemma trim_trail (l w : str) :
  forallb is_white_space w = true -> trim (l ++ w) = trim l.
Proof.
  intros Hw. unfold trim. rewrite drop_while_app.
  destruct (forallb is_white_space l) eqn:Hl.
  - apply drop_while_nil in Hw. rewrite Hw.
    apply drop_while_nil in Hl. now rewrite Hl.
  - rewrite rev_app_distr, drop_while_app.
    assert (Hr : forallb is_white_space (rev w) = true).
    { rewrite forallb_forall in *. intros x Hx. apply Hw.
      now apply in_rev. }
    now rewrite Hr.
Qed.

Lemma white_space_pipe_free (w : str) :
  forallb is_white_space w = true -> ~ In 124%N w.
Proof.
  intros Hw Hin. rewrite forallb_forall in Hw.
  specialize (Hw _ Hin). discriminate Hw.
Qed.

(** Separator-free units before a string go to its first part. *)
Lemma split_lead (sep : N) (w s : str) :
  ~ In sep w ->
  exists h t, split sep s = h :: t /\ split sep (w ++ s) = (w ++ h) :: t.
Proof.
  intros Hw. induction w as [|c w IH].
  - destruct (split sep s) as [|h t] eqn:E;
      [now destruct (split_nonempty sep s)|].
    now exists h, t.
  - destruct IH as (h & t & Hs & Hws);
      [intros Hin; apply Hw; now right|].
    exists h, t. split; [exact Hs|]. cbn.
    destruct (N.eqb_spec c sep) as [->|Hc];
      [exfalso; apply Hw; now left|].
    unfold code_eqb. destruct (N.eqb_spec c sep); [contradiction|].
    now rewrite Hws.
Qed.

(** Separator-free units after a string go to its last part. *)
Lemma split_trail (sep : N) (s w : str) :
  ~ In sep w ->
  exists ps l,
    split sep s = ps ++ [l] /\ split sep (s ++ w) = ps ++ [l ++ w].
Proof.
  intros Hw. induction s as [|c s (ps & l & Hs & Hsw)].
  - exists [], []. split; [reflexivity|]. now apply split_free.
  - cbn. destruct (code_eqb c sep).
    + exists ([] :: ps), l. now rewrite Hs, Hsw.
    + rewrite Hs, Hsw. destruct ps as [|p ps].
      * now exists [], (c :: l).
      * now exists ((c :: p) :: ps), l.
Qed.

Lemma split_trimmed (s : str) :
  List.map trim (split 124 (trim s)) = List.map trim (split 124 s).
Proof.
  destruct (trim_parts s) as (w1 & w2 & H1 & H2 & Hs).
  transitivity (List.map trim (split 124 (w1 ++ trim s ++ w2)));
    [|now rewrite <- Hs].
  destruct (split_lead 124 w1 (trim s ++ w2) (white_space_pipe_free _ H1))
    as (h & t & Hh & ->).
  destruct (split_trail 124 (trim s) w2 (white_space_pipe_free _ H2))
    as (ps & l & Hl & Hlw).
  rewrite Hlw in Hh. rewrite Hl. cbn [List.map].
  rewrite (trim_lead _ _ H1).
  change (List.map trim (ps ++ [l]) = List.map trim (h :: t)).
  rewrite <- Hh, !map_app. cbn [List.map].
  now rewrite (trim_trail _ _ H2).
Qed.

(** X21. White space around a record line does not count: the line
    [processBatch] validates and reports, the given one trimmed, has the
    fields and gets the verdict of the line as given. *)
Theorem validateCard_trimmed_line (now : Clock) (line : str) :
  extractCardData (trim line) = extractCardData line
  /\ validateCard now (trim line) = validateCard now line.
Proof.
  assert (E : extractCardData (trim line) = extractCardData line)
    by (unfold extractCardData; now rewrite split_trimmed).
  split; [exact E|]. unfold validateCard. now rewrite E.
Qed.

End TrimmedLine.

(* ================================================================== *)
(** ** Two-digit years                                                 *)
(* ================================================================== *)

Section TwoDigitYear.

Lemma digit_plain (c : N) :
  is_digit c = true ->
  is_white_space c = false /\ (c =? 45)%N = false /\ (c =? 43)%N = false.
Proof.
  intros Hd. split.
  - destruct (is_white_space c) eqn:Hw; [|reflexivity].
    rewrite (white_space_not_digit c Hw) in Hd. discriminate Hd.
  - unfold is_digit in Hd. apply andb_true_iff in Hd as [H _].
    apply N.leb_le in H. split; apply N.eqb_neq; lia.
Qed.

(** The expiration validator reads a year of two digits as that year of
    the century 2000. *)
Lemma validateExpiration_century (now : Clock) (month : str) (a b : N) :
  is_digit a = true -> is_digit b = true ->
  validateExpiration now month [a; b]
  = validateExpiration now month (lit "20" ++ [a; b]).
Proof.
  intros Ha Hb. destruct (digit_plain a Ha) as (Wa & Ma & Pa).
  assert (E2 : parseInt [a; b]
               = Some (10 * digit_value a + digit_value b)%Z).
  { unfold parseInt. cbn [drop_while]. rewrite Wa, Ma, Pa.
    cbn [take_while]. rewrite Ha, Hb. unfold decimal_value.
    cbn [fold_left]. f_equal. lia. }
  assert (E4 : parseInt (lit "20" ++ [a; b])
               = Some (2000 + (10 * digit_value a + digit_value b))%Z).
  { unfold parseInt.
    change (lit "20" ++ [a; b]) with [50%N; 48%N; a; b].
    change (drop_while is_white_space [50%N; 48%N; a; b])
      with [50%N; 48%N; a; b].
    cbv zeta iota beta.
    change (50 =? 45)%N with false. change (50 =? 43)%N with false.
    cbv iota.
    change (take_while is_digit [50%N; 48%N; a; b])
      with (50%N :: 48%N :: take_while is_digit [a; b]).
    cbn [take_while]. rewrite Ha, Hb. unfold decimal_value, digit_value.
    cbn [fold_left]. f_equal. lia. }
  unfold validateExpiration. rewrite E2, E4.
  change (lit "20" ++ [a; b]) with [50%N; 48%N; a; b].
  cbn [List.length Nat.eqb negb truthy]. reflexivity.
Qed.

(** X22. A year of two digits is read as that year of the century 2000:
    the line with the two digits for year field and the line with 20 put
    before them get the same verdict. *)
Theorem validateCard_two_digit_year (now : Clock) (n m c : str) (a b : N) :
  pipe_free n -> pipe_free m -> pipe_free c ->
  is_digit a = true -> is_digit b = true ->
  validateCard now (join 124 [n; m; [a; b]; c])
  = validateCard now (join 124 [n; m; lit "20" ++ [a; b]; c]).
Proof.
  intros Hn Hm Hc Ha Hb.
  destruct (digit_plain a Ha) as (Wa & _), (digit_plain b Hb) as (Wb & _).
  assert (Hp : forall x, In x [a; b] -> x <> 124%N).
  { intros x [<-|[<-|[]]] ->; discriminate. }
  assert (P2 : pipe_free [a; b]).
  { intros Hin. now apply (Hp _ Hin). }
  assert (P4 : pipe_free (lit "20" ++ [a; b])).
  { intros [E|[E|Hin]]; [discriminate E|discriminate E|].
    now apply (Hp _ Hin). }
  assert (T2 : trim [a; b] = [a; b]).
  { unfold trim. cbn [drop_while]. rewrite Wa. cbn [rev app drop_while].
    rewrite Wb. reflexivity. }
  assert (T4 : trim (lit "20" ++ [a; b]) = lit "20" ++ [a; b]).
  { unfold trim. change (lit "20" ++ [a; b]) with [50%N; 48%N; a; b].
    change (drop_while is_white_space [50%N; 48%N; a; b])
      with [50%N; 48%N; a; b].
    cbn [rev app drop_while]. rewrite Wb. reflexivity. }
  unfold validateCard.
  rewrite !extractCardData_join by (repeat constructor; assumption).
  cbn [number month year cvv]. rewrite T2, T4.
  now rewrite (validateExpiration_century now (trim m) a b Ha Hb).
Qed.

Lemma validateCard_two_digit_year_witness :
  validateCard november_2026 (lit "4111111111111111|12|30|123")
  = validateCard november_2026 (lit "4111111111111111|12|2030|123").
Proof.
  apply (validateCard_two_digit_year november_2026
           (lit "4111111111111111") (lit "12") (lit "123") 51 48);
    try reflexivity;
    intros Hin; vm_compute in Hin;
    repeat (destruct Hin as [Hin|Hin]; [discriminate Hin|]);
    exact Hin.
Defined.

End TwoDigitYear.
